(** * Response parsing and session workflow of the resume / interview analyser

    A shallow embedding of [backend/service.py] (prompt construction, the
    calls to the completion service and the regular-expression parsing of its
    replies, [detect_ai_resume] included), of the endpoints of
    [backend/main.py] that sequence them, and of the session logic of
    [streamlit_app/utils.py] and [streamlit_app/app.py] (file hashing, resets
    on file change, eligibility verdicts), with the earlier form of the resets
    in [frontend_final.py].

    Conventions of the embedding.
    - A Python [str] is a [text]: a list of characters.  Characters are the
      code points 0..255 (Rocq's [ascii]); the classes [\s], [\d] and
      [str.strip]'s notion of whitespace are Python's, restricted to that
      range.
    - Python's [re] module is a backtracking matcher.  It is embedded as an
      abstract syntax [regex] and a continuation-passing matcher [run] that
      explores the alternatives in the priority order of [re]: the first
      successful path is the match.
    - A Python [int] is a [Z]; [int(s)] is modelled on runs of decimal digits
      (the only strings the patterns ever capture), with the interpreter's
      default cap on their length: [int] raises [ValueError] on a run of
      more than 4300 digits, and the handlers of the callers catch it like
      any other exception.
    - A [dict] is an insertion-ordered association list.
    - The completion service is a function from requests to replies; every
      call is recorded in a log that the functions thread through.
    - What the endpoints take from outside the embedding (the text extracted
      from an upload, the decoding of its bytes, the hash object of
      [hashlib]) is a parameter of their model. *)

From Stdlib Require Import Ascii String DecimalString.
From Stdlib Require Import List Bool Arith ZArith NArith Lia.
Import ListNotations.

Set Implicit Arguments.

(** ** Characters and Python string helpers *)

Definition text := list ascii.

Definition str (s : String.string) : text := String.list_ascii_of_string s.

Arguments str s%_string.

Definition code (c : ascii) : N := N_of_ascii c.

Definition in_range (lo hi : N) (c : ascii) : bool :=
  ((lo <=? code c) && (code c <=? hi))%N.

(** [str.isspace] on one character, which is also the class [\s]. *)
Definition isspace (c : ascii) : bool :=
  in_range 9 13 c || in_range 28 32 c || (code c =? 133)%N || (code c =? 160)%N.

(** The class [\d]. *)
Definition isdigit (c : ascii) : bool := in_range 48 57 c.

Definition is_upper (c : ascii) : bool := in_range 65 90 c.
Definition is_lower (c : ascii) : bool := in_range 97 122 c.

(** The class [[A-Za-z]]. *)
Definition is_letter (c : ascii) : bool := is_upper c || is_lower c.

Definition nl : ascii := "010"%char.

Definition is_char (a : ascii) (c : ascii) : bool := Ascii.eqb a c.

Fixpoint text_eqb (a b : text) : bool :=
  match a, b with
  | [], [] => true
  | x :: a', y :: b' => Ascii.eqb x y && text_eqb a' b'
  | _, _ => false
  end.

(** [s.startswith(p)] *)
Fixpoint startswith (p s : text) : bool :=
  match p, s with
  | [], _ => true
  | x :: p', y :: s' => Ascii.eqb x y && startswith p' s'
  | _ :: _, [] => false
  end.

(** [needle in hay] *)
Fixpoint occurs (needle hay : text) : bool :=
  startswith needle hay ||
  match hay with
  | [] => false
  | _ :: hay' => occurs needle hay'
  end.

Fixpoint lstrip (s : text) : text :=
  match s with
  | c :: s' => if isspace c then lstrip s' else s
  | [] => []
  end.

Definition rstrip (s : text) : text := rev (lstrip (rev s)).

(** [s.strip()] *)
Definition strip (s : text) : text := rstrip (lstrip s).

(** [s.split(sep)] for a one-character separator: the pieces between the
    separators, always at least one piece. *)
Fixpoint split_on (sep : ascii) (s : text) : list text :=
  match s with
  | [] => [[]]
  | c :: s' =>
      if Ascii.eqb c sep then [] :: split_on sep s'
      else match split_on sep s' with
           | piece :: pieces => (c :: piece) :: pieces
           | [] => [[c]]
           end
  end.

(** [sep.join(pieces)] *)
Fixpoint join (sep : text) (pieces : list text) : text :=
  match pieces with
  | [] => []
  | [p] => p
  | p :: ps => p ++ sep ++ join sep ps
  end.

Definition upper_char (c : ascii) : ascii :=
  if is_lower c then ascii_of_N (code c - 32) else c.

(** [s.upper()].  It is applied to stripped criteria labels only, which hold
    letters of [[A-Za-z]], whitespace and [/]; any other character is left as
    it is. *)
Definition upper (s : text) : text := map upper_char s.

Definition digit_value (c : ascii) : Z := Z.of_N (code c) - 48.

(** The value of a run of decimal digits. *)
Definition digits_value (ds : text) : Z :=
  fold_left (fun acc c => 10 * acc + digit_value c)%Z ds 0%Z.

(** [sys.get_int_max_str_digits()], at its default. *)
Definition max_str_digits : nat := 4300.

(** [int(s)] for a non-empty run of decimal digits: a value when the run has
    at most [max_str_digits] digits (leading zeros count), [ValueError]
    otherwise. *)
Definition int (s : text) : option Z :=
  match s with
  | [] => None
  | _ =>
      if forallb isdigit s && (length s <=? max_str_digits)
      then Some (digits_value s) else None
  end.

(** [str(n)] for a natural number. *)
Definition str_of_nat (n : nat) : text :=
  str (DecimalString.NilZero.string_of_uint (Nat.to_uint n)).

(** ** Regular expressions as [re] reads them *)

Inductive regex : Type :=
| Eps                                  (* the empty pattern *)
| Chr (p : ascii -> bool)              (* one character: literal, class, dot *)
| Cat (a b : regex)                    (* a followed by b *)
| Alt (a b : regex)                    (* a|b, a tried first *)
| Star (greedy : bool) (a : regex)     (* a* and a*? *)
| Group (i : nat) (a : regex)          (* capturing group number i *)
| Look (a : regex)                     (* (?=a) *)
| Bol                                  (* ^ under re.MULTILINE *)
| Bos                                  (* ^ without re.MULTILINE *)
| EolM                                 (* $ under re.MULTILINE *)
| Eol                                  (* $ without re.MULTILINE *)
| Eos.                                 (* \Z *)

Definition Plus (greedy : bool) (a : regex) : regex := Cat a (Star greedy a).

(** [a?], greedy. *)
Definition Opt (a : regex) : regex := Alt a Eps.

(** A sequence of patterns, and a choice [a|b|c] tried left to right. *)
Fixpoint Seq (rs : list regex) : regex :=
  match rs with
  | [] => Eps
  | [r] => r
  | r :: rs' => Cat r (Seq rs')
  end.

Fixpoint OneOf (rs : list regex) : regex :=
  match rs with
  | [] => Eps
  | [r] => r
  | r :: rs' => Alt r (OneOf rs')
  end.

Fixpoint Lit (s : text) : regex :=
  match s with
  | [] => Eps
  | c :: s' => Cat (Chr (is_char c)) (Lit s')
  end.

Definition lit (s : String.string) : regex := Lit (str s).

Arguments lit s%_string.

(** [.] without re.DOTALL, and with it. *)
Definition dot : regex := Chr (fun c => negb (Ascii.eqb c nl)).
Definition dot_all : regex := Chr (fun _ => true).

Definition ws : regex := Chr isspace.
Definition digit : regex := Chr isdigit.
Definition newline : regex := Chr (is_char nl).

(** The matcher's position: the character before it, the text after it, and
    the groups captured so far (most recent first). *)
Record mstate : Type := MState {
  prev : option ascii;
  rest : text;
  caps : list (nat * text)
}.

Definition consumed (from to : mstate) : text :=
  firstn (length (rest from) - length (rest to)) (rest from).

Definition set_cap (i : nat) (from to : mstate) : mstate :=
  MState (prev to) (rest to) ((i, consumed from to) :: caps to).

Fixpoint lookup_cap (i : nat) (cs : list (nat * text)) : option text :=
  match cs with
  | [] => None
  | (j, s) :: cs' => if Nat.eqb i j then Some s else lookup_cap i cs'
  end.

(** [m.group(i)] *)
Definition group (i : nat) (m : mstate) : text :=
  match lookup_cap i (caps m) with
  | Some s => s
  | None => []
  end.

Definition at_line_start (st : mstate) : bool :=
  match prev st with
  | None => true
  | Some c => Ascii.eqb c nl
  end.

Definition at_line_end (st : mstate) : bool :=
  match rest st with
  | [] => true
  | c :: _ => Ascii.eqb c nl
  end.

Definition at_end (st : mstate) : bool :=
  match rest st with
  | [] => true
  | _ => false
  end.

Definition at_end_or_last_newline (st : mstate) : bool :=
  match rest st with
  | [] => true
  | [c] => Ascii.eqb c nl
  | _ => false
  end.

(** The iterations of a repetition whose body is matched by [body]: greedy
    repetitions try one more iteration before the rest of the pattern [k],
    lazy ones try [k] first.  An iteration that consumes nothing is not
    repeated, so [n], one more than the remaining characters, bounds the
    number of iterations. *)
Fixpoint star_loop (body : mstate -> (mstate -> option mstate) -> option mstate)
  (greedy : bool) (k : mstate -> option mstate) (n : nat) (st : mstate)
  {struct n} : option mstate :=
  match n with
  | O => k st
  | S n' =>
      if greedy then
        match body st (fun st' =>
                if length (rest st') <? length (rest st)
                then star_loop body greedy k n' st' else None) with
        | Some m => Some m
        | None => k st
        end
      else
        match k st with
        | Some m => Some m
        | None =>
            body st (fun st' =>
              if length (rest st') <? length (rest st)
              then star_loop body greedy k n' st' else None)
        end
  end.

(** [run r st k]: match [r] at [st], then continue with [k]; the first
    alternative for which [k] succeeds wins. *)
Fixpoint run (r : regex) (st : mstate) (k : mstate -> option mstate)
  {struct r} : option mstate :=
  match r with
  | Eps => k st
  | Chr p =>
      match rest st with
      | c :: t => if p c then k (MState (Some c) t (caps st)) else None
      | [] => None
      end
  | Cat a b => run a st (fun st' => run b st' k)
  | Alt a b =>
      match run a st k with
      | Some m => Some m
      | None => run b st k
      end
  | Star greedy a => star_loop (run a) greedy k (S (length (rest st))) st
  | Group i a => run a st (fun st' => k (set_cap i st st'))
  | Look a =>
      match run a st (fun st' => Some st') with
      | Some st' => k (MState (prev st) (rest st) (caps st'))
      | None => None
      end
  | Bol => if at_line_start st then k st else None
  | Bos => match prev st with None => k st | Some _ => None end
  | EolM => if at_line_end st then k st else None
  | Eol => if at_end_or_last_newline st then k st else None
  | Eos => if at_end st then k st else None
  end.

(** One match attempt at a position.  [must_advance] refuses the empty
    match, as [re] does right after an empty match at the same position. *)
Definition attempt (r : regex) (must_advance : bool) (p : option ascii)
  (s : text) : option mstate :=
  run r (MState p s [])
      (fun st' => if must_advance && (length (rest st') =? length s)
                  then None else Some st').

(** [re.match(r, s)] *)
Definition re_match (r : regex) (s : text) : option mstate :=
  attempt r false None s.

Fixpoint search_from (r : regex) (p : option ascii) (s : text)
  : option mstate :=
  match attempt r false p s with
  | Some m => Some m
  | None =>
      match s with
      | [] => None
      | c :: t => search_from r (Some c) t
      end
  end.

(** [re.search(r, s)]: the match at the leftmost position that has one. *)
Definition re_search (r : regex) (s : text) : option mstate :=
  search_from r None s.

(** The successive non-overlapping matches, left to right.  [busy] counts the
    characters still covered by the match found last. *)
Fixpoint scan (r : regex) (p : option ascii) (s : text) (busy : nat)
  {struct s} : list mstate :=
  match s with
  | [] =>
      match busy with
      | O => match attempt r false p [] with
             | Some m => [m]
             | None => []
             end
      | S _ => []
      end
  | c :: t =>
      match busy with
      | S b => scan r (Some c) t b
      | O =>
          match attempt r false p s with
          | None => scan r (Some c) t 0
          | Some m =>
              match length s - length (rest m) with
              | S b => m :: scan r (Some c) t b
              | O =>
                  match attempt r true p s with
                  | Some m2 =>
                      m :: m2 ::
                        scan r (Some c) t (length s - length (rest m2) - 1)
                  | None => m :: scan r (Some c) t 0
                  end
              end
          end
      end
  end.

(** [re.finditer(r, s)] *)
Definition re_finditer (r : regex) (s : text) : list mstate :=
  scan r None s 0.

(** [re.sub(r, '', s)]: the text outside the matches. *)
Fixpoint sub_scan (r : regex) (p : option ascii) (s : text) (busy : nat)
  {struct s} : text :=
  match s with
  | [] => []
  | c :: t =>
      match busy with
      | S b => sub_scan r (Some c) t b
      | O =>
          match attempt r false p s with
          | None => c :: sub_scan r (Some c) t 0
          | Some m =>
              match length s - length (rest m) with
              | S b => sub_scan r (Some c) t b
              | O =>
                  match attempt r true p s with
                  | Some m2 =>
                      match length s - length (rest m2) with
                      | S b => sub_scan r (Some c) t b
                      | O => c :: sub_scan r (Some c) t 0
                      end
                  | None => c :: sub_scan r (Some c) t 0
                  end
              end
          end
      end
  end.

Definition re_sub_empty (r : regex) (s : text) : text := sub_scan r None s 0.

(** ** [_parse_generated_questions] *)

Definition dot_or_paren : regex :=
  Chr (fun c => is_char "."%char c || is_char ")"%char c).

(** [\n\s*\d+[\.\)]|\n\n|\Z], the inside of the lookahead below. *)
Definition next_question_ahead : regex :=
  OneOf [Seq [newline; Star true ws; Plus true digit; dot_or_paren];
         Seq [newline; newline];
         Eos].

(** [^\s*\d+[\.\)]\s*(.*?)(?=\n\s*\d+[\.\)]|\n\n|\Z)], DOTALL and MULTILINE *)
Definition re_numbered_question : regex :=
  Seq [Bol; Star true ws; Plus true digit; dot_or_paren; Star true ws;
       Group 1 (Star false dot_all);
       Look next_question_ahead].

(** [^\d+[\.\)]\s*.+] *)
Definition re_numbered_line : regex :=
  Seq [Bos; Plus true digit; dot_or_paren; Star true ws; Plus true dot].

(** [^\d+[\.\)]\s*] *)
Definition re_number_prefix : regex :=
  Seq [Bos; Plus true digit; dot_or_paren; Star true ws].

Definition nonempty (s : text) : bool :=
  match s with [] => false | _ => true end.

Definition primary_pass (question_text : text) : list text :=
  filter nonempty
    (map (fun m => strip (group 1 m))
         (re_finditer re_numbered_question question_text)).

Definition fallback_line (line0 : text) : list text :=
  let line := strip line0 in
  match re_match re_numbered_line line with
  | Some _ => [strip (re_sub_empty re_number_prefix line)]
  | None => if nonempty line then [line] else []
  end.

Definition fallback_pass (question_text : text) : list text :=
  filter nonempty (flat_map fallback_line (split_on nl question_text)).

Definition _parse_generated_questions (question_text : text) : list text :=
  let parsed_matches := primary_pass question_text in
  match parsed_matches with
  | [] => fallback_pass question_text
  | _ => parsed_matches
  end.

(** ** Dictionaries, the completion service and exceptions *)

Definition dict (V : Type) : Type := list (text * V).

(** [d[k] = v]: an existing key keeps its place and takes the new value, a
    new key goes to the end. *)
Fixpoint dict_set {V : Type} (k : text) (v : V) (d : dict V) : dict V :=
  match d with
  | [] => [(k, v)]
  | (k', v') :: d' =>
      if text_eqb k' k then (k', v) :: d' else (k', v') :: dict_set k v d'
  end.

Definition dict_keys {V : Type} (d : dict V) : list text := map fst d.
Definition dict_values {V : Type} (d : dict V) : list V := map snd d.

Record message : Type := Message { role : text; content : text }.

Record request : Type := Request {
  model : text;
  messages : list message;
  max_tokens : nat
}.

(** What [chat.completions.create] and the reading of
    [response.choices[0].message.content] do: they give the text of the first
    choice, or an exception is raised (by the service, or by the first use of
    a reply that has no text). *)
Inductive reply : Type :=
| Completion (message_content : text)
| ServiceError (e : text).

Definition client : Type := request -> reply.

Inductive exn : Type :=
| Error (msg : text)
| HTTPException (status_code : nat) (detail : text).

Definition exn_str (e : exn) : text :=
  match e with
  | Error msg => msg
  | HTTPException code detail => str_of_nat code ++ str ": " ++ detail
  end.

Definition HTTP_500_INTERNAL_SERVER_ERROR : nat := 500.

(** A computation may raise, and records the requests it sends. *)
Definition M (A : Type) : Type := list request -> (A + exn) * list request.

Definition ret {A : Type} (a : A) : M A := fun log => (inl a, log).

Definition raise {A : Type} (e : exn) : M A := fun log => (inr e, log).

Definition bind {A B : Type} (c : M A) (f : A -> M B) : M B :=
  fun log =>
    match c log with
    | (inl a, log') => f a log'
    | (inr e, log') => (inr e, log')
    end.

Definition lift {A : Type} (r : A + exn) : M A := fun log => (r, log).

Definition try_except {A : Type} (c : M A) (handler : exn -> M A) : M A :=
  fun log =>
    match c log with
    | (inl a, log') => (inl a, log')
    | (inr e, log') => handler e log'
    end.

Definition create (c : client) (req : request) : M text :=
  fun log =>
    match c req with
    | Completion t => (inl t, log ++ [req])
    | ServiceError e => (inr (Error e), log ++ [req])
    end.

Notation "x <- c ;; k" := (bind c (fun x => k))
  (at level 61, c at next level, right associativity).

(** Pure steps that may raise. *)
Definition int_or_raise (s : text) : Z + exn :=
  match int s with
  | Some v => inl v
  | None =>
      if negb (length s =? 0) && forallb isdigit s then
        inr (Error (str "Exceeds the limit (" ++ str_of_nat max_str_digits
                    ++ str " digits) for integer string conversion: value has "
                    ++ str_of_nat (length s)
                    ++ str " digits; use sys.set_int_max_str_digits() to increase the limit"))
      else
        inr (Error (str "invalid literal for int() with base 10: '" ++ s
                    ++ str "'"))
  end.

(** ** [score_resume_against_jd] *)

Record scoring_result : Type := ScoringResult {
  analysis_raw : text;
  overall_score : Z;
  criteria_scores : dict Z;
  hard_requirements_match : dict text;
  strengths_text : text
}.

Definition scoring_prompt (resume_text jd_text : text) : text :=
  str "You are an expert AI recruitment assistant. Your task is to meticulously analyze a candidate's resume against a specific job description.
You must provide a detailed compatibility analysis. It is CRUCIAL that your response STRICTLY adheres to the precise format specified below.

--- Job Description (JD) ---
" ++
  jd_text ++
  str "

--- Candidate Resume ---
" ++
  resume_text ++
  str "

--- Analysis ---
Based on the provided Job Description and Candidate Resume, deliver your analysis. PAY VERY CLOSE ATTENTION to the required output format, including all headers, sub-headers, and bullet point styling.

REQUIRED OUTPUT FORMAT (Strict Adherence Necessary):
OVERALL_SCORE: [score]/100

CRITERIA_SCORES:
Technical Skills Match: [score]/100
Experience Relevance: [score]/100
Education Background: [score]/100
Responsibilities Alignment: [score]/100
Soft Skills/Communication: [score]/100

HARD_REQUIREMENTS_MATCH:
Location Match: [Yes/No/Not Specified in JD]
Full-time Availability: [Yes/No/Not Specified in JD]
Minimum Experience Met: [Yes/No/Not Specified in JD/Cannot Determine]
Other Specific Requirements Met (e.g., Certifications, Specific Tools, etc.): [Yes/No/Not Specified in JD/N/A]

STRENGTHS:
- [Strength 1: A concise point directly highlighting how the candidate meets a key JD requirement.]
- [Strength 2: Another specific, concise point of alignment with the JD.]- [Strength n: Mention n number of strengths only if it is related to the current Job Description (not much important if not critical)]

IMPORTANT INSTRUCTIONS FOR THE AI MODEL:
1.  The section headers (OVERALL_SCORE, CRITERIA_SCORES, HARD_REQUIREMENTS_MATCH, STRENGTHS) and criteria sub-headers (e.g., Technical Skills Match, Location Match) MUST be reproduced EXACTLY as shown above.
2.  Each score MUST be an integer followed immediately by '/100'.
3.  Each item under HARD_REQUIREMENTS_MATCH MUST use one of the specified values: 'Yes', 'No', 'Not Specified in JD', 'Cannot Determine', 'N/A'. Use 'No' if the resume clearly does NOT meet a requirement explicitly stated in JD. Use 'Not Specified in JD' if the JD does not mention that requirement. Use 'Cannot Determine' if the JD specifies a requirement but the resume provides insufficient information to confirm. Use 'N/A' for 'Other Specific Requirements Met' if no other specific requirements are found in the JD.
4.  Each item under STRENGTHS MUST be a bullet point starting with '- ' (a hyphen followed by a single space).
5.  Ensure there are blank lines separating OVERALL_SCORE, CRITERIA_SCORES, HARD_REQUIREMENTS_MATCH, and STRENGTHS sections as shown in the example format.
6.  Do NOT add any introductory or concluding sentences or phrases around these structured blocks that are not part of the bullet points themselves.
7.  The content for strengths should be concise, professional, and directly relevant to the comparison between the resume and the job description.8.  **CRITICAL: DO NOT include any 'AREAS_FOR_IMPROVEMENT' section or similar constructive feedback. Only provide STRENGTHS.**".

Definition scoring_request (deployment_name resume_text jd_text : text)
  : request :=
  Request deployment_name
    [Message (str "system")
       (str "You are a highly precise recruitment AI. You are an expert in detailed resume analysis against job descriptions and strictly follow output formatting instructions.");
     Message (str "user") (scoring_prompt resume_text jd_text)]
    1500.

(** [OVERALL_SCORE:\s*(\d+)/100] *)
Definition re_overall_score : regex :=
  Seq [lit "OVERALL_SCORE:"; Star true ws; Group 1 (Plus true digit);
       lit "/100"].

(** [[A-Za-z\s\/]] *)
Definition label_char (c : ascii) : bool :=
  is_letter c || isspace c || is_char "/"%char c.

(** [^\s*([A-Za-z\s\/]+[A-Za-z]):\s*(\d+)/100], MULTILINE *)
Definition re_criteria_line : regex :=
  Seq [Bol; Star true ws;
       Group 1 (Seq [Plus true (Chr label_char); Chr is_letter]);
       Chr (is_char ":"%char); Star true ws; Group 2 (Plus true digit);
       lit "/100"].

(** [HARD_REQUIREMENTS_MATCH:\s*\n((?:.|\n)*?)(?=\nSTRENGTHS:|\Z)],
    MULTILINE *)
Definition re_hard_requirements : regex :=
  Seq [lit "HARD_REQUIREMENTS_MATCH:"; Star true ws; newline;
       Group 1 (Star false (Alt dot newline));
       Look (Alt (Seq [newline; lit "STRENGTHS:"]) Eos)].

Definition dash : regex := Chr (is_char "-"%char).

(** [[A-Z_]] *)
Definition header_char (c : ascii) : bool := is_upper c || is_char "_"%char c.

(** [(?:-\s*.*\n?)+?] under DOTALL, the body of the bullet groups. *)
Definition bullet_block : regex :=
  Plus false (Seq [dash; Star true ws; Star true dot_all; Opt newline]).

(** [STRENGTHS:\s*\n((?:-\s*.*\n?)+?)(?=\n[A-Z_]+:|IMPORTANT INSTRUCTIONS:|\[END\]|$)],
    MULTILINE and DOTALL *)
Definition re_strengths : regex :=
  Seq [lit "STRENGTHS:"; Star true ws; newline;
       Group 1 bullet_block;
       Look (OneOf [Seq [newline; Plus true (Chr header_char);
                         Chr (is_char ":"%char)];
                    lit "IMPORTANT INSTRUCTIONS:";
                    lit "[END]";
                    EolM])].

(** [re.findall] for a pattern with two groups. *)
Definition re_findall2 (r : regex) (s : text) : list (text * text) :=
  map (fun m => (group 1 m, group 2 m)) (re_finditer r s).

Definition parse_overall_score (content : text) : Z + exn :=
  match re_search re_overall_score content with
  | Some overall_score_match => int_or_raise (group 1 overall_score_match)
  | None => inl 0%Z
  end.

Fixpoint criteria_loop (criteria_lines : list (text * text))
  (criteria_scores : dict Z) : dict Z + exn :=
  match criteria_lines with
  | [] => inl criteria_scores
  | (label, score) :: more =>
      let cleaned_label := strip label in
      if negb (text_eqb (upper cleaned_label) (str "OVERALL_SCORE")) then
        match int_or_raise score with
        | inl v => criteria_loop more (dict_set cleaned_label v criteria_scores)
        | inr e => inr e
        end
      else criteria_loop more criteria_scores
  end.

Definition parse_criteria_scores (content : text) : dict Z + exn :=
  criteria_loop (re_findall2 re_criteria_line content) [].

Definition colon : ascii := ":"%char.

Fixpoint hard_requirements_loop (lines : list text)
  (hard_requirements : dict text) : dict text :=
  match lines with
  | [] => hard_requirements
  | line :: more =>
      let parts := split_on colon line in
      if 2 <=? length parts then
        let key := strip (hd [] parts) in
        let value := strip (join [colon] (tl parts)) in
        hard_requirements_loop more (dict_set key value hard_requirements)
      else hard_requirements_loop more hard_requirements
  end.

Definition parse_hard_requirements (content : text) : dict text :=
  match re_search re_hard_requirements content with
  | Some hard_req_matches =>
      hard_requirements_loop
        (split_on nl (strip (group 1 hard_req_matches))) []
  | None => []
  end.

Definition parse_strengths (content : text) : text :=
  match re_search re_strengths content with
  | Some strengths_match => strip (group 1 strengths_match)
  | None => str "Not explicitly found or format incorrect."
  end.

(** The statements between receiving [content] and [return]. *)
Definition parse_scoring (content : text) : scoring_result + exn :=
  match parse_overall_score content with
  | inr e => inr e
  | inl overall =>
      match parse_criteria_scores content with
      | inr e => inr e
      | inl criteria =>
          inl (ScoringResult content overall criteria
                 (parse_hard_requirements content)
                 (parse_strengths content))
      end
  end.

Definition score_resume_against_jd (azure_openai_client : client)
  (deployment_name resume_text jd_text : text) : M scoring_result :=
  try_except
    (content <- create azure_openai_client
                  (scoring_request deployment_name resume_text jd_text) ;;
     lift (parse_scoring content))
    (fun e =>
       raise (HTTPException HTTP_500_INTERNAL_SERVER_ERROR
                (str "Error during AI scoring: " ++ exn_str e))).

(** A service that answers every request with the same text. *)
Definition replying (content : text) : client := fun _ => Completion content.

(** ** [answer_follow_up_question] and [generate_interview_questions] *)

Definition answer_follow_up_question (azure_openai_client : client)
  (deployment_name : text) (messages : list message) : M text :=
  try_except
    (content <- create azure_openai_client
                  (Request deployment_name messages 1000) ;;
     ret (strip content))
    (fun e =>
       raise (HTTPException HTTP_500_INTERNAL_SERVER_ERROR
                (str "Sorry, I couldn't answer that question due to an AI processing error: "
                 ++ exn_str e))).

Definition questions_prompt (resume_text jd_text : text) : text :=
  str "You are an AI assistant acting as an expert interviewer. Based on the following resume and job description, generate 15 relevant and insightful interview questions for the candidate. Focus on clarifying their experience, assessing technical skills, understanding problem-solving abilities, and evaluating cultural fit for the role.
Present the questions as a numbered list from 1 to 15. Ensure questions are open-ended and probe for specific examples (STAR method encouragement where applicable).

--- JOB DESCRIPTION ---
" ++
  jd_text ++
  str "

--- RESUME ---
" ++
  resume_text ++
  str "

--- INTERVIEW QUESTIONS ---".

Definition generate_interview_questions (azure_openai_client : client)
  (deployment_name resume_text jd_text : text) : M text :=
  try_except
    (content <- create azure_openai_client
                  (Request deployment_name
                     [Message (str "system")
                        (str "You are an expert interviewer, skilled at generating insightful and probing questions based on resume and job description analysis.");
                      Message (str "user")
                        (questions_prompt resume_text jd_text)]
                     700) ;;
     ret (strip content))
    (fun e =>
       raise (HTTPException HTTP_500_INTERNAL_SERVER_ERROR
                (str "Sorry, I couldn't generate interview questions due to an AI processing error: "
                 ++ exn_str e))).

(** ** [analyze_interview_questions] and its [parse_section] *)

(** ["\n".join([f"{i + 1}. {q}" for i, q in enumerate(qs)])] *)
Fixpoint numbered_from (i : nat) (qs : list text) : list text :=
  match qs with
  | [] => []
  | q :: qs' => (str_of_nat (i + 1) ++ str ". " ++ q) :: numbered_from (S i) qs'
  end.

Definition format_numbered (qs : list text) : text :=
  join [nl] (numbered_from 0 qs).

(** [{section_name}:\s*\n((?:-\s*.*\n?)+?)(?=\n[A-Z_]+:|\n\Z|$)], MULTILINE
    and DOTALL.  The section name is spliced into the pattern; the three
    names the function is called with have no special character and stand
    for themselves. *)
Definition re_section (section_name : text) : regex :=
  Seq [Lit section_name; Chr (is_char ":"%char); Star true ws; newline;
       Group 1 bullet_block;
       Look (OneOf [Seq [newline; Plus true (Chr header_char);
                         Chr (is_char ":"%char)];
                    Seq [newline; Eos];
                    EolM])].

Definition bullet_marker : text := str "- ".

Fixpoint section_lines (lines : list text) : list text :=
  match lines with
  | [] => []
  | line :: more =>
      if startswith bullet_marker (strip line)
      then strip (skipn 2 line) :: section_lines more
      else section_lines more
  end.

Definition parse_section (section_name text_content : text) : list text :=
  match re_search (re_section section_name) text_content with
  | Some m => section_lines (split_on nl (strip (group 1 m)))
  | None => []
  end.

Record coverage_result : Type := CoverageResult {
  coverage_raw : text;
  covered_generated_questions : list text;
  uncovered_generated_questions : list text;
  interviewer_own_questions : list text;
  original_ai_generated_count : nat
}.

Definition coverage_prompt (ai_questions_formatted_for_prompt
  conversation_transcript : text) : text :=
  str "You are an expert interviewer and interview analysis AI. Your task is to analyze a conversation transcript against a list of pre-generated interview questions.

**Instructions:**
1.  **Identify Covered Generated Questions:** From the 'PRE-GENERATED QUESTIONS' list, identify and list     ALL questions that were clearly asked or semantically covered by the interviewer in the 'INTERVIEW TRANSCRIPT'.     The exact phrasing does not need to match, but the essence of the question from the 'PRE-GENERATED QUESTIONS' list must be clearly addressed.
2.  **Identify Uncovered Generated Questions:** From the 'PRE-GENERATED QUESTIONS' list, identify and list     ALL questions that were *not* covered by the interviewer in the transcript.
3.  **Identify Interviewer's Own Questions:** List any distinct questions asked by the interviewer in the     'INTERVIEW TRANSCRIPT' that are *not* semantically similar to any of the 'PRE-GENERATED QUESTIONS'.     Focus only on explicit questions ending in '?' or clear interrogative phrases from the interviewer's side.

**PRE-GENERATED QUESTIONS (Exactly as provided, use these for comparison):**
" ++
  ai_questions_formatted_for_prompt ++
  str "

**INTERVIEW TRANSCRIPT:**
" ++
  conversation_transcript ++
  str "

**OUTPUT FORMAT (Strict Adherence):**

COVERED_GENERATED_QUESTIONS:
- [Full text of AI-generated question 1 that was covered]
- [Full text of AI-generated question 2 that was covered]
...

UNCOVERED_GENERATED_QUESTIONS:
- [Full text of AI-generated question 1 that was NOT covered]
- [Full text of AI-generated question 2 that was NOT covered]
...

INTERVIEWER_OWN_QUESTIONS:
- [Full text of interviewer's unique question 1]
- [Full text of interviewer's unique question 2]
...".

Definition analyze_interview_questions (azure_openai_client : client)
  (deployment_name ai_generated_questions_text conversation_transcript : text)
  : M coverage_result :=
  let ai_generated_questions_list :=
    _parse_generated_questions ai_generated_questions_text in
  let ai_questions_formatted_for_prompt :=
    format_numbered ai_generated_questions_list in
  try_except
    (reply_text <- create azure_openai_client
                     (Request deployment_name
                        [Message (str "system")
                           (str "You are a precise interview analysis AI. You categorize questions based on a given list and transcript content, strictly adhering to output formats. Do not hallucinate or create new questions for coverage analysis.");
                         Message (str "user")
                           (coverage_prompt ai_questions_formatted_for_prompt
                              conversation_transcript)]
                        1500) ;;
     let content := strip reply_text in
     ret (CoverageResult content
            (parse_section (str "COVERED_GENERATED_QUESTIONS") content)
            (parse_section (str "UNCOVERED_GENERATED_QUESTIONS") content)
            (parse_section (str "INTERVIEWER_OWN_QUESTIONS") content)
            (length ai_generated_questions_list)))
    (fun e =>
       raise (HTTPException HTTP_500_INTERNAL_SERVER_ERROR
                (str "Error during interview question analysis: "
                 ++ exn_str e))).

(** ** [evaluate_candidate_responses_holistically] *)

Record individual_evaluation : Type := IndividualEvaluation {
  question : text;
  response_summary : text;
  score : Z;
  rationale : text
}.

Record evaluation_result : Type := EvaluationResult {
  individual_evaluations : list individual_evaluation;
  overall_interview_score : Z;
  overall_interview_summary : text
}.

Definition evaluation_prompt (questions_list_formatted conversation_transcript
  jd_text resume_text : text) : text :=
  str "You are an expert interview evaluator. Your task is to meticulously evaluate the candidate's response to EACH question identified as asked during the interview. Use the provided Job Description and Candidate Resume as context for evaluation.

**For each question, provide:**
1.  The full text of the question.
2.  A concise summary of the candidate's relevant response from the transcript.
3.  A score for the response (out of 10), considering the following criteria:
    -   **Relevance:** How directly did the candidate answer the question?
    -   **Depth/Specificity:** How detailed and specific was the answer? Did it provide concrete examples?
    -   **Technical Accuracy:** If technical, was the information accurate and well-explained?
    -   **Clarity/Articulation:** How clear and well-articulated was the response?
    -   **Alignment with JD/Resume:** How well did the response demonstrate skills/experience relevant to the JD and mentioned in the resume?
4.  A **brief rationale** (1-2 sentences) for the score, highlighting strengths and weaknesses of the response.

**After evaluating all individual questions, provide an overall assessment:**
5.  An **Overall Interview Performance Score** (out of 100), based on all responses.
6.  A **Concise Overall Summary** (2-4 sentences) of the candidate's interview performance, highlighting key strengths and areas (if any) where the interview performance could have been stronger, considering the JD and Resume.

**IMPORTANT:** If a question was listed as 'asked' but no clear answer is present in the transcript for that specific question, indicate 'No clear response found' for the summary and score 0/10 with rationale.

--- QUESTIONS ASKED IN INTERVIEW ---
" ++
  questions_list_formatted ++
  str "

--- INTERVIEW TRANSCRIPT ---
" ++
  conversation_transcript ++
  str "

--- JOB DESCRIPTION ---
" ++
  jd_text ++
  str "

--- CANDIDATE RESUME ---
" ++
  resume_text ++
  str "

**OUTPUT FORMAT (Strict Adherence):**
--- EVALUATION START ---
Question: [Full text of question 1]
Response Summary: [Concise summary of candidate's relevant answer]
Score: X/10
Rationale: [Brief explanation for score based on criteria]
---
Question: [Full text of question 2]
Response Summary: [Concise summary of candidate's relevant answer]
Score: Y/10
Rationale: [Brief explanation for score based on criteria]
---
...
--- OVERALL INTERVIEW PERFORMANCE ---
Overall Score: Z/100
Overall Summary: [Concise 2-4 sentence summary of performance]
--- EVALUATION END ---".

(** [Overall Score:\s*(\d+)/100] *)
Definition re_eval_overall_score : regex :=
  Seq [lit "Overall Score:"; Star true ws; Group 1 (Plus true digit);
       lit "/100"].

(** [Overall Summary:\s*(.*?)(?=\n--- EVALUATION END ---|$)], DOTALL *)
Definition re_eval_overall_summary : regex :=
  Seq [lit "Overall Summary:"; Star true ws; Group 1 (Star false dot_all);
       Look (Alt (Seq [newline; lit "--- EVALUATION END ---"]) Eol)].

(** [Question: (.*?)\nResponse Summary: (.*?)\nScore: (\d+)/10\nRationale: (.*?)(?=\n---\n|--- OVERALL INTERVIEW PERFORMANCE ---|$)],
    DOTALL *)
Definition re_eval_block : regex :=
  Seq [lit "Question: "; Group 1 (Star false dot_all);
       newline; lit "Response Summary: "; Group 2 (Star false dot_all);
       newline; lit "Score: "; Group 3 (Plus true digit); lit "/10";
       newline; lit "Rationale: "; Group 4 (Star false dot_all);
       Look (OneOf [Seq [newline; lit "---"; newline];
                    lit "--- OVERALL INTERVIEW PERFORMANCE ---";
                    Eol])].

Fixpoint blocks_loop (individual_blocks : list mstate)
  : list individual_evaluation + exn :=
  match individual_blocks with
  | [] => inl []
  | block :: more =>
      match int_or_raise (group 3 block) with
      | inr e => inr e
      | inl block_score =>
          match blocks_loop more with
          | inr e => inr e
          | inl evaluations =>
              inl (IndividualEvaluation (strip (group 1 block))
                     (strip (group 2 block)) block_score
                     (strip (group 4 block)) :: evaluations)
          end
      end
  end.

Definition parse_evaluation (content : text) : evaluation_result + exn :=
  let overall_interview_score :=
    match re_search re_eval_overall_score content with
    | Some overall_score_match => int_or_raise (group 1 overall_score_match)
    | None => inl 0%Z
    end in
  let overall_interview_summary :=
    match re_search re_eval_overall_summary content with
    | Some overall_summary_match => strip (group 1 overall_summary_match)
    | None => str "N/A"
    end in
  match overall_interview_score with
  | inr e => inr e
  | inl overall =>
      match blocks_loop (re_finditer re_eval_block content) with
      | inr e => inr e
      | inl evaluations =>
          inl (EvaluationResult evaluations overall overall_interview_summary)
      end
  end.

Definition evaluation_request (deployment_name : text)
  (all_questions_asked : list text)
  (conversation_transcript jd_text resume_text : text) : request :=
  Request deployment_name
    [Message (str "system")
       (str "You are an expert interview evaluator, highly skilled at analyzing interview transcripts, summarizing responses, and providing precise scores and rationales based on job descriptions and resumes.");
     Message (str "user")
       (evaluation_prompt (format_numbered all_questions_asked)
          conversation_transcript jd_text resume_text)]
    3500.

Definition evaluate_candidate_responses_holistically
  (azure_openai_client : client) (deployment_name : text)
  (all_questions_asked : list text)
  (conversation_transcript jd_text resume_text : text) : M evaluation_result :=
  match all_questions_asked with
  | [] =>
      ret (EvaluationResult [] 0%Z
             (str "No questions were asked or evaluated."))
  | _ =>
      try_except
        (reply_text <- create azure_openai_client
                         (evaluation_request deployment_name
                            all_questions_asked conversation_transcript
                            jd_text resume_text) ;;
         lift (parse_evaluation (strip reply_text)))
        (fun e =>
           raise (HTTPException HTTP_500_INTERNAL_SERVER_ERROR
                    (str "Error during holistic response evaluation: "
                     ++ exn_str e)))
  end.

(** ** The session state and its resets ([streamlit_app]) *)

Module Session.
Section Store.

(** A stage result as the API returned it. *)
Variable json : Type.

Record session_state : Type := SessionState {
  job_description_text : text;
  candidate_resume_text : text;
  conversation_history : list message;
  jd_analysis_results : option json;
  ai_detection_results : option json;
  interview_analysis_results : option json;
  candidate_evaluation_results : option json;
  last_jd_hash : option text;
  last_shared_resume_hash : option text;
  last_conversation_transcript_hash : option text;
  is_ai_detection_in_progress : bool;
  is_jd_analysis_in_progress : bool;
  is_interview_analysis_in_progress : bool;
  is_evaluation_in_progress : bool
}.

(** The state set up on the first run of the script. *)
Definition initial_state : session_state :=
  {|
     job_description_text := [];
     candidate_resume_text := [];
     conversation_history := [];
     jd_analysis_results := None;
     ai_detection_results := None;
     interview_analysis_results := None;
     candidate_evaluation_results := None;
     last_jd_hash := None;
     last_shared_resume_hash := None;
     last_conversation_transcript_hash := None;
     is_ai_detection_in_progress := false;
     is_jd_analysis_in_progress := false;
     is_interview_analysis_in_progress := false;
     is_evaluation_in_progress := false
  |}.

Definition clear_all_analysis_state (st : session_state) : session_state :=
  {|
     job_description_text := [];
     candidate_resume_text := [];
     conversation_history := [];
     jd_analysis_results := None;
     ai_detection_results := None;
     interview_analysis_results := None;
     candidate_evaluation_results := None;
     last_jd_hash := st.(last_jd_hash);
     last_shared_resume_hash := st.(last_shared_resume_hash);
     last_conversation_transcript_hash := st.(last_conversation_transcript_hash);
     is_ai_detection_in_progress := st.(is_ai_detection_in_progress);
     is_jd_analysis_in_progress := st.(is_jd_analysis_in_progress);
     is_interview_analysis_in_progress := st.(is_interview_analysis_in_progress);
     is_evaluation_in_progress := st.(is_evaluation_in_progress)
  |}.

Definition clear_jd_dependent_analysis_state (st : session_state)
  : session_state :=
  {|
     job_description_text := [];
     candidate_resume_text := st.(candidate_resume_text);
     conversation_history := [];
     jd_analysis_results := None;
     ai_detection_results := st.(ai_detection_results);
     interview_analysis_results := None;
     candidate_evaluation_results := None;
     last_jd_hash := st.(last_jd_hash);
     last_shared_resume_hash := st.(last_shared_resume_hash);
     last_conversation_transcript_hash := st.(last_conversation_transcript_hash);
     is_ai_detection_in_progress := st.(is_ai_detection_in_progress);
     is_jd_analysis_in_progress := st.(is_jd_analysis_in_progress);
     is_interview_analysis_in_progress := st.(is_interview_analysis_in_progress);
     is_evaluation_in_progress := st.(is_evaluation_in_progress)
  |}.

Definition clear_interview_related_state (st : session_state)
  : session_state :=
  {|
     job_description_text := st.(job_description_text);
     candidate_resume_text := st.(candidate_resume_text);
     conversation_history := [];
     jd_analysis_results := st.(jd_analysis_results);
     ai_detection_results := st.(ai_detection_results);
     interview_analysis_results := None;
     candidate_evaluation_results := None;
     last_jd_hash := st.(last_jd_hash);
     last_shared_resume_hash := st.(last_shared_resume_hash);
     last_conversation_transcript_hash := st.(last_conversation_transcript_hash);
     is_ai_detection_in_progress := st.(is_ai_detection_in_progress);
     is_jd_analysis_in_progress := st.(is_jd_analysis_in_progress);
     is_interview_analysis_in_progress := st.(is_interview_analysis_in_progress);
     is_evaluation_in_progress := st.(is_evaluation_in_progress)
  |}.

Definition set_resume_hashes (h : option text) (st : session_state)
  : session_state :=
  {|
     job_description_text := st.(job_description_text);
     candidate_resume_text := st.(candidate_resume_text);
     conversation_history := st.(conversation_history);
     jd_analysis_results := st.(jd_analysis_results);
     ai_detection_results := st.(ai_detection_results);
     interview_analysis_results := st.(interview_analysis_results);
     candidate_evaluation_results := st.(candidate_evaluation_results);
     last_jd_hash := None;
     last_shared_resume_hash := h;
     last_conversation_transcript_hash := None;
     is_ai_detection_in_progress := st.(is_ai_detection_in_progress);
     is_jd_analysis_in_progress := st.(is_jd_analysis_in_progress);
     is_interview_analysis_in_progress := st.(is_interview_analysis_in_progress);
     is_evaluation_in_progress := st.(is_evaluation_in_progress)
  |}.

Definition set_last_jd_hash (h : option text) (st : session_state)
  : session_state :=
  {|
     job_description_text := st.(job_description_text);
     candidate_resume_text := st.(candidate_resume_text);
     conversation_history := st.(conversation_history);
     jd_analysis_results := st.(jd_analysis_results);
     ai_detection_results := st.(ai_detection_results);
     interview_analysis_results := st.(interview_analysis_results);
     candidate_evaluation_results := st.(candidate_evaluation_results);
     last_jd_hash := h;
     last_shared_resume_hash := st.(last_shared_resume_hash);
     last_conversation_transcript_hash := st.(last_conversation_transcript_hash);
     is_ai_detection_in_progress := st.(is_ai_detection_in_progress);
     is_jd_analysis_in_progress := st.(is_jd_analysis_in_progress);
     is_interview_analysis_in_progress := st.(is_interview_analysis_in_progress);
     is_evaluation_in_progress := st.(is_evaluation_in_progress)
  |}.

Definition set_last_conversation_transcript_hash (h : option text)
  (st : session_state) : session_state :=
  {|
     job_description_text := st.(job_description_text);
     candidate_resume_text := st.(candidate_resume_text);
     conversation_history := st.(conversation_history);
     jd_analysis_results := st.(jd_analysis_results);
     ai_detection_results := st.(ai_detection_results);
     interview_analysis_results := st.(interview_analysis_results);
     candidate_evaluation_results := st.(candidate_evaluation_results);
     last_jd_hash := st.(last_jd_hash);
     last_shared_resume_hash := st.(last_shared_resume_hash);
     last_conversation_transcript_hash := h;
     is_ai_detection_in_progress := st.(is_ai_detection_in_progress);
     is_jd_analysis_in_progress := st.(is_jd_analysis_in_progress);
     is_interview_analysis_in_progress := st.(is_interview_analysis_in_progress);
     is_evaluation_in_progress := st.(is_evaluation_in_progress)
  |}.

(** [a == b] on the values [get_file_hash] returns: [None] without a file,
    the digest otherwise. *)
Definition hash_eqb (a b : option text) : bool :=
  match a, b with
  | None, None => true
  | Some x, Some y => text_eqb x y
  | _, _ => false
  end.

Definition is_not_none {A : Type} (o : option A) : bool :=
  match o with Some _ => true | None => false end.

(** The file-change handling at the top of [app.py], run on every rerun of
    the script with the hashes of the three uploaded files.  It returns the
    new state and the notices shown with [st.info]. *)
Definition handle_file_changes (current_shared_resume_hash current_jd_hash
  current_conversation_transcript_hash : option text) (st : session_state)
  : session_state * list text :=
  if negb (hash_eqb current_shared_resume_hash st.(last_shared_resume_hash))
  then
    (set_resume_hashes current_shared_resume_hash
       (clear_all_analysis_state st),
     if is_not_none st.(last_shared_resume_hash)
     then [str "New resume file detected. Clearing all previous analysis results for a new candidate scenario."]
     else [])
  else if negb (hash_eqb current_jd_hash st.(last_jd_hash))
  then
    (set_last_jd_hash current_jd_hash (clear_jd_dependent_analysis_state st),
     if is_not_none st.(last_jd_hash)
     then [str "New Job Description detected. Clearing previous JD-dependent analysis results."]
     else [])
  else if negb (hash_eqb current_conversation_transcript_hash
                  st.(last_conversation_transcript_hash))
  then
    (set_last_conversation_transcript_hash
       current_conversation_transcript_hash
       (clear_interview_related_state st),
     if is_not_none st.(last_conversation_transcript_hash)
     then [str "New Interview Transcript detected. Clearing previous interview analysis and evaluation results."]
     else [])
  else (st, []).

End Store.
End Session.

(** ** The same resets in the single-file front end ([frontend_final.py]) *)

Module SessionFinal.
Section Store.

Variable json : Type.

Record session_state : Type := SessionState {
  job_description_text : text;
  candidate_resume_text : text;
  conversation_history : list message;
  jd_analysis_results : option json;
  ai_detection_results : option json;
  interview_analysis_results : option json;
  candidate_evaluation_results : option json;
  last_jd_hash : option text;
  last_shared_resume_hash : option text;
  last_conversation_transcript_hash : option text
}.

Definition on_resume_change (h : option text) (st : session_state)
  : session_state :=
  {|
     job_description_text := st.(job_description_text);
     candidate_resume_text := [];
     conversation_history := [];
     jd_analysis_results := None;
     ai_detection_results := None;
     interview_analysis_results := None;
     candidate_evaluation_results := None;
     last_jd_hash := st.(last_jd_hash);
     last_shared_resume_hash := h;
     last_conversation_transcript_hash := st.(last_conversation_transcript_hash)
  |}.

Definition on_jd_change (h : option text) (st : session_state)
  : session_state :=
  {|
     job_description_text := [];
     candidate_resume_text := st.(candidate_resume_text);
     conversation_history := [];
     jd_analysis_results := None;
     ai_detection_results := st.(ai_detection_results);
     interview_analysis_results := None;
     candidate_evaluation_results := None;
     last_jd_hash := h;
     last_shared_resume_hash := st.(last_shared_resume_hash);
     last_conversation_transcript_hash := st.(last_conversation_transcript_hash)
  |}.

Definition on_transcript_change (h : option text) (st : session_state)
  : session_state :=
  {|
     job_description_text := st.(job_description_text);
     candidate_resume_text := st.(candidate_resume_text);
     conversation_history := [];
     jd_analysis_results := st.(jd_analysis_results);
     ai_detection_results := st.(ai_detection_results);
     interview_analysis_results := None;
     candidate_evaluation_results := None;
     last_jd_hash := st.(last_jd_hash);
     last_shared_resume_hash := st.(last_shared_resume_hash);
     last_conversation_transcript_hash := h
  |}.

(** The three independent [if] statements of the file-change handling; the
    notices of [st.info] are shown only when a result is cleared. *)
Definition handle_file_changes (current_shared_resume_hash current_jd_hash
  current_conversation_transcript_hash : option text) (st : session_state)
  : session_state * list text :=
  let '(st1, info1) :=
    if negb (Session.hash_eqb current_shared_resume_hash
               st.(last_shared_resume_hash))
    then
      (on_resume_change current_shared_resume_hash st,
       if Session.is_not_none st.(ai_detection_results)
          || Session.is_not_none st.(jd_analysis_results)
          || Session.is_not_none st.(interview_analysis_results)
          || Session.is_not_none st.(candidate_evaluation_results)
       then [str "New resume file detected. Clearing previous analysis results."]
       else [])
    else (st, []) in
  let '(st2, info2) :=
    if negb (Session.hash_eqb current_jd_hash st1.(last_jd_hash))
    then
      (on_jd_change current_jd_hash st1,
       if Session.is_not_none st1.(jd_analysis_results)
          || Session.is_not_none st1.(interview_analysis_results)
          || Session.is_not_none st1.(candidate_evaluation_results)
       then [str "New Job Description detected. Clearing previous analysis results."]
       else [])
    else (st1, []) in
  let '(st3, info3) :=
    if negb (Session.hash_eqb current_conversation_transcript_hash
               st2.(last_conversation_transcript_hash))
    then
      (on_transcript_change current_conversation_transcript_hash st2,
       if Session.is_not_none st2.(interview_analysis_results)
          || Session.is_not_none st2.(candidate_evaluation_results)
       then [str "New Interview Transcript detected. Clearing previous interview analysis and evaluation results."]
       else [])
    else (st2, []) in
  (st3, info1 ++ info2 ++ info3).

End Store.
End SessionFinal.

(** ** Vocabulary of the statements *)

(** What a computation returns when started with an empty log. *)
Definition returned {A : Type} (c : M A) : option A :=
  match fst (c []) with
  | inl a => Some a
  | inr _ => None
  end.

(** The result of scoring when the service replies [content]. *)
Definition score_reply (deployment_name resume_text jd_text content : text)
  : option scoring_result :=
  returned (score_resume_against_jd (replying content) deployment_name
              resume_text jd_text).

Definition starts_with_space (s : text) : bool :=
  match s with
  | c :: _ => isspace c
  | [] => false
  end.

Definition ends_with_space (s : text) : bool := starts_with_space (rev s).

(** A non-empty string without leading or trailing whitespace. *)
Definition trimmed (s : text) : Prop :=
  s <> [] /\ starts_with_space s = false /\ ends_with_space s = false.

(** Some occurrence of [needle] in [pre ++ tail] starts inside [pre]. *)
Fixpoint header_before (needle pre tail : text) : bool :=
  match pre with
  | [] => false
  | _ :: pre' =>
      startswith needle (pre ++ tail) || header_before needle pre' tail
  end.

Definition is_some {A : Type} (o : option A) : bool :=
  match o with
  | Some _ => true
  | None => false
  end.

(** The pattern [r] matches at some position inside [pre] when the text is
    [pre ++ tail]; [p] is the character before [pre]. *)
Fixpoint matches_inside (r : regex) (p : option ascii) (pre tail : text)
  : bool :=
  match pre with
  | [] => false
  | c :: pre' =>
      is_some (attempt r false p (pre ++ tail))
      || matches_inside r (Some c) pre' tail
  end.

(** The character before the position reached after [s], when [p] was before
    [s]. *)
Fixpoint char_before (p : option ascii) (s : text) : option ascii :=
  match s with
  | [] => p
  | c :: s' => char_before (Some c) s'
  end.

(** A question that fits on one line: non-empty, without newline, without
    whitespace at either end. *)
Definition one_line_question (q : text) : bool :=
  nonempty q && forallb (fun c => negb (is_char nl c)) q
  && negb (starts_with_space q) && negb (ends_with_space q).

(** [k] fails at every position inside [xs], when the text goes on with
    [Y]. *)
Fixpoint fails_along (k : mstate -> option mstate) (pv : option ascii)
  (xs Y : text) (cs : list (nat * text)) : Prop :=
  match xs with
  | [] => True
  | x :: xs' =>
      k (MState pv (xs ++ Y) cs) = None /\ fails_along k (Some x) xs' Y cs
  end.

(** What may follow a numbered question: the end of the text, or a newline
    and the number of the next question. *)
Definition question_end (tail : text) : Prop :=
  tail = [] \/
  exists d ds more,
    forallb isdigit (d :: ds) = true
    /\ tail = nl :: (d :: ds) ++ "."%char :: more.

(** The lines [n. q] of a numbered list, for the questions [qs]. *)
Inductive numbered_lines : list text -> list text -> Prop :=
| NL_nil : numbered_lines [] []
| NL_cons : forall d ds q lines qs,
    forallb isdigit (d :: ds) = true ->
    one_line_question q = true ->
    numbered_lines lines qs ->
    numbered_lines (((d :: ds) ++ str ". " ++ q) :: lines) (q :: qs).

(** The shape of a key of [criteria_scores]: characters of [[A-Za-z\s\/]]
    only, no leading whitespace, a letter at the end. *)
Definition criteria_key (k : text) : bool :=
  forallb label_char k && negb (starts_with_space k) &&
  match rev k with
  | c :: _ => is_letter c
  | [] => false
  end.

(** The five criteria sub-headers of the scoring prompt. *)
Definition known_criteria_labels : list text :=
  [str "Technical Skills Match"; str "Experience Relevance";
   str "Education Background"; str "Responsibilities Alignment";
   str "Soft Skills/Communication"].

(** The paths of the matcher, without their order of preference:
    [matches r st st'] when [r] can match from [st] up to [st']. *)
Inductive matches : regex -> mstate -> mstate -> Prop :=
| M_Eps : forall st, matches Eps st st
| M_Chr : forall p st c t,
    rest st = c :: t -> p c = true ->
    matches (Chr p) st (MState (Some c) t (caps st))
| M_Cat : forall a b st1 st2 st3,
    matches a st1 st2 -> matches b st2 st3 -> matches (Cat a b) st1 st3
| M_AltL : forall a b st st', matches a st st' -> matches (Alt a b) st st'
| M_AltR : forall a b st st', matches b st st' -> matches (Alt a b) st st'
| M_StarStop : forall g a st, matches (Star g a) st st
| M_StarStep : forall g a st1 st2 st3,
    matches a st1 st2 -> matches (Star g a) st2 st3 ->
    matches (Star g a) st1 st3
| M_Group : forall i a st st',
    matches a st st' -> matches (Group i a) st (set_cap i st st')
| M_Look : forall a st st',
    matches a st st' ->
    matches (Look a) st (MState (prev st) (rest st) (caps st'))
| M_Bol : forall st, at_line_start st = true -> matches Bol st st
| M_Bos : forall st, prev st = None -> matches Bos st st
| M_EolM : forall st, at_line_end st = true -> matches EolM st st
| M_Eol : forall st, at_end_or_last_newline st = true -> matches Eol st st
| M_Eos : forall st, at_end st = true -> matches Eos st st.

(** The matcher run by [body] only follows paths of the pattern [a]. *)
Definition sound
  (body : mstate -> (mstate -> option mstate) -> option mstate) (a : regex)
  : Prop :=
  forall st k m, body st k = Some m ->
    exists st', matches a st st' /\ k st' = Some m.

(** A match found at some position of a text, starting without captures. *)
Definition match_of (r : regex) (m : mstate) : Prop :=
  exists p s, matches r (MState p s []) m.

(** A match found at some position of the text [s]. *)
Definition match_in (r : regex) (s : text) (m : mstate) : Prop :=
  exists p pre s', s = pre ++ s' /\ matches r (MState p s' []) m.

(** [t] is a contiguous piece of [s]. *)
Definition piece (s t : text) : Prop := exists a b, s = a ++ t ++ b.

(** The number of decimal digits a text starts with, and the length of its
    longest run of decimal digits. *)
Fixpoint leading_digits (s : text) : nat :=
  match s with
  | c :: t => if isdigit c then S (leading_digits t) else 0
  | [] => 0
  end.

Fixpoint longest_digit_run (s : text) : nat :=
  match s with
  | [] => 0
  | c :: t =>
      Nat.max (if isdigit c then S (leading_digits t) else 0)
              (longest_digit_run t)
  end.

(** No run of decimal digits of the text is longer than [int] accepts. *)
Definition digit_runs_within_limit (s : text) : bool :=
  longest_digit_run s <=? max_str_digits.

(** What the criteria loop keeps: keys shaped like labels, values read from
    digits. *)
Definition criteria_ok (d : dict Z) : Prop :=
  Forall (fun k => criteria_key k = true) (dict_keys d)
  /\ Forall (fun v => (0 <= v)%Z) (dict_values d).

(** *** List-section extraction as the specification words it *)

(** A line that opens with an all-caps header, [[A-Z_]+:]. *)
Fixpoint header_run (seen : bool) (line : text) : bool :=
  match line with
  | [] => false
  | c :: line' =>
      if header_char c then header_run true line'
      else seen && is_char colon c
  end.

Definition is_header_line (line : text) : bool := header_run false line.

(** The lines that follow the line of the section header. *)
Fixpoint lines_after_header (section_header : text) (lines : list text)
  : option (list text) :=
  match lines with
  | [] => None
  | line :: more =>
      if startswith (section_header ++ [colon]) line then Some more
      else lines_after_header section_header more
  end.

(** The span: up to the next all-caps header or the end of the text. *)
Fixpoint until_next_header (lines : list text) : list text :=
  match lines with
  | [] => []
  | line :: more =>
      if is_header_line line then [] else line :: until_next_header more
  end.

Definition spec_list_section (section_header text_content : text)
  : list text :=
  match lines_after_header section_header (split_on nl text_content) with
  | Some lines =>
      map (fun line => strip (skipn 2 line))
          (filter (startswith bullet_marker) (until_next_header lines))
  | None => []
  end.

(** *** Sample texts *)

Definition sample_numbered_questions : text := str "1. A
2. B
3. C".

(** A reply in the mandated format up to the strengths section. *)
Definition sample_scores_part : text := str "OVERALL_SCORE: 87/100

CRITERIA_SCORES:
Technical Skills Match: 90/100
Experience Relevance: 80/100
Education Background: 70/100
Responsibilities Alignment: 60/100
Soft Skills/Communication: 50/100

HARD_REQUIREMENTS_MATCH:
Location Match: Yes
Full-time Availability: No
Minimum Experience Met: Cannot Determine
Other Specific Requirements Met (e.g., Certifications, Specific Tools, etc.): N/A

".

Definition single_strength_section : text := str "STRENGTHS:
- Strong Python background".

(** A reply in the mandated format whose strengths section has one bullet. *)
Definition sample_single_strength : text :=
  sample_scores_part ++ single_strength_section.

Definition sample_preamble : text := str "Here is the analysis.
".

Definition sample_two_overall_scores : text := str "OVERALL_SCORE: 5/1000
OVERALL_SCORE: 87/100".

Definition sample_unknown_label : text := str "OVERALL_SCORE: 87/100

CRITERIA_SCORES:
Technical Skills Match: 90/100
Leadership: 40/100".

Definition sample_score_above_range : text := str "OVERALL_SCORE: 150/100

CRITERIA_SCORES:
Technical Skills Match: 250/100".

(** A reply whose overall score is written with 4301 digits, and the like
    for the evaluation and for the detection. *)
Definition sample_long_score : text :=
  str "OVERALL_SCORE: " ++ repeat "9"%char 4301 ++ str "/100".

Definition sample_long_evaluation_score : text :=
  str "Overall Score: " ++ repeat "9"%char 4301 ++ str "/100".

Definition sample_long_detection_score : text :=
  str "Overall Confidence Score: " ++ repeat "9"%char 4301.

Definition sample_unnumbered_questions : text := str "Tell me about your last project.

  What would you improve?  ".

Definition sample_evaluation_reply : text := str "--- EVALUATION START ---
Question: What is X?
Response Summary: He said Y.
Score: 7/10
Rationale: Good.
---
Question: What is Z?
Response Summary: No clear response found
Score: 0/10
Rationale: Missing.
---
--- OVERALL INTERVIEW PERFORMANCE ---
Overall Score: 55/100
Overall Summary: Fine overall.
--- EVALUATION END ---".

Definition sample_coverage_reply : text := str "COVERED_GENERATED_QUESTIONS:
- Q1

UNCOVERED_GENERATED_QUESTIONS:
- Q2

INTERVIEWER_OWN_QUESTIONS:
- Q3".

(** A session with every stage done, a resume with digest ["r1"] and a JD
    with digest ["j1"]. *)
Definition busy_session : Session.session_state nat :=
  {| Session.job_description_text := str "jd";
     Session.candidate_resume_text := str "cv";
     Session.conversation_history := [Message (str "user") (str "hello")];
     Session.jd_analysis_results := Some 1;
     Session.ai_detection_results := Some 2;
     Session.interview_analysis_results := Some 3;
     Session.candidate_evaluation_results := Some 4;
     Session.last_jd_hash := Some (str "j1");
     Session.last_shared_resume_hash := Some (str "r1");
     Session.last_conversation_transcript_hash := None;
     Session.is_ai_detection_in_progress := false;
     Session.is_jd_analysis_in_progress := false;
     Session.is_interview_analysis_in_progress := false;
     Session.is_evaluation_in_progress := false |}.


(** ** Further vocabulary *)

(** The requests built by [generate_interview_questions] and
    [analyze_interview_questions]. *)
Definition questions_request (deployment_name resume_text jd_text : text)
  : request :=
  Request deployment_name
    [Message (str "system")
       (str "You are an expert interviewer, skilled at generating insightful and probing questions based on resume and job description analysis.");
     Message (str "user") (questions_prompt resume_text jd_text)]
    700.

Definition coverage_request (deployment_name ai_generated_questions_text
  conversation_transcript : text) : request :=
  Request deployment_name
    [Message (str "system")
       (str "You are a precise interview analysis AI. You categorize questions based on a given list and transcript content, strictly adhering to output formats. Do not hallucinate or create new questions for coverage analysis.");
     Message (str "user")
       (coverage_prompt
          (format_numbered
             (_parse_generated_questions ai_generated_questions_text))
          conversation_transcript)]
    1500.

(** A service that fails on every request with the same message. *)
Definition failing (e : text) : client := fun _ => ServiceError e.

(** A pattern without capturing group. *)
Fixpoint group_free (r : regex) : bool :=
  match r with
  | Group _ _ => false
  | Cat a b | Alt a b => group_free a && group_free b
  | Star _ a | Look a => group_free a
  | _ => true
  end.

(** Twelve one-line questions, enough for numbers of two digits. *)
Definition sample_twelve_questions : list text :=
  [str "Why this role?"; str "Describe a hard bug."; str "What is a mutex?";
   str "Explain REST."; str "How do you test?"; str "What is CI/CD?";
   str "Tell me about a conflict."; str "1. nested number";
   str "What is Big-O?"; str "How do you review code?";
   str "Why Python?"; str "Any questions for us?"].


(** A service that answers the scoring request of a deployment with a
    well-formed reply and fails on everything else. *)
Definition scoring_only_service (content : text) : client :=
  fun req =>
    if Nat.eqb (max_tokens req) 1500 then Completion content
    else ServiceError (str "unavailable").


Definition nonspace (c : ascii) : bool := negb (isspace c).

(** The bullet lines [- b] of a section. *)
Definition bullet_lines (bs : list text) : list text :=
  map (fun b => bullet_marker ++ b) bs.

(** A section as the prompt asks for it: the header, a colon, a newline and
    one bullet line per item. *)
Definition section_text (section_name : text) (bs : list text) : text :=
  section_name ++ [colon] ++ [nl] ++ join [nl] (bullet_lines bs).

Definition sample_own_questions : list text :=
  [str "Why did you leave?"; str "What salary do you expect?"].

Definition sample_coverage_preamble : text := str "COVERED_GENERATED_QUESTIONS:

UNCOVERED_GENERATED_QUESTIONS:

".


(** [d.get(k)] *)
Fixpoint dict_get {V : Type} (k : text) (d : dict V) : option V :=
  match d with
  | [] => None
  | (k', v) :: d' => if text_eqb k' k then Some v else dict_get k d'
  end.

(** The line [key: value] of a requirement. *)
Definition requirement_line (kv : text * text) : text :=
  fst kv ++ [colon] ++ snd kv.

(** What the loop over requirement lines stores for each of them. *)
Definition store_requirement (d : dict text) (kv : text * text) : dict text :=
  dict_set (strip (fst kv)) (strip (snd kv)) d.

Definition no_colon (s : text) : bool :=
  forallb (fun c => negb (Ascii.eqb c colon)) s.

(** The header that ends the requirements block. *)
Definition strengths_header_ahead : text := nl :: str "STRENGTHS:".

Definition sample_requirements : list (text * text) :=
  [(str "Location Match", str " Yes");
   (str "Full-time Availability", str " No");
   (str "Working hours", str " 09:00 to 17:30");
   (str "Location Match", str " Not Specified in JD")].

Definition sample_requirements_tail : text := str "
STRENGTHS:
- Strong Python background".

(** A reply in the format of the prompt, with a blank line between the
    sections. *)
Definition sample_spaced_requirements : text := str "OVERALL_SCORE: 87/100

CRITERIA_SCORES:
Technical Skills Match: 90/100

HARD_REQUIREMENTS_MATCH:
Location Match: Yes
Full-time Availability: No
Working hours: 09:00 to 17:30
Location Match: Not Specified in JD

STRENGTHS:
- Strong Python background".


(** The lines [key:value] of a requirements block, joined by newlines. *)
Definition requirements_block (kvs : list (text * text)) : text :=
  join [nl] (map requirement_line kvs).

(** A text without newline. *)
Definition one_line (s : text) : bool :=
  forallb (fun c => negb (is_char nl c)) s.

(** What may follow the requirements block: the end of the reply, or the
    line of the [STRENGTHS:] header. *)
Definition ends_block (tail : text) : bool :=
  match tail with
  | [] => true
  | _ => startswith strengths_header_ahead tail
  end.


Definition sample_scores_head : text := str "OVERALL_SCORE: 87/100

CRITERIA_SCORES:
Technical Skills Match: 90/100

".


(** ** [detect_ai_resume] and the endpoints of [main.py] *)

Module AiDetection.

(** A score of the result: the integer read from the reply, or a text. *)
Inductive value : Type :=
| IntVal (n : Z)
| StrVal (s : text).

(** [str(n)] for an integer. *)
Definition str_of_int (n : Z) : text :=
  str (DecimalString.NilZero.string_of_int (Z.to_int n)).

(** [f"{v}"] *)
Definition format_value (v : value) : text :=
  match v with
  | IntVal n => str_of_int n
  | StrVal s => s
  end.

(** [response_data]; the key [explanation] is there only when it was asked
    for. *)
Record response_data : Type := ResponseData {
  classification : text;
  overall_confidence_score : value;
  formatting_consistency_score : value;
  language_use_score : value;
  detail_depth_score : value;
  error_detection_score : value;
  explanation : option text
}.

Record detection_result : Type := DetectionResult {
  status : text;
  data : response_data
}.

(** What is written to the standard output. *)
Inductive printed : Type :=
| Printed (line : text)
| PrintedTraceback (e : exn).

Definition initial_prompt (resume_text : text) : text :=
  str "
    You are an AI Resume Detector.

    Your task is to analyze a given resume and determine whether it was generated by an AI or written by a human.

    Evaluate the resume based on the following criteria:

    1.  **Formatting Consistency**: Check layout structure, alignment, font usage, and section organization.
    2.  **Language Use**: Analyze tone, vocabulary diversity, sentence complexity, and naturalness of expression.
    3.  **Detail Depth**: Evaluate specificity and contextual richness of job descriptions, achievements, and skills.
    4.  **Error Detection**: Identify grammatical, typographical, and syntactical errors.

    Return the following output in a clear, line-by-line format. Do NOT include any explanations in this initial response.

    Classification: [AI-Generated/Human-Written]
    Overall Confidence Score: [0-100]
    Formatting Consistency Score: [0-100]
    Language Use Score: [0-100]
    Detail Depth Score: [0-100]
    Error Detection Score: [0-100]

    Resume Text:
    " ++
  resume_text ++
  str "
    ".

Definition explanation_prompt (classification_val : text)
  (overall_score_val fc_score_val lu_score_val dd_score_val ed_score_val
     : value) (resume_text : text) : text :=
  str "
            Based on the previous analysis of the following resume, which was classified as '" ++
  classification_val ++
  str "' with an overall confidence score of " ++
  format_value overall_score_val ++
  str "% and individual scores as follows:
            - Formatting Consistency: " ++
  format_value fc_score_val ++
  str "%
            - Language Use: " ++
  format_value lu_score_val ++
  str "%
            - Detail Depth: " ++
  format_value dd_score_val ++
  str "%
            - Error Detection: " ++
  format_value ed_score_val ++
  str "%

            Please provide a detailed explanation for each of these scores and the overall classification. Elaborate on the specific aspects of the resume that led to these conclusions, referencing the criteria: Formatting Consistency, Language Use, Detail Depth, and Error Detection.

            Resume Text:
            " ++
  resume_text ++
  str "
            ".

Definition initial_request (deployment_name resume_text : text) : request :=
  Request deployment_name
    [Message (str "system")
       (str "You are your task is to determine whether the given resume is AI-generated and provide scores.");
     Message (str "user") (initial_prompt resume_text)]
    200.

Definition explanation_request (deployment_name : text) (d : response_data)
  (resume_text : text) : request :=
  Request deployment_name
    [Message (str "system")
       (str "Provide a detailed explanation for the resume analysis scores.");
     Message (str "user")
       (explanation_prompt d.(classification) d.(overall_confidence_score)
          d.(formatting_consistency_score) d.(language_use_score)
          d.(detail_depth_score) d.(error_detection_score) resume_text)]
    2000.

(** The pattern of the classification: [Classification: ], then a group
    that takes the rest of the line. *)
Definition re_classification : regex :=
  Seq [lit "Classification: "; Group 1 (Star true dot)].

(** [Overall Confidence Score: (\d+)] and the four patterns like it. *)
Definition re_overall_score : regex :=
  Seq [lit "Overall Confidence Score: "; Group 1 (Plus true digit)].

Definition re_fc_score : regex :=
  Seq [lit "Formatting Consistency Score: "; Group 1 (Plus true digit)].

Definition re_lu_score : regex :=
  Seq [lit "Language Use Score: "; Group 1 (Plus true digit)].

Definition re_dd_score : regex :=
  Seq [lit "Detail Depth Score: "; Group 1 (Plus true digit)].

Definition re_ed_score : regex :=
  Seq [lit "Error Detection Score: "; Group 1 (Plus true digit)].

(** [m.group(1).strip() if m else "N/A"] *)
Definition classification_of (m : option mstate) : text :=
  match m with
  | Some m => strip (group 1 m)
  | None => str "N/A"
  end.

(** [int(m.group(1).strip()) if m else "N/A"] *)
Definition score_of (m : option mstate) : value + exn :=
  match m with
  | Some m =>
      match int_or_raise (strip (group 1 m)) with
      | inl n => inl (IntVal n)
      | inr e => inr e
      end
  | None => inl (StrVal (str "N/A"))
  end.

(** The six searches and the conversions of their results. *)
Definition parse_detection (analysis_content : text) : response_data + exn :=
  let classification := re_search re_classification analysis_content in
  let overall_score := re_search re_overall_score analysis_content in
  let fc_score := re_search re_fc_score analysis_content in
  let lu_score := re_search re_lu_score analysis_content in
  let dd_score := re_search re_dd_score analysis_content in
  let ed_score := re_search re_ed_score analysis_content in
  let classification_val := classification_of classification in
  match score_of overall_score with
  | inr e => inr e
  | inl overall_score_val =>
  match score_of fc_score with
  | inr e => inr e
  | inl fc_score_val =>
  match score_of lu_score with
  | inr e => inr e
  | inl lu_score_val =>
  match score_of dd_score with
  | inr e => inr e
  | inl dd_score_val =>
  match score_of ed_score with
  | inr e => inr e
  | inl ed_score_val =>
      inl (ResponseData classification_val overall_score_val fc_score_val
             lu_score_val dd_score_val ed_score_val None)
  end end end end end.

Definition with_explanation (e : text) (d : response_data) : response_data :=
  ResponseData d.(classification) d.(overall_confidence_score)
    d.(formatting_consistency_score) d.(language_use_score)
    d.(detail_depth_score) d.(error_detection_score) (Some e).

(** The body of the [try] statement.  A reply without content (no choice, no
    message, [None] or the empty text) is [Completion []]. *)
Definition detect_body (azure_openai_client : client)
  (deployment_name resume_text : text) (include_explanation : bool)
  : M detection_result :=
  content <- create azure_openai_client
               (initial_request deployment_name resume_text) ;;
  analysis_content <-
    (if nonempty content then ret content
     else raise (HTTPException 500
                   (str "No concise analysis content received from AI."))) ;;
  response_data <- lift (parse_detection analysis_content) ;;
  response_data <-
    (if include_explanation then
       explanation_content <-
         create azure_openai_client
           (explanation_request deployment_name response_data resume_text) ;;
       ret (with_explanation
              (if nonempty explanation_content then explanation_content
               else str "Could not generate detailed explanation.")
              response_data)
     else ret response_data) ;;
  ret (DetectionResult (str "success") response_data).

(** [detect_ai_resume]: what it returns or raises, the requests sent and the
    lines printed. *)
Definition detect_ai_resume (azure_openai_client : option client)
  (deployment_name resume_text : text) (include_explanation : bool)
  (log : list request)
  : (detection_result + exn) * list request * list printed :=
  match azure_openai_client with
  | None =>
      (inr (HTTPException 500
              (str "Azure OpenAI client not initialized. Check server logs for details.")),
       log, [])
  | Some c =>
      if negb (nonempty resume_text) then
        (inr (HTTPException 400
                (str "No text extracted from resume. The file might be empty or unreadable.")),
         log, [])
      else
        match detect_body c deployment_name resume_text include_explanation
                log with
        | (inl result, log') => (inl result, log', [])
        | (inr e, log') =>
            (inr (HTTPException 500
                    (str "An unexpected error occurred during AI detection processing or AI analysis: "
                     ++ exn_str e)),
             log',
             [Printed (str "An unexpected error occurred during AI detection: "
                       ++ exn_str e)])
        end
  end.

(** [detect_ai_resume_endpoint] of [main.py].  [pdf_text] is what
    [extract_text_from_pdf_bytes_for_detection] gives on the bytes of the
    upload and [decoded] what decoding them as UTF-8 gives: a text, or the
    exception raised. *)
Definition detect_ai_resume_endpoint (azure_openai_client : option client)
  (deployment_name content_type : text) (pdf_text decoded : text + exn)
  (include_explanation : bool) (log : list request)
  : (detection_result + exn) * list request * list printed :=
  match azure_openai_client with
  | None =>
      (inr (HTTPException 500
              (str "Azure OpenAI client not initialized. Check server logs for details.")),
       log, [])
  | Some _ =>
      let handler (e : exn) (log' : list request) (out : list printed) :=
        (inr (HTTPException 500
                (str "An unexpected error occurred during AI detection processing or AI analysis: "
                 ++ exn_str e)),
         log',
         out ++ [PrintedTraceback e;
                 Printed (str "An unexpected error occurred during AI detection endpoint processing: "
                          ++ exn_str e)]) in
      let extraction :=
        if text_eqb content_type (str "application/pdf") then pdf_text
        else if text_eqb content_type (str "text/plain") then decoded
        else inr (HTTPException 400
                    (str "Unsupported resume file type. Only PDF and TXT are allowed for AI detection.")) in
      match extraction with
      | inr e => handler e log []
      | inl resume_text =>
          match detect_ai_resume azure_openai_client deployment_name
                  resume_text include_explanation log with
          | (inl result, log', out) => (inl result, log', out)
          | (inr e, log', out) => handler e log' out
          end
      end
  end.

End AiDetection.

Module Api.

Record full_analysis : Type := FullAnalysis {
  score : scoring_result;
  interview_questions : text;
  extracted_resume_text : text;
  extracted_jd_text : text
}.

(** [api_full_analysis] of [main.py].  [resume_extraction] and
    [jd_extraction] are what [extract_text_from_resume_file] and
    [extract_text_from_jd_file] give on the uploads: the text, or the
    exception raised. *)
Definition api_full_analysis (azure_openai_client : client)
  (AZURE_DEPLOYMENT_NAME : text) (resume_extraction jd_extraction : text + exn)
  : M full_analysis :=
  resume_text <- lift resume_extraction ;;
  jd_text <- lift jd_extraction ;;
  scoring_result <- score_resume_against_jd azure_openai_client
                      AZURE_DEPLOYMENT_NAME resume_text jd_text ;;
  questions_text <- generate_interview_questions azure_openai_client
                      AZURE_DEPLOYMENT_NAME resume_text jd_text ;;
  ret (FullAnalysis scoring_result questions_text resume_text jd_text).

(** [api_analyze_interview_questions], on the texts extracted from the two
    uploads. *)
Definition api_analyze_interview_questions (azure_openai_client : client)
  (AZURE_DEPLOYMENT_NAME : text)
  (questions_extraction transcript_extraction : text + exn)
  : M coverage_result :=
  ai_generated_questions_text <- lift questions_extraction ;;
  conversation_transcript <- lift transcript_extraction ;;
  analyze_interview_questions azure_openai_client AZURE_DEPLOYMENT_NAME
    ai_generated_questions_text conversation_transcript.

End Api.


(** A score as the detection gives it: the text ["N/A"], or an integer that
    is not negative. *)
Definition score_or_na (v : AiDetection.value) : Prop :=
  v = AiDetection.StrVal (str "N/A")
  \/ exists n, v = AiDetection.IntVal n /\ (0 <= n)%Z.

(** A text on one line, without whitespace at either end. *)
Definition one_trimmed_line (s : text) : Prop :=
  one_line s = true /\ starts_with_space s = false
  /\ ends_with_space s = false.

(** A service that answers the first request of the detection, of 200
    tokens, with [first], and the request for the explanation with
    [second]. *)
Definition detection_service (first second : reply) : client :=
  fun req => if Nat.eqb (max_tokens req) 200 then first else second.

Definition sample_detection_reply : text := str "Classification: Human-Written
Overall Confidence Score: 072
Formatting Consistency Score: 80
Language Use: high
Detail Depth Score: 65
Error Detection Score: 40".

(** The five scores of the detection, with their labels in the reply. *)
Inductive detection_score : Type :=
| OverallConfidence
| FormattingConsistency
| LanguageUse
| DetailDepth
| ErrorDetection.

Definition score_label (f : detection_score) : text :=
  match f with
  | OverallConfidence => str "Overall Confidence Score: "
  | FormattingConsistency => str "Formatting Consistency Score: "
  | LanguageUse => str "Language Use Score: "
  | DetailDepth => str "Detail Depth Score: "
  | ErrorDetection => str "Error Detection Score: "
  end.

Definition score_field (f : detection_score) (d : AiDetection.response_data)
  : AiDetection.value :=
  match f with
  | OverallConfidence => AiDetection.overall_confidence_score d
  | FormattingConsistency => AiDetection.formatting_consistency_score d
  | LanguageUse => AiDetection.language_use_score d
  | DetailDepth => AiDetection.detail_depth_score d
  | ErrorDetection => AiDetection.error_detection_score d
  end.

Definition starts_with_digit (s : text) : bool :=
  match s with
  | c :: _ => isdigit c
  | [] => false
  end.

(** The end of a line: the end of the text, or a newline. *)
Definition at_newline (s : text) : bool :=
  match s with
  | c :: _ => is_char nl c
  | [] => true
  end.

Definition sample_detection_intro : text := str "Here is my analysis.
".

Definition sample_detection_rest : text := str "
Language Use Score: 55".


(** The guard of the Q&A tab: both extracted texts are there. *)
Definition qa_ready {json : Type} (st : Session.session_state json) : bool :=
  nonempty (Session.job_description_text st)
  && nonempty (Session.candidate_resume_text st).

(** A rerun of the script of [app.py] with the same three uploads. *)
Definition rerun {json : Type} (resume_hash jd_hash transcript_hash
  : option text) (st : Session.session_state json)
  : Session.session_state json :=
  fst (Session.handle_file_changes resume_hash jd_hash transcript_hash st).

(** A session of the single-file front end with every stage done. *)
Definition busy_final_session : SessionFinal.session_state nat :=
  {| SessionFinal.job_description_text := str "jd";
     SessionFinal.candidate_resume_text := str "cv";
     SessionFinal.conversation_history := [Message (str "user") (str "hello")];
     SessionFinal.jd_analysis_results := Some 1;
     SessionFinal.ai_detection_results := Some 2;
     SessionFinal.interview_analysis_results := Some 3;
     SessionFinal.candidate_evaluation_results := Some 4;
     SessionFinal.last_jd_hash := Some (str "j1");
     SessionFinal.last_shared_resume_hash := Some (str "r1");
     SessionFinal.last_conversation_transcript_hash := None |}.


(** ** The eligibility verdicts of [app.py] *)

Module Eligibility.

(** [d.get(k, default)] *)
Definition dict_get_or (k default : text) (d : dict text) : text :=
  match dict_get k d with
  | Some v => v
  | None => default
  end.

(** The four requirements shown on the tab of the JD analysis. *)
Definition hard_req_items (hard_requirements : dict text)
  : list (text * text) :=
  [(str "Location Match",
    dict_get_or (str "Location Match") (str "N/A") hard_requirements);
   (str "Full-time Availability",
    dict_get_or (str "Full-time Availability") (str "N/A") hard_requirements);
   (str "Minimum Experience Met",
    dict_get_or (str "Minimum Experience Met") (str "N/A") hard_requirements);
   (str "Other Specific Requirements Met",
    dict_get_or (str "Other Specific Requirements Met") (str "N/A")
      hard_requirements)].

(** The loop over the items shown: a value ["No"] makes the candidate not
    eligible and adds a reason. *)
Fixpoint hard_req_loop (items : list (text * text)) (is_eligible : bool)
  (eligibility_reasons : list text) : bool * list text :=
  match items with
  | [] => (is_eligible, eligibility_reasons)
  | (req_key, req_value) :: more =>
      if text_eqb req_value (str "No") then
        hard_req_loop more false
          (eligibility_reasons
           ++ [str "Hard Requirement '" ++ req_key ++ str "' was not met."])
      else hard_req_loop more is_eligible eligibility_reasons
  end.

(** The verdict of the tab of the JD analysis.  [overall_score] is the
    score of the result when it is an integer. *)
Definition analysis_eligibility (hard_requirements : dict text)
  (overall_score : option Z) : bool * list text :=
  let '(is_eligible, eligibility_reasons) :=
    match hard_requirements with
    | [] => (true, [])
    | _ => hard_req_loop (hard_req_items hard_requirements) true []
    end in
  match overall_score with
  | Some n =>
      if (n <? 60)%Z then
        (false, eligibility_reasons ++ [str "Overall score is below 60%."])
      else (is_eligible, eligibility_reasons)
  | None => (is_eligible, eligibility_reasons)
  end.

(** The verdict computed for the Q&A tab, over every entry of the
    mapping. *)
Fixpoint qa_hard_loop (items : dict text) (is_hard_eligible : bool)
  (hard_ineligibility_reasons : list text) : bool * list text :=
  match items with
  | [] => (is_hard_eligible, hard_ineligibility_reasons)
  | (req_key, req_value) :: more =>
      if text_eqb req_value (str "No") then
        qa_hard_loop more false
          (hard_ineligibility_reasons
           ++ [str "'" ++ req_key ++ str "' was not met."])
      else qa_hard_loop more is_hard_eligible hard_ineligibility_reasons
  end.

Definition qa_eligibility (hard_requirements : dict text)
  : bool * list text :=
  qa_hard_loop hard_requirements true [].

End Eligibility.

(** The four requirement lines of a reply that follows the scoring prompt,
    with their values. *)
Definition mandated_requirements (location availability experience other
  : text) : list (text * text) :=
  [(str "Location Match", location);
   (str "Full-time Availability", availability);
   (str "Minimum Experience Met", experience);
   (str "Other Specific Requirements Met (e.g., Certifications, Specific Tools, etc.)",
    other)].


(** ** [get_file_hash] ([streamlit_app/utils.py]) *)

Module FileHash.

Definition bytes : Type := list Byte.byte.

(** An uploaded file: its content and the position of the next read. *)
Record uploaded_file : Type := UploadedFile {
  file_content : bytes;
  position : nat
}.

(** [f.seek(n)] *)
Definition seek (n : nat) (f : uploaded_file) : uploaded_file :=
  UploadedFile f.(file_content) n.

(** [f.read(size)]: at most [size] bytes from the position on, which moves
    past them. *)
Definition read (size : nat) (f : uploaded_file) : bytes * uploaded_file :=
  let buf := firstn size (skipn f.(position) f.(file_content)) in
  (buf, UploadedFile f.(file_content) (f.(position) + length buf)).

(** [io.DEFAULT_BUFFER_SIZE]; only that it is positive matters below. *)
Definition DEFAULT_BUFFER_SIZE : nat := N.to_nat 8192.

Section Hasher.

(** [hashlib]'s hash object: a new one, [update] and [hexdigest]. *)
Variable hasher : Type.
Variable sha256 : hasher.
Variable update : hasher -> bytes -> hasher.
Variable hexdigest : hasher -> text.

(** [while buf: hasher.update(buf); buf = f.read(...)], for at most [fuel]
    iterations. *)
Fixpoint read_loop (fuel : nat) (h : hasher) (buf : bytes)
  (f : uploaded_file) : option (hasher * uploaded_file) :=
  match buf with
  | [] => Some (h, f)
  | _ =>
      match fuel with
      | O => None
      | S fuel' =>
          let (buf', f') := read DEFAULT_BUFFER_SIZE f in
          read_loop fuel' (update h buf) buf' f'
      end
  end.

(** [get_file_hash]: the digest, or [None] without a file, and the file as
    it is left; nothing when [fuel] iterations were not enough. *)
Definition get_file_hash (fuel : nat)
  (file_uploader_object : option uploaded_file)
  : option (option text * option uploaded_file) :=
  match file_uploader_object with
  | Some f =>
      let f := seek 0 f in
      let hasher := sha256 in
      let (buf, f) := read DEFAULT_BUFFER_SIZE f in
      match read_loop fuel hasher buf f with
      | Some (hasher, f) => Some (Some (hexdigest hasher), Some (seek 0 f))
      | None => None
      end
  | None => Some (None, None)
  end.

End Hasher.

End FileHash.

(** A file of three bytes that was read to its end. *)
Definition sample_upload : FileHash.uploaded_file :=
  FileHash.UploadedFile [Byte.x61; Byte.x62; Byte.x63] 3.


(** A block of the evaluation as the prompt asks for it: the question, the
    summary of the response, the digits of the score and the rationale. *)
Record written_block : Type := WrittenBlock {
  asked : text;
  summarised : text;
  score_digits : text;
  reasoned : text
}.

Definition evaluation_block (b : written_block) : text :=
  str "Question: " ++ b.(asked) ++ nl :: str "Response Summary: "
  ++ b.(summarised) ++ nl :: str "Score: " ++ b.(score_digits) ++ str "/10"
  ++ nl :: str "Rationale: " ++ b.(reasoned).

(** The line [---] that ends a block. *)
Definition block_separator : text := nl :: str "---" ++ [nl].

Definition evaluation_blocks (bs : list written_block) : text :=
  flat_map (fun b => evaluation_block b ++ block_separator) bs.

Definition overall_performance_header : text :=
  str "--- OVERALL INTERVIEW PERFORMANCE ---".

(** The three texts of a block are one-line and trimmed, the score is a run
    of digits, and the rationale does not hold the header of the overall
    performance. *)
Definition block_ok (b : written_block) : bool :=
  one_line_question b.(asked) && one_line_question b.(summarised)
  && one_line_question b.(reasoned)
  && nonempty b.(score_digits) && forallb isdigit b.(score_digits)
  && negb (occurs overall_performance_header b.(reasoned)).

(** What the evaluation returns for a block. *)
Definition evaluation_of (b : written_block) : individual_evaluation :=
  IndividualEvaluation b.(asked) b.(summarised)
    (digits_value b.(score_digits)) b.(reasoned).

Definition sample_blocks : list written_block :=
  [WrittenBlock (str "What is X?") (str "He said Y: Question: none.")
     (str "07") (str "Good - really.");
   WrittenBlock (str "What is Z?") (str "No clear response found")
     (str "0") (str "Missing.")].

Definition sample_evaluation_start : text := str "--- EVALUATION START ---
".

Definition sample_evaluation_tail : text :=
  str "--- OVERALL INTERVIEW PERFORMANCE ---
Overall Score: 55/100
Overall Summary: Fine overall.
--- EVALUATION END ---".


Definition no_digit (s : text) : bool :=
  forallb (fun c => negb (isdigit c)) s.


(** What the loop over the criteria lines stores for a line that it does
    not filter out. *)
Definition store_criterion (d : dict Z) (ls : text * text) : dict Z :=
  dict_set (strip (fst ls)) (digits_value (snd ls)) d.

(** The test of the filter: the label of a criteria line is the header of
    the overall score. *)
Definition is_overall_score_label (ls : text * text) : bool :=
  text_eqb (upper (strip (fst ls))) (str "OVERALL_SCORE").

(** What may follow the overall summary: the end of the answer, or the line
    that ends the evaluation. *)
Definition ends_summary (fin : text) : bool :=
  match fin with
  | [] => true
  | _ => startswith (nl :: str "--- EVALUATION END ---") fin
  end.

Definition sample_evaluation_blocks_part : text := str "--- EVALUATION START ---
Question: What is X?
Response Summary: He said Y.
Score: 7/10
Rationale: Good.
---
--- OVERALL INTERVIEW PERFORMANCE ---
".

Definition sample_evaluation_end : text := str "
--- EVALUATION END ---".

(** * Properties *)

Unset Implicit Arguments.

(** ** Stripping *)

Lemma lstrip_no_leading_space (s : text) :
  starts_with_space (lstrip s) = false.
Proof.
  induction s as [|c s IH]; simpl; [reflexivity|].
  destruct (isspace c) eqn:Hc; [exact IH|].
  simpl. exact Hc.
Qed.

Lemma lstrip_snoc (s : text) (c : ascii) :
  isspace c = false -> lstrip (s ++ [c]) = lstrip s ++ [c].
Proof.
  intros Hc. induction s as [|x s IH]; simpl.
  - now rewrite Hc.
  - destruct (isspace x); [exact IH | reflexivity].
Qed.

Lemma rstrip_no_trailing_space (s : text) :
  ends_with_space (rstrip s) = false.
Proof.
  unfold ends_with_space, rstrip. rewrite rev_involutive.
  apply lstrip_no_leading_space.
Qed.

Lemma rstrip_keeps_head (c : ascii) (s : text) :
  isspace c = false -> exists s', rstrip (c :: s) = c :: s'.
Proof.
  intros Hc. unfold rstrip. simpl rev.
  rewrite (lstrip_snoc _ _ Hc), rev_app_distr. simpl.
  now eexists.
Qed.

Lemma strip_no_leading_space (s : text) :
  starts_with_space (strip s) = false.
Proof.
  unfold strip.
  pose proof (lstrip_no_leading_space s) as H.
  destruct (lstrip s) as [|c t]; [reflexivity|].
  simpl in H. destruct (rstrip_keeps_head c t H) as [s' ->].
  exact H.
Qed.

Lemma strip_trimmed (s : text) : nonempty (strip s) = true -> trimmed (strip s).
Proof.
  intros Hne. repeat split.
  - intros E. rewrite E in Hne. discriminate.
  - apply strip_no_leading_space.
  - apply rstrip_no_trailing_space.
Qed.

Lemma lstrip_decomp s :
  exists sp, s = sp ++ lstrip s /\ forallb isspace sp = true.
Proof.
  induction s as [|c s (sp & E & H)]; cbn [lstrip].
  - now exists [].
  - destruct (isspace c) eqn:Hc.
    + exists (c :: sp). cbn [app forallb]. now rewrite Hc, H, <- E.
    + now exists [].
Qed.

Lemma forallb_rev p (s : text) : forallb p (rev s) = forallb p s.
Proof.
  induction s as [|c s IH]; [reflexivity|].
  cbn [rev forallb]. rewrite forallb_app, IH. cbn [forallb].
  rewrite andb_true_r. apply andb_comm.
Qed.

Lemma strip_decomp s :
  exists sp sp', s = sp ++ strip s ++ sp'
                 /\ forallb isspace sp = true /\ forallb isspace sp' = true.
Proof.
  destruct (lstrip_decomp s) as (sp & E & H).
  destruct (lstrip_decomp (rev (lstrip s))) as (sp' & E' & H').
  exists sp, (rev sp'). unfold strip, rstrip. rewrite forallb_rev.
  split; [|auto]. rewrite <- rev_app_distr, <- E', rev_involutive. exact E.
Qed.

Lemma filter_strip_trimmed (l : list text) :
  Forall (fun q => exists x, q = strip x) l ->
  Forall trimmed (filter nonempty l).
Proof.
  induction 1 as [|q l [x ->] _ IH]; simpl; [constructor|].
  destruct (nonempty (strip x)) eqn:Hne; [|exact IH].
  constructor; [now apply strip_trimmed | exact IH].
Qed.

(** ** The matcher only returns paths of the pattern *)

Lemma star_loop_sound body g a :
  sound body a ->
  forall n k st m,
    star_loop body g k n st = Some m ->
    exists st', matches (Star g a) st st' /\ k st' = Some m.
Proof.
  intros Hbody. induction n as [|n IH]; intros k st m H; simpl in H.
  - exists st. split; [constructor | exact H].
  - assert (Hstep : forall m',
      body st (fun st' => if length (rest st') <? length (rest st)
                          then star_loop body g k n st' else None) = Some m' ->
      exists st', matches (Star g a) st st' /\ k st' = Some m').
    { intros m' E. apply Hbody in E. destruct E as (st1 & Ha & E).
      destruct (length (rest st1) <? length (rest st)); [|discriminate].
      apply IH in E. destruct E as (st2 & Hs & E).
      exists st2. split; [econstructor; eassumption | exact E]. }
    destruct g.
    + destruct (body st _) as [m'|] eqn:E.
      * inversion H; subst m'. now apply Hstep.
      * exists st. split; [constructor | exact H].
    + destruct (k st) as [m'|] eqn:E.
      * inversion H; subst m'. exists st. split; [constructor | exact E].
      * now apply Hstep.
Qed.

Lemma run_sound r : sound (run r) r.
Proof.
  unfold sound.
  induction r as [|p|a IHa b IHb|a IHa b IHb|g a IHa|i a IHa|a IHa| | | | | ];
    intros st k m H; simpl in H.
  - exists st. split; [constructor | exact H].
  - destruct (rest st) as [|c t] eqn:Er; [discriminate|].
    destruct (p c) eqn:Ep; [|discriminate].
    eexists. split; [econstructor; eassumption | exact H].
  - apply IHa in H. destruct H as (st1 & Ha & H).
    apply IHb in H. destruct H as (st2 & Hb & H).
    exists st2. split; [econstructor; eassumption | exact H].
  - destruct (run a st k) as [m'|] eqn:E.
    + inversion H; subst m'. apply IHa in E. destruct E as (st1 & Ha & E).
      exists st1. split; [now apply M_AltL | exact E].
    + apply IHb in H. destruct H as (st1 & Hb & H).
      exists st1. split; [now apply M_AltR | exact H].
  - apply (star_loop_sound (run a) g a IHa (S (length (rest st))) k st m H).
  - apply IHa in H. destruct H as (st1 & Ha & H).
    eexists. split; [constructor; exact Ha | exact H].
  - destruct (run a st _) as [st1|] eqn:E; [|discriminate].
    apply IHa in E. destruct E as (st2 & Ha & E). inversion E; subst st2.
    eexists. split; [constructor; exact Ha | exact H].
  - destruct (at_line_start st) eqn:E; [|discriminate].
    exists st. split; [now constructor | exact H].
  - destruct (prev st) eqn:E; [discriminate|].
    exists st. split; [now constructor | exact H].
  - destruct (at_line_end st) eqn:E; [|discriminate].
    exists st. split; [now constructor | exact H].
  - destruct (at_end_or_last_newline st) eqn:E; [|discriminate].
    exists st. split; [now constructor | exact H].
  - destruct (at_end st) eqn:E; [|discriminate].
    exists st. split; [now constructor | exact H].
Qed.

(** ** The bound on the iterations of a repetition is never reached *)

Lemma star_loop_ext body g :
  (forall st k1 k2, (forall s, k1 s = k2 s) -> body st k1 = body st k2) ->
  forall n k1 k2 st,
    (forall s, k1 s = k2 s) ->
    star_loop body g k1 n st = star_loop body g k2 n st.
Proof.
  intros Hbody. induction n as [|n IH]; intros k1 k2 st Hk; cbn [star_loop].
  - apply Hk.
  - rewrite (Hk st).
    rewrite (Hbody st _ (fun st' =>
               if length (rest st') <? length (rest st)
               then star_loop body g k2 n st' else None)).
    + reflexivity.
    + intros s. destruct (_ <? _); [now apply IH | reflexivity].
Qed.

Lemma run_ext r : forall st k1 k2,
  (forall s, k1 s = k2 s) -> run r st k1 = run r st k2.
Proof.
  induction r as [|p|a IHa b IHb|a IHa b IHb|g a IHa|i a IHa|a IHa| | | | | ];
    intros st k1 k2 Hk; cbn [run]; try (rewrite (Hk st); reflexivity).
  - destruct (rest st); [reflexivity|]. now rewrite Hk.
  - apply IHa. intros s. now apply IHb.
  - now rewrite (IHa st k1 k2 Hk), (IHb st k1 k2 Hk).
  - now apply star_loop_ext.
  - apply IHa. intros s. apply Hk.
  - destruct (run a st _); [apply Hk | reflexivity].
Qed.

(** Any number of iterations above the number of remaining characters gives
    the same result: every iteration consumes a character. *)
Lemma star_loop_fuel r g k : forall n1 n2 st,
  length (rest st) < n1 -> length (rest st) < n2 ->
  star_loop (run r) g k n1 st = star_loop (run r) g k n2 st.
Proof.
  induction n1 as [|n1 IH]; intros n2 st H1 H2; [lia|].
  destruct n2 as [|n2]; [lia|]. cbn [star_loop].
  rewrite (run_ext r st
             (fun st' => if length (rest st') <? length (rest st)
                         then star_loop (run r) g k n1 st' else None)
             (fun st' => if length (rest st') <? length (rest st)
                         then star_loop (run r) g k n2 st' else None)).
  - reflexivity.
  - intros s. destruct (length (rest s) <? length (rest st)) eqn:E;
      [|reflexivity].
    apply Nat.ltb_lt in E. apply IH; lia.
Qed.

Lemma attempt_sound r must_advance p s m :
  attempt r must_advance p s = Some m -> matches r (MState p s []) m.
Proof.
  unfold attempt. intros H. apply run_sound in H.
  destruct H as (st' & Hm & H).
  destruct (must_advance && _); [discriminate|].
  now inversion H; subst.
Qed.

Lemma search_from_sound r s : forall p m,
  search_from r p s = Some m -> match_of r m.
Proof.
  induction s as [|c s IH]; intros p m H; simpl in H.
  - destruct (attempt r false p []) eqn:E; [|discriminate].
    inversion H; subst. apply attempt_sound in E. now exists p, [].
  - destruct (attempt r false p (c :: s)) eqn:E.
    + inversion H; subst. apply attempt_sound in E. now exists p, (c :: s).
    + now apply IH in H.
Qed.

Lemma re_search_sound r s m : re_search r s = Some m -> match_of r m.
Proof. apply search_from_sound. Qed.

Lemma scan_sound r s : forall p busy, Forall (match_of r) (scan r p s busy).
Proof.
  induction s as [|c s IH]; intros p busy; cbn [scan].
  - destruct busy; [|constructor].
    destruct (attempt r false p []) eqn:E; [|constructor].
    constructor; [|constructor]. apply attempt_sound in E. now exists p, [].
  - destruct busy as [|b]; [|apply IH].
    destruct (attempt r false p (c :: s)) as [m|] eqn:E; [|apply IH].
    apply attempt_sound in E.
    assert (Hm : match_of r m) by now exists p, (c :: s).
    destruct (length (c :: s) - length (rest m)); [|constructor; auto].
    destruct (attempt r true p (c :: s)) as [m2|] eqn:E2.
    + apply attempt_sound in E2. constructor; [exact Hm|].
      constructor; [now exists p, (c :: s) | apply IH].
    + constructor; auto.
Qed.

Lemma re_finditer_sound r s : Forall (match_of r) (re_finditer r s).
Proof. apply scan_sound. Qed.

(** ** What a match captures is a piece of the text *)

Lemma consumed_app st st' xs :
  rest st = xs ++ rest st' -> consumed st st' = xs.
Proof.
  intros H. unfold consumed. rewrite H, length_app.
  replace (length xs + length (rest st') - length (rest st'))
    with (length xs + 0) by lia.
  rewrite firstn_app_2. simpl. apply app_nil_r.
Qed.

Lemma match_in_match_of r s m : match_in r s m -> match_of r m.
Proof. intros (p & pre & s' & _ & H). now exists p, s'. Qed.

Lemma search_from_in r s : forall p m,
  search_from r p s = Some m -> match_in r s m.
Proof.
  induction s as [|c s IH]; intros p m H; simpl in H.
  - destruct (attempt r false p []) eqn:E; [|discriminate].
    inversion H; subst. apply attempt_sound in E. now exists p, [], [].
  - destruct (attempt r false p (c :: s)) eqn:E.
    + inversion H; subst. apply attempt_sound in E.
      now exists p, [], (c :: s).
    + apply IH in H. destruct H as (p' & pre & s' & -> & H).
      now exists p', (c :: pre), s'.
Qed.

Lemma re_search_in r s m : re_search r s = Some m -> match_in r s m.
Proof. apply search_from_in. Qed.

Lemma match_in_cons r c s m : match_in r s m -> match_in r (c :: s) m.
Proof.
  intros (p & pre & s' & -> & H). now exists p, (c :: pre), s'.
Qed.

Lemma scan_in r s : forall p busy, Forall (match_in r s) (scan r p s busy).
Proof.
  induction s as [|c s IH]; intros p busy; cbn [scan].
  - destruct busy; [|constructor].
    destruct (attempt r false p []) eqn:E; [|constructor].
    constructor; [|constructor]. apply attempt_sound in E.
    now exists p, [], [].
  - assert (Hs : forall q b, Forall (match_in r (c :: s)) (scan r q s b)).
    { intros q b. eapply Forall_impl; [|apply IH].
      intros m. apply match_in_cons. }
    destruct busy as [|b]; [|apply Hs].
    destruct (attempt r false p (c :: s)) as [m|] eqn:E; [|apply Hs].
    apply attempt_sound in E.
    assert (Hm : match_in r (c :: s) m) by now exists p, [], (c :: s).
    destruct (length (c :: s) - length (rest m)); [|constructor; auto].
    destruct (attempt r true p (c :: s)) as [m2|] eqn:E2.
    + apply attempt_sound in E2. constructor; [exact Hm|].
      constructor; [now exists p, [], (c :: s) | apply Hs].
    + constructor; auto.
Qed.

Lemma re_finditer_in r s : Forall (match_in r s) (re_finditer r s).
Proof. apply scan_in. Qed.

Lemma piece_nil s : piece s [].
Proof. now exists [], s. Qed.

(** A path of the matcher moves forward in the text, and what it captures
    on the way are pieces of the text. *)
Lemma matches_pieces r st st' :
  matches r st st' ->
  (exists xs, rest st = xs ++ rest st')
  /\ forall w pre, w = pre ++ rest st ->
       Forall (fun c => piece w (snd c)) (caps st) ->
       Forall (fun c => piece w (snd c)) (caps st').
Proof.
  induction 1 as
    [st|p st c t Hr Hp|a b st1 st2 st3 _ IH1 _ IH2|a b st st' _ IH
    |a b st st' _ IH|g a st|g a st1 st2 st3 _ IH1 _ IH2|i a st st' _ IH
    |a st st' _ IH|st|st|st|st|st];
    try (split; [now exists [] | now intros w pre _ Hc]).
  - split; [now exists [c] | now intros w pre _ Hc].
  - destruct IH1 as ((xs1 & E1) & C1). destruct IH2 as ((xs2 & E2) & C2).
    split.
    + exists (xs1 ++ xs2). now rewrite E1, E2, app_assoc.
    + intros w pre Hw Hc. apply (C2 w (pre ++ xs1)).
      * now rewrite Hw, E1, app_assoc.
      * now apply (C1 w pre).
  - exact IH.
  - exact IH.
  - destruct IH1 as ((xs1 & E1) & C1). destruct IH2 as ((xs2 & E2) & C2).
    split.
    + exists (xs1 ++ xs2). now rewrite E1, E2, app_assoc.
    + intros w pre Hw Hc. apply (C2 w (pre ++ xs1)).
      * now rewrite Hw, E1, app_assoc.
      * now apply (C1 w pre).
  - destruct IH as ((xs & E) & C). split.
    + now exists xs.
    + intros w pre Hw Hc. cbn [set_cap caps]. constructor.
      * cbn [snd]. rewrite (consumed_app _ _ _ E).
        exists pre, (rest st'). now rewrite Hw, E.
      * now apply (C w pre).
  - destruct IH as (_ & C). split.
    + now exists [].
    + intros w pre Hw Hc. cbn [caps rest] in *. now apply (C w pre).
Qed.

Lemma lookup_cap_In i cs t : lookup_cap i cs = Some t -> In (i, t) cs.
Proof.
  induction cs as [|[j u] cs IH]; simpl; [discriminate|].
  destruct (Nat.eqb i j) eqn:E.
  - apply Nat.eqb_eq in E. intros H. inversion H; subst. now left.
  - intros H. right. now apply IH.
Qed.

(** Every group of a match found in a text is a piece of that text. *)
Lemma group_in_text r s m i : match_in r s m -> piece s (group i m).
Proof.
  intros (p & pre & s' & Es & H). apply matches_pieces in H.
  destruct H as (_ & C). specialize (C s pre Es (Forall_nil _)).
  unfold group. destruct (lookup_cap i (caps m)) as [t|] eqn:E;
    [|apply piece_nil].
  apply lookup_cap_In in E. rewrite Forall_forall in C.
  apply (C (i, t) E).
Qed.

(** ** Runs of digits *)

Lemma leading_digits_app ds : forall b,
  forallb isdigit ds = true -> length ds <= leading_digits (ds ++ b).
Proof.
  induction ds as [|c ds IH]; intros b H; cbn [app length leading_digits];
    [lia|].
  cbn [forallb] in H. apply andb_true_iff in H. destruct H as [Hc H].
  rewrite Hc. specialize (IH b H). lia.
Qed.

Lemma leading_digits_le_longest s : leading_digits s <= longest_digit_run s.
Proof.
  destruct s as [|c s]; cbn [leading_digits longest_digit_run]; lia.
Qed.

Lemma longest_digit_run_app a : forall s,
  longest_digit_run s <= longest_digit_run (a ++ s).
Proof.
  induction a as [|c a IH]; intros s; cbn [app longest_digit_run]; [lia|].
  specialize (IH s). lia.
Qed.

(** A run of digits inside a text is no longer than the longest one. *)
Lemma digit_piece_le s ds :
  piece s ds -> forallb isdigit ds = true ->
  length ds <= longest_digit_run s.
Proof.
  intros (a & b & ->) Hd.
  pose proof (leading_digits_app ds b Hd).
  pose proof (leading_digits_le_longest (ds ++ b)).
  pose proof (longest_digit_run_app a (ds ++ b)). lia.
Qed.

Lemma longest_digit_run_piece s t :
  piece s t -> longest_digit_run t <= longest_digit_run s.
Proof.
  intros (a & b & ->).
  assert (H : forall u v, longest_digit_run u <= longest_digit_run (u ++ v)).
  { induction u as [|c u IH]; intros v; cbn [app longest_digit_run]; [lia|].
    specialize (IH v).
    assert (L : forall x y, leading_digits x <= leading_digits (x ++ y)).
    { induction x as [|d x IHx]; intros y; cbn [app leading_digits]; [lia|].
      destruct (isdigit d); [specialize (IHx y); lia | lia]. }
    specialize (L u v). destruct (isdigit c); lia. }
  pose proof (H t b). pose proof (longest_digit_run_app a (t ++ b)). lia.
Qed.

Lemma digit_runs_within_limit_piece s t :
  piece s t -> digit_runs_within_limit s = true ->
  digit_runs_within_limit t = true.
Proof.
  unfold digit_runs_within_limit. intros Hp H.
  apply Nat.leb_le in H. apply Nat.leb_le.
  pose proof (longest_digit_run_piece _ _ Hp). lia.
Qed.

Lemma strip_piece s : piece s (strip s).
Proof.
  destruct (strip_decomp s) as (sp & sp' & E & _). now exists sp, sp'.
Qed.

Lemma digit_runs_within_limit_strip s :
  digit_runs_within_limit s = true ->
  digit_runs_within_limit (strip s) = true.
Proof. apply digit_runs_within_limit_piece, strip_piece. Qed.

(** The digits that a match captures in a text whose runs of digits are
    within the limit are within the limit. *)
Lemma captured_digits_short r s m i :
  match_in r s m -> digit_runs_within_limit s = true ->
  forallb isdigit (group i m) = true ->
  length (group i m) <= max_str_digits.
Proof.
  intros Hm Hs Hd. apply Nat.leb_le in Hs.
  pose proof (digit_piece_le _ _ (group_in_text _ _ _ i Hm) Hd). lia.
Qed.

(** ** What the patterns capture *)

Lemma matches_Lit s : forall st st',
  matches (Lit s) st st' -> rest st = s ++ rest st' /\ caps st' = caps st.
Proof.
  induction s as [|c s IH]; intros st st' H; simpl in H.
  - inversion H; subst. split; reflexivity.
  - inversion H as [| |a b st1 st2 st3 Hc Hs| | | | | | | | | | |]; subst.
    inversion Hc as [|p st0 c0 t Hr Hp| | | | | | | | | | | |]; subst.
    apply IH in Hs. destruct Hs as [Hs1 Hs2]. simpl in Hs1, Hs2.
    apply Ascii.eqb_eq in Hp. subst c0.
    split; [rewrite Hr, Hs1; reflexivity | exact Hs2].
Qed.

Lemma matches_Chr p st st' :
  matches (Chr p) st st' ->
  exists c, rest st = c :: rest st' /\ p c = true /\ caps st' = caps st.
Proof.
  intros H. inversion H; subst. exists c. simpl. auto.
Qed.

Lemma matches_chr_star g p st st' :
  matches (Star g (Chr p)) st st' ->
  exists xs, rest st = xs ++ rest st' /\ forallb p xs = true
             /\ caps st' = caps st.
Proof.
  intros H. remember (Star g (Chr p)) as r eqn:Er.
  induction H; inversion Er; subst.
  - exists []. auto.
  - apply matches_Chr in H. destruct H as (c & Hr & Hp & Hc).
    destruct (IHmatches2 eq_refl) as (xs & Hr2 & Hp2 & Hc2).
    exists (c :: xs). simpl. rewrite Hr, Hr2, Hp, Hp2, Hc2, Hc. auto.
Qed.

Lemma matches_Cat a b st st'' :
  matches (Cat a b) st st'' ->
  exists st', matches a st st' /\ matches b st' st''.
Proof. intros H. inversion H; subst. eauto. Qed.

Lemma matches_chr_plus g p st st' :
  matches (Plus g (Chr p)) st st' ->
  exists c xs, rest st = (c :: xs) ++ rest st' /\ p c = true
               /\ forallb p xs = true /\ caps st' = caps st.
Proof.
  intros H. apply matches_Cat in H. destruct H as (st1 & H1 & H2).
  apply matches_Chr in H1. destruct H1 as (c & Hr & Hp & Hc).
  apply matches_chr_star in H2. destruct H2 as (xs & Hr2 & Hp2 & Hc2).
  exists c, xs. simpl. rewrite Hr, Hr2, Hc2, Hc. auto.
Qed.

Lemma matches_Group i a st st'' :
  matches (Group i a) st st'' ->
  exists st', matches a st st' /\ rest st'' = rest st'
              /\ caps st'' = (i, consumed st st') :: caps st'.
Proof. intros H. inversion H; subst. eexists. simpl. eauto. Qed.

(** A group around [\d+] captures a non-empty run of digits. *)
Lemma matches_digits_group i g st st' :
  matches (Group i (Plus g digit)) st st' ->
  exists ds, caps st' = (i, ds) :: caps st /\ ds <> []
             /\ forallb isdigit ds = true.
Proof.
  intros H. apply matches_Group in H. destruct H as (st1 & H & _ & Hc).
  apply matches_chr_plus in H. destruct H as (c & xs & Hr & Hp & Hxs & Hc1).
  exists (c :: xs). rewrite Hc, (consumed_app _ _ _ Hr), Hc1.
  split; [reflexivity|]. split; [discriminate|]. simpl. now rewrite Hp, Hxs.
Qed.

Lemma overall_score_capture m :
  match_of re_overall_score m ->
  group 1 m <> [] /\ forallb isdigit (group 1 m) = true.
Proof.
  intros (p & s & H). unfold re_overall_score in H. cbn [Seq] in H.
  apply matches_Cat in H. destruct H as (st1 & H1 & H).
  apply matches_Cat in H. destruct H as (st2 & H2 & H).
  apply matches_Cat in H. destruct H as (st3 & H3 & H4).
  apply matches_digits_group in H3. destruct H3 as (ds & Hc & Hne & Hd).
  apply matches_Lit in H4. destruct H4 as [_ H4].
  unfold group. rewrite H4, Hc. simpl. auto.
Qed.

Lemma criteria_line_capture m :
  match_of re_criteria_line m ->
  (exists body c, group 1 m = body ++ [c]
                  /\ forallb label_char body = true /\ is_letter c = true)
  /\ group 2 m <> [] /\ forallb isdigit (group 2 m) = true.
Proof.
  intros (p & s & H). unfold re_criteria_line in H. cbn [Seq] in H.
  apply matches_Cat in H. destruct H as (st1 & _ & H).
  apply matches_Cat in H. destruct H as (st2 & _ & H).
  apply matches_Cat in H. destruct H as (st3 & H3 & H).
  apply matches_Cat in H. destruct H as (st4 & H4 & H).
  apply matches_Cat in H. destruct H as (st5 & H5 & H).
  apply matches_Cat in H. destruct H as (st6 & H6 & H7).
  apply matches_Group in H3. destruct H3 as (st2' & H3 & _ & Hc3).
  apply matches_Cat in H3. destruct H3 as (st2'' & Hl & Hlast).
  apply matches_chr_plus in Hl. destruct Hl as (c & xs & Hr & Hp & Hxs & _).
  apply matches_Chr in Hlast. destruct Hlast as (z & Hrz & Hz & _).
  apply matches_Chr in H4. destruct H4 as (_ & _ & _ & Hc4).
  apply matches_chr_star in H5. destruct H5 as (_ & _ & _ & Hc5).
  apply matches_digits_group in H6. destruct H6 as (ds & Hc6 & Hne & Hd).
  apply matches_Lit in H7. destruct H7 as [_ Hc7].
  assert (Hlabel : consumed st2 st2' = (c :: xs) ++ [z]).
  { apply consumed_app. rewrite Hr, Hrz, <- app_assoc. reflexivity. }
  unfold group. rewrite Hc7, Hc6, Hc5, Hc4, Hc3, Hlabel. simpl.
  split; [|auto].
  exists (c :: xs), z. simpl. rewrite Hp, Hxs. auto.
Qed.

(** ** Scoring returns on a reply whose runs of digits [int] accepts *)

Lemma isdigit_value c : isdigit c = true -> (0 <= digit_value c <= 9)%Z.
Proof.
  unfold isdigit, in_range, digit_value. intros H.
  apply andb_true_iff in H. destruct H as [H1 H2].
  apply N.leb_le in H1, H2. lia.
Qed.

Lemma digits_fold_nonneg ds : forall acc,
  (0 <= acc)%Z -> forallb isdigit ds = true ->
  (0 <= fold_left (fun a c => 10 * a + digit_value c) ds acc)%Z.
Proof.
  induction ds as [|c ds IH]; intros acc Ha H; cbn [fold_left forallb] in *;
    [exact Ha|].
  apply andb_true_iff in H. destruct H as [Hc H].
  apply IH; [|exact H]. apply isdigit_value in Hc. lia.
Qed.

Lemma digits_value_nonneg ds :
  forallb isdigit ds = true -> (0 <= digits_value ds)%Z.
Proof. apply digits_fold_nonneg. lia. Qed.

Lemma int_of_digits ds :
  ds <> [] -> forallb isdigit ds = true -> length ds <= max_str_digits ->
  int_or_raise ds = inl (digits_value ds).
Proof.
  intros Hne Hd Hl. unfold int_or_raise, int.
  apply Nat.leb_le in Hl.
  destruct ds; [contradiction|]. now rewrite Hd, Hl.
Qed.

Lemma int_or_raise_value ds v :
  int_or_raise ds = inl v -> v = digits_value ds.
Proof.
  unfold int_or_raise, int. destruct ds as [|c ds].
  - cbn [length Nat.eqb negb andb]. discriminate.
  - destruct (forallb isdigit (c :: ds) && _).
    + intros H. now inversion H.
    + destruct (negb _ && _); discriminate.
Qed.

(** Beyond the limit [int] raises. *)
Lemma int_beyond_limit ds :
  forallb isdigit ds = true -> max_str_digits < length ds ->
  exists msg, int_or_raise ds = inr (Error msg).
Proof.
  intros Hd Hl. unfold int_or_raise, int.
  assert (E : (length ds <=? max_str_digits) = false)
    by (apply Nat.leb_gt; exact Hl).
  destruct ds as [|c ds]; [cbn [length] in Hl; lia|].
  rewrite Hd, E. cbn [andb length Nat.eqb negb]. eexists. reflexivity.
Qed.

Lemma is_letter_not_space c : is_letter c = true -> isspace c = false.
Proof.
  destruct c as [[] [] [] [] [] [] [] []]; vm_compute; congruence.
Qed.

Lemma strip_snoc body c :
  isspace c = false -> strip (body ++ [c]) = lstrip body ++ [c].
Proof.
  intros Hc. unfold strip, rstrip.
  rewrite (lstrip_snoc _ _ Hc), rev_app_distr. simpl. rewrite Hc.
  simpl. now rewrite rev_involutive.
Qed.

Lemma forallb_lstrip p s : forallb p s = true -> forallb p (lstrip s) = true.
Proof.
  induction s as [|c s IH]; simpl; intros H; [reflexivity|].
  apply andb_true_iff in H. destruct H as [Hc H].
  destruct (isspace c); [auto|]. simpl. now rewrite Hc, H.
Qed.

Lemma stripped_label_is_criteria_key body c :
  forallb label_char body = true -> is_letter c = true ->
  criteria_key (strip (body ++ [c])) = true.
Proof.
  intros Hb Hc.
  pose proof (is_letter_not_space c Hc) as Hs.
  rewrite (strip_snoc _ _ Hs). unfold criteria_key.
  rewrite forallb_app, (forallb_lstrip _ _ Hb), rev_app_distr. simpl.
  unfold label_char at 1. rewrite Hc. simpl.
  pose proof (lstrip_no_leading_space body) as Hl.
  destruct (lstrip body); simpl in *; [now rewrite Hs | now rewrite Hl].
Qed.

Lemma dict_set_keys {V : Type} (P : text -> Prop) k (v : V) d :
  P k -> Forall P (dict_keys d) -> Forall P (dict_keys (dict_set k v d)).
Proof.
  intros Hk. induction d as [|[k' v'] d IH]; simpl; intros H.
  - constructor; [exact Hk | constructor].
  - inversion H; subst.
    destruct (text_eqb k' k); simpl; constructor; auto.
Qed.

Lemma dict_set_values {V : Type} (Q : V -> Prop) k (v : V) d :
  Q v -> Forall Q (dict_values d) -> Forall Q (dict_values (dict_set k v d)).
Proof.
  intros Hv. induction d as [|[k' v'] d IH]; simpl; intros H.
  - constructor; [exact Hv | constructor].
  - inversion H; subst.
    destruct (text_eqb k' k); simpl; constructor; auto.
Qed.

Lemma criteria_loop_total lines :
  Forall (fun ls =>
            (exists body c, fst ls = body ++ [c]
                            /\ forallb label_char body = true
                            /\ is_letter c = true)
            /\ snd ls <> [] /\ forallb isdigit (snd ls) = true
            /\ length (snd ls) <= max_str_digits) lines ->
  forall d, criteria_ok d ->
  exists d', criteria_loop lines d = inl d' /\ criteria_ok d'.
Proof.
  induction 1 as [|[label sc] lines Hl _ IH]; intros d Hd; simpl.
  - now exists d.
  - destruct Hl as ((body & c & El & Hb & Hc) & Hne & Hds & Hlen).
    simpl in El, Hne, Hds, Hlen.
    destruct (negb _); [|now apply IH].
    rewrite (int_of_digits _ Hne Hds Hlen). apply IH.
    destruct Hd as [Hk Hv]. split.
    + apply dict_set_keys; [|exact Hk]. subst label.
      now apply stripped_label_is_criteria_key.
    + apply dict_set_values; [|exact Hv]. now apply digits_value_nonneg.
Qed.

(** What the criteria pattern captures in a text whose runs of digits are
    within the limit of [int]. *)
Lemma criteria_lines_captured content :
  digit_runs_within_limit content = true ->
  Forall (fun ls =>
            (exists body c, fst ls = body ++ [c]
                            /\ forallb label_char body = true
                            /\ is_letter c = true)
            /\ snd ls <> [] /\ forallb isdigit (snd ls) = true
            /\ length (snd ls) <= max_str_digits)
         (re_findall2 re_criteria_line content).
Proof.
  intros Hlim. unfold re_findall2.
  pose proof (re_finditer_in re_criteria_line content) as H.
  induction H as [|m l Hm _ IH]; simpl; constructor; [|exact IH].
  destruct (criteria_line_capture m (match_in_match_of _ _ _ Hm))
    as (Hl & Hne & Hd).
  cbn [fst snd]. repeat split; try assumption.
  now apply (captured_digits_short _ _ _ 2 Hm).
Qed.

Lemma parse_criteria_scores_total content :
  digit_runs_within_limit content = true ->
  exists d, parse_criteria_scores content = inl d /\ criteria_ok d.
Proof.
  intros Hlim. unfold parse_criteria_scores.
  apply criteria_loop_total; [|split; constructor].
  now apply criteria_lines_captured.
Qed.

Lemma parse_overall_score_total content :
  digit_runs_within_limit content = true ->
  exists v, parse_overall_score content = inl v /\ (0 <= v)%Z.
Proof.
  intros Hlim. unfold parse_overall_score.
  destruct (re_search re_overall_score content) as [m|] eqn:E.
  - apply re_search_in in E.
    destruct (overall_score_capture m (match_in_match_of _ _ _ E))
      as [Hne Hd].
    rewrite (int_of_digits _ Hne Hd
               (captured_digits_short _ _ _ 1 E Hlim Hd)).
    eexists. split; [reflexivity|].
    now apply digits_value_nonneg.
  - exists 0%Z. split; [reflexivity | lia].
Qed.

(** A reply whose runs of digits are within the limit of [int] is parsed
    into a result: the service is called once and no exception leaves the
    parsing. *)
Lemma score_reply_total deployment_name resume_text jd_text content :
  digit_runs_within_limit content = true ->
  exists overall criteria,
    score_resume_against_jd (replying content) deployment_name resume_text
      jd_text []
    = (inl (ScoringResult content overall criteria
              (parse_hard_requirements content) (parse_strengths content)),
       [scoring_request deployment_name resume_text jd_text])
    /\ parse_overall_score content = inl overall
    /\ parse_criteria_scores content = inl criteria
    /\ (0 <= overall)%Z /\ criteria_ok criteria.
Proof.
  intros Hlim.
  destruct (parse_overall_score_total content Hlim) as (v & Ev & Hv).
  destruct (parse_criteria_scores_total content Hlim) as (d & Ed & Hd).
  exists v, d.
  unfold score_resume_against_jd, try_except, bind, create, lift, replying,
    parse_scoring.
  rewrite Ev, Ed. auto.
Qed.

(** ** Skipping the text before the leftmost match *)

Lemma run_Lit_mismatch s : forall st k,
  startswith s (rest st) = false -> run (Lit s) st k = None.
Proof.
  induction s as [|c s IH]; intros st k H; simpl in *; [discriminate|].
  destruct (rest st) as [|x t]; [reflexivity|].
  unfold is_char. destruct (Ascii.eqb c x); simpl in H; [|reflexivity].
  now apply IH.
Qed.

Lemma run_Lit_app s : forall p X cs k,
  run (Lit s) (MState p (s ++ X) cs) k = k (MState (char_before p s) X cs).
Proof.
  induction s as [|c s IH]; intros p X cs k; simpl; [reflexivity|].
  unfold is_char. rewrite Ascii.eqb_refl. apply IH.
Qed.

Lemma search_from_skip r tail : forall pre p,
  matches_inside r p pre tail = false ->
  search_from r p (pre ++ tail) = search_from r (char_before p pre) tail.
Proof.
  induction pre as [|c pre IH]; intros p H; [reflexivity|].
  cbn [matches_inside] in H. apply orb_false_iff in H. destruct H as [H1 H2].
  change ((c :: pre) ++ tail) with (c :: pre ++ tail) in *.
  cbn [search_from char_before].
  destruct (attempt r false p (c :: pre ++ tail)); [discriminate|].
  now apply IH.
Qed.

Lemma search_from_no_header needle r s : forall p,
  occurs needle s = false -> search_from (Cat (Lit needle) r) p s = None.
Proof.
  induction s as [|c s IH]; intros p H; cbn [occurs] in H;
    apply orb_false_iff in H; destruct H as [H1 H2]; cbn [search_from];
    unfold attempt; cbn [run]; rewrite run_Lit_mismatch by exact H1.
  - reflexivity.
  - now apply IH.
Qed.

(** A header that starts nowhere inside [pre] leaves no match there. *)
Lemma header_absent_no_match needle r tail : forall pre p,
  header_before needle pre tail = false ->
  matches_inside (Cat (Lit needle) r) p pre tail = false.
Proof.
  induction pre as [|c pre IH]; intros p H; [reflexivity|].
  cbn [header_before matches_inside] in *.
  apply orb_false_iff in H. destruct H as [H1 H2].
  rewrite (IH _ H2), orb_false_r.
  unfold attempt. cbn [run]. now rewrite run_Lit_mismatch by exact H1.
Qed.

Lemma run_Chr_cons p pv c t cs k :
  run (Chr p) (MState pv (c :: t) cs) k
  = if p c then k (MState (Some c) t cs) else None.
Proof. reflexivity. Qed.

Lemma run_Chr_nil p pv cs k : run (Chr p) (MState pv [] cs) k = None.
Proof. reflexivity. Qed.

(** A greedy repetition of a character class takes the whole run of the
    class when the rest of the pattern succeeds after it. *)
Lemma star_greedy_run p xs Y k m : forall pv cs n,
  forallb p xs = true ->
  match Y with y :: _ => p y = false | [] => True end ->
  length xs < n ->
  k (MState (char_before pv xs) Y cs) = Some m ->
  star_loop (run (Chr p)) true k n (MState pv (xs ++ Y) cs) = Some m.
Proof.
  induction xs as [|x xs IH]; intros pv cs n Hxs HY Hn Hk;
    (destruct n as [|n]; [simpl in Hn; lia|]); cbn [star_loop app].
  - destruct Y as [|y Y].
    + rewrite run_Chr_nil. exact Hk.
    + rewrite run_Chr_cons, HY. exact Hk.
  - cbn [forallb] in Hxs. apply andb_true_iff in Hxs.
    destruct Hxs as [Hx Hxs]. rewrite run_Chr_cons, Hx. cbn [rest].
    assert (L : (length (xs ++ Y) <? length (x :: xs ++ Y)) = true)
      by (apply Nat.ltb_lt; simpl; lia).
    rewrite L, (IH (Some x) cs n Hxs HY); [reflexivity | simpl in Hn; lia|].
    exact Hk.
Qed.

Lemma run_Star r g st k :
  run (Star g r) st k = star_loop (run r) g k (S (length (rest st))) st.
Proof. reflexivity. Qed.

Lemma run_Cat a b st k :
  run (Cat a b) st k = run a st (fun st' => run b st' k).
Proof. reflexivity. Qed.

Lemma run_Group i a st k :
  run (Group i a) st k = run a st (fun st' => k (set_cap i st st')).
Proof. reflexivity. Qed.

Lemma run_Bol st k : run Bol st k = if at_line_start st then k st else None.
Proof. reflexivity. Qed.

Lemma isdigit_not_space c : isdigit c = true -> isspace c = false.
Proof.
  destruct c as [[] [] [] [] [] [] [] []]; vm_compute; congruence.
Qed.

(** The match of the overall-score pattern at a well-formed declaration:
    the header, whitespace, the digits and [/100]. *)
Lemma overall_score_attempt p sp ds post :
  forallb isspace sp = true -> ds <> [] -> forallb isdigit ds = true ->
  attempt re_overall_score false p
    (str "OVERALL_SCORE:" ++ sp ++ ds ++ str "/100" ++ post)
  = Some (MState (Some "0"%char) post [(1, ds)]).
Proof.
  intros Hsp Hne Hds. destruct ds as [|d ds]; [contradiction|].
  cbn [forallb] in Hds. apply andb_true_iff in Hds. destruct Hds as [Hd Hds].
  unfold attempt, re_overall_score, lit, ws, digit, Plus. cbn [Seq].
  rewrite run_Cat, run_Lit_app, run_Cat, run_Star. cbn [rest].
  apply star_greedy_run; [exact Hsp | | rewrite length_app; lia |].
  { simpl. now apply isdigit_not_space. }
  rewrite run_Cat, run_Group, run_Cat. cbn [app].
  rewrite run_Chr_cons, Hd, run_Star. cbn [rest].
  apply star_greedy_run; [exact Hds | reflexivity | rewrite length_app; lia |].
  unfold set_cap. cbn [prev rest caps].
  rewrite run_Lit_app. cbn [andb].
  rewrite (consumed_app _ _ (d :: ds)); reflexivity.
Qed.

(** The match of the strengths pattern at a section with one bullet that
    ends the text: the group holds the bullet line, marker included. *)
Lemma single_strength_attempt p :
  attempt re_strengths false p single_strength_section
  = Some (MState (Some "d"%char) [] [(1, str "- Strong Python background")]).
Proof. vm_compute. reflexivity. Qed.

(** ** Scoring *)

Lemma search_from_hit r p s m :
  attempt r false p s = Some m -> search_from r p s = Some m.
Proof. intros H. destruct s; cbn [search_from]; now rewrite H. Qed.

Lemma score_reply_fields deployment_name resume_text jd_text content :
  digit_runs_within_limit content = true ->
  exists overall criteria,
    score_reply deployment_name resume_text jd_text content
    = Some (ScoringResult content overall criteria
              (parse_hard_requirements content) (parse_strengths content))
    /\ parse_overall_score content = inl overall
    /\ (0 <= overall)%Z /\ criteria_ok criteria.
Proof.
  intros Hlim.
  destruct (score_reply_total deployment_name resume_text jd_text content
              Hlim) as (v & d & E & Ev & _ & Hv & Hd).
  exists v, d. unfold score_reply, returned. rewrite E. auto.
Qed.

(** A reply in the mandated format is read as intended. *)
Example mandated_reply_scores :
  exists res,
    score_reply [] [] [] sample_single_strength = Some res
    /\ overall_score res = 87%Z
    /\ criteria_scores res
       = [(str "Technical Skills Match", 90%Z);
          (str "Experience Relevance", 80%Z);
          (str "Education Background", 70%Z);
          (str "Responsibilities Alignment", 60%Z);
          (str "Soft Skills/Communication", 50%Z)]
    /\ hard_requirements_match res
       = [(str "Location Match", str "Yes");
          (str "Full-time Availability", str "No");
          (str "Minimum Experience Met", str "Cannot Determine");
          (str "Other Specific Requirements Met (e.g., Certifications, Specific Tools, etc.)",
           str "N/A")]
    /\ dict_keys (criteria_scores res) = known_criteria_labels.
Proof.
  eexists. split; [vm_compute; reflexivity|]. repeat split.
Qed.

(** C1 (amended): when the reply ends with the strengths section
    ["STRENGTHS:\n- Strong Python background"], the strengths pattern
    matches nowhere before it and no run of digits of the reply is longer
    than the 4300 that [int] accepts, scoring returns a result whose
    [strengths_text] is the bullet line as it was written,
    ["- Strong Python background"]: the hyphen-space marker is kept. *)
Theorem single_strength_keeps_marker
  (deployment_name resume_text jd_text pre : text) :
  digit_runs_within_limit (pre ++ single_strength_section) = true ->
  matches_inside re_strengths None pre single_strength_section = false ->
  exists res,
    score_reply deployment_name resume_text jd_text
      (pre ++ single_strength_section) = Some res
    /\ strengths_text res = str "- Strong Python background".
Proof.
  intros Hlim H.
  destruct (score_reply_fields deployment_name resume_text jd_text
              (pre ++ single_strength_section) Hlim) as (v & d & E & _).
  eexists. split; [exact E|]. cbn [strengths_text].
  unfold parse_strengths, re_search.
  rewrite (search_from_skip _ _ _ _ H),
    (search_from_hit _ _ _ _ (single_strength_attempt _)).
  vm_compute. reflexivity.
Qed.

Lemma single_strength_keeps_marker_witness :
  digit_runs_within_limit (sample_scores_part ++ single_strength_section)
    = true
  /\ matches_inside re_strengths None sample_scores_part
       single_strength_section = false
  /\ exists res,
       score_reply [] [] [] sample_single_strength = Some res
       /\ strengths_text res = str "- Strong Python background".
Proof.
  split; [vm_compute; reflexivity|].
  split; [vm_compute; reflexivity|].
  apply (single_strength_keeps_marker [] [] [] sample_scores_part);
    vm_compute; reflexivity.
Defined.

(** The claim of C1 fails on a reply in the mandated format with the single
    bullet ["- Strong Python background"]: the returned text is not
    ["Strong Python background"]. *)
Lemma single_strength_marker_not_stripped :
  exists res,
    score_reply [] [] [] sample_single_strength = Some res
    /\ strengths_text res = str "- Strong Python background"
    /\ strengths_text res <> str "Strong Python background".
Proof.
  eexists. split; [vm_compute; reflexivity|].
  split; [reflexivity | discriminate].
Qed.

(** A header that starts nowhere before the declaration is enough for the
    declaration to be the leftmost match. *)
Lemma overall_score_first_header
  (deployment_name resume_text jd_text pre sp ds post : text) :
  digit_runs_within_limit
    (pre ++ str "OVERALL_SCORE:" ++ sp ++ ds ++ str "/100" ++ post) = true ->
  header_before (str "OVERALL_SCORE:") pre
    (str "OVERALL_SCORE:" ++ sp ++ ds ++ str "/100" ++ post) = false ->
  forallb isspace sp = true -> ds <> [] -> forallb isdigit ds = true ->
  exists res,
    score_reply deployment_name resume_text jd_text
      (pre ++ str "OVERALL_SCORE:" ++ sp ++ ds ++ str "/100" ++ post)
    = Some res
    /\ overall_score res = digits_value ds.
Proof.
  intros Hlim Hpre Hsp Hne Hds.
  destruct (score_reply_fields deployment_name resume_text jd_text
              (pre ++ str "OVERALL_SCORE:" ++ sp ++ ds ++ str "/100" ++ post)
              Hlim)
    as (v & d & E & Ev & _).
  eexists. split; [exact E|]. cbn [overall_score].
  unfold parse_overall_score, re_search in Ev.
  rewrite search_from_skip in Ev.
  - rewrite (search_from_hit _ _ _ _
               (overall_score_attempt _ sp ds post Hsp Hne Hds)) in Ev.
    unfold group in Ev. cbn in Ev.
    now apply int_or_raise_value in Ev.
  - unfold re_overall_score, lit. cbn [Seq].
    now apply header_absent_no_match.
Qed.

(** C3 (amended): the overall score is read at the leftmost match of
    [OVERALL_SCORE:\s*(\d+)/100].  For a reply none of whose runs of digits
    is longer than the 4300 that [int] accepts: when the reply is [pre],
    then the header, whitespace, the digits of [n] and [/100], then
    anything, and the pattern matches nowhere inside [pre], scoring returns
    a result whose [overall_score] is [n]; when the pattern matches nowhere
    in the reply, it returns a result whose [overall_score] is 0. *)
Theorem overall_score_leftmost
  (deployment_name resume_text jd_text content : text) :
  digit_runs_within_limit content = true ->
  (forall pre sp ds post,
     content = pre ++ str "OVERALL_SCORE:" ++ sp ++ ds ++ str "/100" ++ post ->
     matches_inside re_overall_score None pre
       (str "OVERALL_SCORE:" ++ sp ++ ds ++ str "/100" ++ post) = false ->
     forallb isspace sp = true -> ds <> [] -> forallb isdigit ds = true ->
     exists res,
       score_reply deployment_name resume_text jd_text content = Some res
       /\ overall_score res = digits_value ds)
  /\ (re_search re_overall_score content = None ->
      exists res,
        score_reply deployment_name resume_text jd_text content = Some res
        /\ overall_score res = 0%Z).
Proof.
  intros Hlim.
  destruct (score_reply_fields deployment_name resume_text jd_text content
              Hlim) as (v & d & E & Ev & _).
  split.
  - intros pre sp ds post -> Hpre Hsp Hne Hds.
    eexists. split; [exact E|]. cbn [overall_score].
    unfold parse_overall_score, re_search in Ev.
    rewrite (search_from_skip _ _ _ _ Hpre),
      (search_from_hit _ _ _ _ (overall_score_attempt _ sp ds post Hsp Hne Hds))
      in Ev.
    unfold group in Ev. cbn in Ev.
    now apply int_or_raise_value in Ev.
  - intros Hnone. eexists. split; [exact E|]. cbn [overall_score].
    unfold parse_overall_score in Ev. rewrite Hnone in Ev. now inversion Ev.
Qed.

Lemma overall_score_leftmost_witness :
  digit_runs_within_limit (sample_preamble ++ sample_single_strength) = true
  /\ digit_runs_within_limit sample_coverage_reply = true
  /\ (exists res,
        score_reply [] [] [] (sample_preamble ++ sample_single_strength)
          = Some res
        /\ overall_score res = 87%Z)
  /\ (exists res,
        score_reply [] [] [] sample_coverage_reply = Some res
        /\ overall_score res = 0%Z).
Proof.
  split; [vm_compute; reflexivity|].
  split; [vm_compute; reflexivity|].
  split.
  - apply (proj1 (overall_score_leftmost [] [] []
                    (sample_preamble ++ sample_single_strength)
                    ltac:(vm_compute; reflexivity))
             sample_preamble (str " ") (str "87")
             (skipn 21 sample_single_strength));
      try (vm_compute; reflexivity).
    vm_compute. discriminate.
  - apply (proj2 (overall_score_leftmost [] [] [] sample_coverage_reply
                    ltac:(vm_compute; reflexivity))).
    vm_compute. reflexivity.
Defined.

(** The claim of C3 fails on a reply whose only line of the form
    [OVERALL_SCORE: n/100] declares 87: the pattern already matches inside the
    line before it, and the score returned is 5. *)
Lemma overall_score_not_the_declared_line :
  split_on nl sample_two_overall_scores
    = [str "OVERALL_SCORE: 5/1000"; str "OVERALL_SCORE: 87/100"]
  /\ exists res,
       score_reply [] [] [] sample_two_overall_scores = Some res
       /\ overall_score res = 5%Z
       /\ overall_score res <> 87%Z.
Proof.
  split; [vm_compute; reflexivity|].
  eexists. split; [vm_compute; reflexivity|].
  split; [reflexivity | discriminate].
Qed.

(** C5 (amended): when the reply holds no [HARD_REQUIREMENTS_MATCH:]
    header and none of its runs of digits is longer than the 4300 that [int]
    accepts, scoring returns a result, without raising, whose
    [hard_requirements_match] is the empty mapping. *)
Theorem missing_hard_requirements_section
  (deployment_name resume_text jd_text content : text) :
  digit_runs_within_limit content = true ->
  occurs (str "HARD_REQUIREMENTS_MATCH:") content = false ->
  exists res,
    score_resume_against_jd (replying content) deployment_name resume_text
      jd_text []
    = (inl res, [scoring_request deployment_name resume_text jd_text])
    /\ hard_requirements_match res = [].
Proof.
  intros Hlim H.
  destruct (score_reply_total deployment_name resume_text jd_text content
              Hlim) as (v & d & E & _).
  eexists. split; [exact E|]. cbn [hard_requirements_match].
  unfold parse_hard_requirements, re_search, re_hard_requirements, lit.
  cbn [Seq]. now rewrite search_from_no_header.
Qed.

Lemma missing_hard_requirements_section_witness :
  digit_runs_within_limit sample_unknown_label = true
  /\ occurs (str "HARD_REQUIREMENTS_MATCH:") sample_unknown_label = false
  /\ exists res,
       score_resume_against_jd (replying sample_unknown_label) [] [] [] []
       = (inl res, [scoring_request [] [] []])
       /\ hard_requirements_match res = [].
Proof.
  split; [vm_compute; reflexivity|].
  split; [vm_compute; reflexivity|].
  apply (missing_hard_requirements_section [] [] [] sample_unknown_label);
    vm_compute; reflexivity.
Defined.

(** The claim of C5 fails on a reply without a [HARD_REQUIREMENTS_MATCH:]
    header whose overall score is written with 4301 digits: [int] raises on
    the captured digits, and the handler turns the exception into
    [HTTPException] 500; no result is returned. *)
Lemma long_score_raises :
  occurs (str "HARD_REQUIREMENTS_MATCH:") sample_long_score = false
  /\ score_resume_against_jd (replying sample_long_score) [] [] [] []
     = (inr (HTTPException HTTP_500_INTERNAL_SERVER_ERROR
               (str "Error during AI scoring: Exceeds the limit (4300 digits) for integer string conversion: value has 4301 digits; use sys.set_int_max_str_digits() to increase the limit")),
        [scoring_request [] [] []]).
Proof.
  split; vm_compute; reflexivity.
Qed.

(** The claim of C6 fails on a reply with a line [Leadership: 40/100]: the
    label is not one of the five known ones and is a key of the result. *)
Lemma unknown_label_is_kept :
  exists res,
    score_reply [] [] [] sample_unknown_label = Some res
    /\ In (str "Leadership") (dict_keys (criteria_scores res))
    /\ ~ In (str "Leadership") known_criteria_labels.
Proof.
  eexists. split; [vm_compute; reflexivity|]. split.
  - right. left. reflexivity.
  - intros H. repeat (destruct H as [H|H]; [discriminate|]). exact H.
Qed.

(** C9 (amended): for a reply none of whose runs of digits is longer than
    the 4300 that [int] accepts, scoring returns a result whose overall
    score and whose values of [criteria_scores] are non-negative integers,
    read from the digits of the reply; nothing bounds them by 100. *)
Theorem scores_are_nonnegative
  (deployment_name resume_text jd_text content : text) :
  digit_runs_within_limit content = true ->
  exists res,
    score_reply deployment_name resume_text jd_text content = Some res
    /\ (0 <= overall_score res)%Z
    /\ Forall (fun v => (0 <= v)%Z) (dict_values (criteria_scores res)).
Proof.
  intros Hlim.
  destruct (score_reply_fields deployment_name resume_text jd_text content
              Hlim) as (v & d & E & _ & Hv & _ & Hd).
  eexists. split; [exact E|]. split; [exact Hv | exact Hd].
Qed.

Lemma scores_are_nonnegative_witness :
  digit_runs_within_limit sample_score_above_range = true
  /\ exists res,
       score_reply [] [] [] sample_score_above_range = Some res
       /\ (0 <= overall_score res)%Z
       /\ Forall (fun v => (0 <= v)%Z) (dict_values (criteria_scores res)).
Proof.
  split; [vm_compute; reflexivity|].
  apply (scores_are_nonnegative [] [] [] sample_score_above_range).
  vm_compute. reflexivity.
Defined.

(** The claim of C9 fails on a reply that declares 150 and 250: both are
    returned as they are. *)
Lemma scores_above_hundred :
  exists res,
    score_reply [] [] [] sample_score_above_range = Some res
    /\ overall_score res = 150%Z
    /\ ~ (0 <= overall_score res <= 100)%Z
    /\ dict_values (criteria_scores res) = [250%Z].
Proof.
  eexists. split; [vm_compute; reflexivity|].
  split; [reflexivity|]. split; [|reflexivity].
  cbn [overall_score]. lia.
Qed.

(** ** The bullet groups run to the end of the text *)

Lemma span_class (p : ascii -> bool) (t : text) :
  exists xs Y, t = xs ++ Y /\ forallb p xs = true
               /\ match Y with y :: _ => p y = false | [] => True end.
Proof.
  induction t as [|c t (xs & Y & E & Hxs & HY)].
  - exists [], []. auto.
  - destruct (p c) eqn:Hc.
    + exists (c :: xs), Y. subst t. simpl. rewrite Hc, Hxs. auto.
    + exists [], (c :: t). auto.
Qed.

Lemma star_greedy_all p xs k m pv cs n :
  forallb p xs = true -> length xs < n ->
  k (MState (char_before pv xs) [] cs) = Some m ->
  star_loop (run (Chr p)) true k n (MState pv xs cs) = Some m.
Proof.
  intros Hxs Hn Hk.
  pose proof (star_greedy_run p xs [] k m pv cs n Hxs I Hn Hk) as H.
  now rewrite app_nil_r in H.
Qed.

(** Under DOTALL the first bullet iteration already takes everything up to
    the end of the text, and there the lookahead holds when it holds at the
    end of any text: the group is the whole remainder. *)
Lemma bullet_block_to_end la kf pv t cs :
  (forall st, kf st = Some st) ->
  (forall pv' cs', run la (MState pv' [] cs') (fun st' => Some st')
                   = Some (MState pv' [] cs')) ->
  exists pv',
    run (Cat (Group 1 bullet_block) (Look la))
      (MState pv ("-"%char :: t) cs) kf
    = Some (MState pv' [] ((1, "-"%char :: t) :: cs)).
Proof.
  intros Hkf Hla.
  destruct (span_class isspace t) as (xs & Y & -> & Hxs & HY).
  exists (char_before (char_before (Some "-"%char) xs) Y).
  unfold bullet_block, Plus, dash, ws, dot_all, Opt, newline. cbn [Seq].
  rewrite run_Cat, run_Group, run_Cat, run_Cat, run_Chr_cons.
  change (is_char "-" "-") with true. cbv iota.
  rewrite run_Cat, run_Star. cbn [rest].
  apply star_greedy_run; [exact Hxs | exact HY | rewrite length_app; lia |].
  rewrite run_Cat, run_Star. cbn [rest].
  apply star_greedy_all; [now apply forallb_forall | lia |].
  cbn [run rest star_loop length]. unfold set_cap. cbn [prev rest caps].
  rewrite Hla, Hkf. cbn [prev rest caps].
  rewrite (consumed_app _ _ ("-"%char :: xs ++ Y)); [reflexivity|].
  cbn [rest]. now rewrite app_nil_r.
Qed.

Lemma search_from_found r s : forall p m,
  search_from r p s = Some m ->
  exists pre p' s', s = pre ++ s' /\ attempt r false p' s' = Some m.
Proof.
  induction s as [|c s IH]; intros p m H; cbn [search_from] in H.
  - destruct (attempt r false p []) eqn:E; [|discriminate].
    inversion H; subst. now exists [], p, [].
  - destruct (attempt r false p (c :: s)) eqn:E.
    + inversion H; subst. now exists [], p, (c :: s).
    + apply IH in H. destruct H as (pre & p' & s' & -> & H).
      now exists (c :: pre), p', s'.
Qed.

Lemma matches_suffix r st st' :
  matches r st st' -> exists xs, rest st = xs ++ rest st'.
Proof.
  intros H. induction H; try assumption; try (now exists []).
  - exists [c]. simpl. assumption.
  - destruct IHmatches1 as (xs & E1). destruct IHmatches2 as (ys & E2).
    exists (xs ++ ys). now rewrite E1, E2, app_assoc.
  - destruct IHmatches1 as (xs & E1). destruct IHmatches2 as (ys & E2).
    exists (xs ++ ys). now rewrite E1, E2, app_assoc.
Qed.

Lemma bullet_block_needs_dash la kf pv t cs m :
  run (Cat (Group 1 bullet_block) (Look la)) (MState pv t cs) kf = Some m ->
  exists t', t = "-"%char :: t'.
Proof.
  unfold bullet_block, Plus, dash. cbn [Seq].
  rewrite run_Cat, run_Group, run_Cat, run_Cat.
  destruct t as [|c t]; [rewrite run_Chr_nil; discriminate|].
  rewrite run_Chr_cons. destruct (is_char "-" c) eqn:E; [|discriminate].
  apply Ascii.eqb_eq in E. subst c. now exists t.
Qed.

(** After a head that captures nothing and a newline, the bullet group of a
    match is the remainder of the text, first bullet to last character. *)
Lemma bullet_capture_after h la p s m :
  (forall st st', matches h st st' -> caps st' = caps st) ->
  (forall pv' cs', run la (MState pv' [] cs') (fun st' => Some st')
                   = Some (MState pv' [] cs')) ->
  attempt (Cat h (Cat newline (Cat (Group 1 bullet_block) (Look la))))
    false p s = Some m ->
  rest m = []
  /\ exists before t, s = before ++ group 1 m /\ group 1 m = "-"%char :: t.
Proof.
  intros Hh Hla H. unfold attempt in H. cbn [andb] in H.
  rewrite run_Cat in H. apply run_sound in H. destruct H as (st1 & Hm & H).
  pose proof (Hh _ _ Hm) as Hc. apply matches_suffix in Hm.
  destruct Hm as (xs & Hs). destruct st1 as [pv1 r1 c1].
  cbn [rest caps] in Hs, Hc. subst c1.
  rewrite run_Cat in H. unfold newline in H.
  destruct r1 as [|c t]; [rewrite run_Chr_nil in H; discriminate|].
  rewrite run_Chr_cons in H.
  destruct (is_char nl c) eqn:Ec; [|discriminate].
  destruct (bullet_block_needs_dash _ _ _ _ _ _ H) as (t' & ->).
  destruct (bullet_block_to_end la (fun st' => Some st') (Some c) t' []
              (fun st => eq_refl) Hla) as (pv' & E).
  rewrite E in H. inversion H; subst m. cbn [rest]. split; [reflexivity|].
  exists (xs ++ [c]), t'. unfold group. cbn.
  split; [|reflexivity]. now rewrite Hs, <- app_assoc.
Qed.

Lemma section_head_captures_nothing name st st' :
  matches (Cat (Lit name) (Cat (Chr (is_char ":"%char)) (Star true ws)))
    st st' ->
  caps st' = caps st.
Proof.
  intros H. apply matches_Cat in H. destruct H as (st1 & H1 & H).
  apply matches_Cat in H. destruct H as (st2 & H2 & H3).
  apply matches_Lit in H1. apply matches_Chr in H2.
  apply matches_chr_star in H3.
  destruct H1 as [_ H1]. destruct H2 as (_ & _ & _ & H2).
  destruct H3 as (_ & _ & _ & H3). congruence.
Qed.

(** X7: Whenever [parse_section] finds its section, the span it captures is
    the remainder of the reply from the section's first bullet to the end of
    the text, whatever headers follow. *)
Lemma section_capture_runs_to_end section_name text_content m :
  re_search (re_section section_name) text_content = Some m ->
  rest m = []
  /\ exists before t,
       text_content = before ++ group 1 m /\ group 1 m = "-"%char :: t.
Proof.
  intros H. apply search_from_found in H.
  destruct H as (pre & p & s & -> & H).
  apply (bullet_capture_after
           (Cat (Lit section_name)
              (Cat (Chr (is_char ":"%char)) (Star true ws)))) in H;
    [|apply section_head_captures_nothing | reflexivity].
  destruct H as (Hr & before & t & Es & Eg).
  split; [exact Hr|]. exists (pre ++ before), t.
  split; [|exact Eg]. now rewrite Es, app_assoc.
Qed.

Lemma strengths_head_captures_nothing st st' :
  matches (Cat (lit "STRENGTHS:") (Star true ws)) st st' ->
  caps st' = caps st.
Proof.
  intros H. apply matches_Cat in H. destruct H as (st1 & H1 & H2).
  apply matches_Lit in H1. apply matches_chr_star in H2.
  destruct H1 as [_ H1]. destruct H2 as (_ & _ & _ & H2). congruence.
Qed.

(** The same holds for the strengths of a scoring reply. *)
Lemma strengths_capture_runs_to_end content m :
  re_search re_strengths content = Some m ->
  rest m = []
  /\ exists before t, content = before ++ group 1 m
                      /\ group 1 m = "-"%char :: t.
Proof.
  intros H. apply search_from_found in H.
  destruct H as (pre & p & s & -> & H).
  apply (bullet_capture_after (Cat (lit "STRENGTHS:") (Star true ws))) in H;
    [|apply strengths_head_captures_nothing | reflexivity].
  destruct H as (Hr & before & t & Es & Eg).
  split; [exact Hr|]. exists (pre ++ before), t.
  split; [|exact Eg]. now rewrite Es, app_assoc.
Qed.

(** X10: For every reply none of whose runs of digits is longer than the
    4300 that [int] accepts, scoring returns a result whose [strengths_text]
    is the sentinel or the stripped remainder of the reply from the first
    bullet on; it then starts with the hyphen of that bullet. *)
Lemma strengths_text_keeps_marker deployment_name resume_text jd_text content :
  digit_runs_within_limit content = true ->
  exists res,
    score_reply deployment_name resume_text jd_text content = Some res
    /\ (strengths_text res = str "Not explicitly found or format incorrect."
        \/ exists before t t',
             content = before ++ "-"%char :: t
             /\ strengths_text res = strip ("-"%char :: t)
             /\ strengths_text res = "-"%char :: t').
Proof.
  intros Hlim.
  destruct (score_reply_fields deployment_name resume_text jd_text content
              Hlim) as (v & d & E & _).
  eexists. split; [exact E|]. cbn [strengths_text]. unfold parse_strengths.
  destruct (re_search re_strengths content) as [m|] eqn:Em; [right | now left].
  apply strengths_capture_runs_to_end in Em.
  destruct Em as (_ & before & t & Ec & Eg). rewrite Eg in *.
  destruct (rstrip_keeps_head "-"%char t eq_refl) as (t' & Et).
  exists before, t, t'. split; [exact Ec|]. split; [reflexivity|].
  unfold strip. cbn [lstrip]. change (isspace "-") with false. cbv iota.
  exact Et.
Qed.

Lemma strengths_text_keeps_marker_witness :
  digit_runs_within_limit sample_single_strength = true
  /\ exists res,
       score_reply [] [] [] sample_single_strength = Some res
       /\ (strengths_text res
           = str "Not explicitly found or format incorrect."
           \/ exists before t t',
                sample_single_strength = before ++ "-"%char :: t
                /\ strengths_text res = strip ("-"%char :: t)
                /\ strengths_text res = "-"%char :: t').
Proof.
  split; [vm_compute; reflexivity|].
  apply (strengths_text_keeps_marker [] [] [] sample_single_strength).
  vm_compute. reflexivity.
Defined.

(** ** Numbered lists of one-line questions *)

(** A lazy repetition of a character class stops at the first position where
    the rest of the pattern succeeds. *)
Lemma star_lazy_run p xs Y k m : forall pv cs n,
  forallb p xs = true -> length xs < n ->
  fails_along k pv xs Y cs ->
  k (MState (char_before pv xs) Y cs) = Some m ->
  star_loop (run (Chr p)) false k n (MState pv (xs ++ Y) cs) = Some m.
Proof.
  induction xs as [|x xs IH]; intros pv cs n Hxs Hn Hf Hk;
    (destruct n as [|n]; [simpl in Hn; lia|]); cbn [star_loop app].
  - cbn [char_before] in Hk. now rewrite Hk.
  - cbn [fails_along app] in Hf. destruct Hf as [Hf0 Hf]. rewrite Hf0.
    cbn [forallb] in Hxs. apply andb_true_iff in Hxs.
    destruct Hxs as [Hx Hxs]. rewrite run_Chr_cons, Hx. cbn [rest].
    assert (L : (length (xs ++ Y) <? length (x :: xs ++ Y)) = true)
      by (apply Nat.ltb_lt; simpl; lia).
    rewrite L. apply IH; [exact Hxs | simpl in Hn; lia | exact Hf | exact Hk].
Qed.

Lemma scan_skip r s : forall xs p,
  scan r p (xs ++ s) (length xs) = scan r (char_before p xs) s 0.
Proof.
  induction xs as [|x xs IH]; intros p; [reflexivity|].
  cbn [app length scan char_before]. apply IH.
Qed.

Lemma strip_trimmed_id q :
  starts_with_space q = false -> ends_with_space q = false -> strip q = q.
Proof.
  intros Hs He. unfold strip, rstrip.
  assert (L : forall t, starts_with_space t = false -> lstrip t = t).
  { intros [|c t] H; [reflexivity|]. simpl in *. now rewrite H. }
  rewrite (L q Hs), (L (rev q) He). apply rev_involutive.
Qed.

Lemma look_ahead_off_newline pv x r cs kf :
  is_char nl x = false ->
  run (Look next_question_ahead) (MState pv (x :: r) cs) kf = None.
Proof.
  intros H. unfold next_question_ahead, newline. cbn [OneOf Seq].
  cbn [run rest at_end]. rewrite H. reflexivity.
Qed.

Lemma next_number_ahead pv d ds more cs :
  forallb isdigit (d :: ds) = true ->
  run (Seq [newline; Star true ws; Plus true digit; dot_or_paren])
    (MState pv (nl :: (d :: ds) ++ "."%char :: more) cs)
    (fun st' => Some st')
  = Some (MState (Some "."%char) more cs).
Proof.
  intros Hd. cbn [forallb] in Hd. apply andb_true_iff in Hd.
  destruct Hd as [Hd Hds].
  unfold newline, ws, digit, dot_or_paren, Plus. cbn [Seq].
  rewrite run_Cat, run_Chr_cons. change (is_char nl nl) with true. cbv iota.
  rewrite run_Cat, run_Star. cbn [rest].
  apply (star_greedy_run isspace []); cbn [app char_before];
    [reflexivity | now apply isdigit_not_space | simpl; lia |].
  rewrite run_Cat, run_Cat, run_Chr_cons, Hd, run_Star. cbn [rest].
  apply star_greedy_run; [exact Hds | reflexivity | rewrite length_app; lia |].
  rewrite run_Chr_cons. reflexivity.
Qed.

Lemma look_ahead_at_question_end pv tail cs kf :
  question_end tail ->
  run (Look next_question_ahead) (MState pv tail cs) kf
  = kf (MState pv tail cs).
Proof.
  intros [-> | (d & ds & more & Hd & ->)]; [reflexivity|].
  unfold next_question_ahead. cbn [OneOf]. cbn [run].
  rewrite (next_number_ahead pv d ds more cs Hd). reflexivity.
Qed.

Lemma one_line_question_facts q :
  one_line_question q = true ->
  q <> []
  /\ forallb (fun c => negb (is_char nl c)) q = true
  /\ starts_with_space q = false /\ ends_with_space q = false.
Proof.
  unfold one_line_question. intros H.
  apply andb_true_iff in H. destruct H as [H H4].
  apply andb_true_iff in H. destruct H as [H H3].
  apply andb_true_iff in H. destruct H as [H1 H2].
  apply negb_true_iff in H3, H4.
  repeat split; auto. intros ->. discriminate.
Qed.

Lemma look_ahead_fails_inside kf st0 xs Y : forall pv cs,
  forallb (fun c => negb (is_char nl c)) xs = true ->
  fails_along
    (fun st' => run (Look next_question_ahead) (set_cap 1 st0 st') kf)
    pv xs Y cs.
Proof.
  induction xs as [|x xs IH]; intros pv cs H; cbn [fails_along];
    [exact I|].
  cbn [forallb] in H. apply andb_true_iff in H. destruct H as [Hx H].
  apply negb_true_iff in Hx. split; [|now apply IH].
  unfold set_cap. cbn [prev rest caps app].
  now apply look_ahead_off_newline.
Qed.

(** The match of the numbered-question pattern at the start of a line
    [n. q] with a one-line question [q]: the group is [q]. *)
Lemma numbered_question_attempt p d ds q tail :
  at_line_start (MState p [] []) = true ->
  forallb isdigit (d :: ds) = true ->
  one_line_question q = true ->
  question_end tail ->
  attempt re_numbered_question false p ((d :: ds) ++ str ". " ++ q ++ tail)
  = Some (MState (char_before (Some " "%char) q) tail [(1, q)]).
Proof.
  intros Hp Hd Hq Htail.
  destruct (one_line_question_facts q Hq) as (Hne & Hnl & Hs & _).
  cbn [forallb] in Hd. apply andb_true_iff in Hd. destruct Hd as [Hd Hds].
  destruct q as [|c q]; [contradiction|]. cbn [starts_with_space] in Hs.
  unfold attempt, re_numbered_question, ws, digit, dot_or_paren, dot_all, Plus.
  cbn [Seq andb].
  rewrite run_Cat, run_Bol. unfold at_line_start in *. cbn [prev] in *.
  rewrite Hp, run_Cat, run_Star. cbn [rest].
  apply (star_greedy_run isspace []); cbn [app char_before];
    [reflexivity | now apply isdigit_not_space | simpl; lia |].
  rewrite run_Cat, run_Cat, run_Chr_cons, Hd, run_Star. cbn [rest].
  apply star_greedy_run; [exact Hds | reflexivity | rewrite length_app; lia |].
  rewrite run_Cat. cbn [str String.list_ascii_of_string app].
  rewrite run_Chr_cons. cbn [is_char Ascii.eqb orb]. cbv iota.
  rewrite run_Cat, run_Star. cbn [rest].
  apply (star_greedy_run isspace [" "%char]); cbn [app char_before];
    [reflexivity | exact Hs | simpl; lia |].
  rewrite run_Cat, run_Group, run_Star. cbn [rest].
  apply (star_lazy_run (fun _ => true) (c :: q) tail).
  - now apply forallb_forall.
  - cbn [length]. rewrite length_app. lia.
  - now apply look_ahead_fails_inside.
  - unfold set_cap. cbn [prev rest caps].
    rewrite look_ahead_at_question_end by exact Htail.
    rewrite (consumed_app _ _ (c :: q)); reflexivity.
Qed.

Lemma uint_digits d :
  forallb isdigit (str (DecimalString.NilEmpty.string_of_uint d)) = true.
Proof.
  induction d; cbn [DecimalString.NilEmpty.string_of_uint str
                    String.list_ascii_of_string forallb];
    [reflexivity | exact IHd ..].
Qed.

Lemma str_of_nat_digits n :
  exists d ds, str_of_nat n = d :: ds /\ forallb isdigit (d :: ds) = true.
Proof.
  unfold str_of_nat, DecimalString.NilZero.string_of_uint.
  pose proof (uint_digits (Nat.to_uint n)) as H.
  destruct (Nat.to_uint n);
    [exists "0"%char, []; split; reflexivity | ..];
    cbn [DecimalString.NilEmpty.string_of_uint str
         String.list_ascii_of_string] in *;
    eexists _, _; (split; [reflexivity | exact H]).
Qed.

Lemma numbered_from_lines qs : forall i,
  forallb one_line_question qs = true ->
  numbered_lines (numbered_from i qs) qs.
Proof.
  induction qs as [|q qs IH]; intros i H; cbn [numbered_from].
  - constructor.
  - cbn [forallb] in H. apply andb_true_iff in H. destruct H as [Hq H].
    destruct (str_of_nat_digits (i + 1)) as (d & ds & -> & Hd).
    constructor; auto.
Qed.

Lemma char_before_app xs : forall p ys,
  char_before p (xs ++ ys) = char_before (char_before p xs) ys.
Proof. induction xs as [|x xs IH]; intros p ys; [reflexivity | apply IH]. Qed.

Lemma char_before_off_newline q : forall p,
  q <> [] -> forallb (fun c => negb (is_char nl c)) q = true ->
  exists c, char_before p q = Some c /\ Ascii.eqb c nl = false.
Proof.
  induction q as [|x q IH]; intros p Hne H; [contradiction|].
  cbn [forallb] in H. apply andb_true_iff in H. destruct H as [Hx H].
  cbn [char_before]. destruct q as [|y q].
  - exists x. split; [reflexivity|]. apply negb_true_iff in Hx.
    unfold is_char in Hx. now rewrite Ascii.eqb_sym.
  - apply IH; [discriminate | exact H].
Qed.

Lemma numbered_question_attempt_nil p :
  attempt re_numbered_question false p [] = None.
Proof.
  unfold attempt, re_numbered_question. cbn [Seq].
  rewrite run_Cat, run_Bol. destruct (at_line_start _); reflexivity.
Qed.

Lemma numbered_question_attempt_mid_line c s :
  Ascii.eqb c nl = false ->
  attempt re_numbered_question false (Some c) s = None.
Proof.
  intros H. unfold attempt, re_numbered_question. cbn [Seq].
  rewrite run_Cat, run_Bol. unfold at_line_start. cbn [prev].
  now rewrite H.
Qed.

Lemma numbered_lines_tail lines qs :
  numbered_lines lines qs ->
  question_end (match lines with [] => [] | _ => nl :: join [nl] lines end).
Proof.
  intros H. destruct H as [|d ds q lines qs Hd Hq H]; [now left|].
  right. exists d, ds.
  exists (" "%char :: q
          ++ match lines with [] => [] | _ => nl :: join [nl] lines end).
  split; [exact Hd|]. f_equal.
  destruct lines; cbn [join str String.list_ascii_of_string app];
    rewrite <- ?app_assoc; cbn [app]; now rewrite ?app_nil_r.
Qed.

(** Scanning a numbered list of one-line questions from a line start finds
    one match per line, whose group is the question. *)
Lemma numbered_scan lines qs :
  numbered_lines lines qs ->
  forall p, at_line_start (MState p [] []) = true ->
  map (group 1) (scan re_numbered_question p (join [nl] lines) 0) = qs.
Proof.
  induction 1 as [|d ds q lines qs Hd Hq Hl IH]; intros p Hp.
  - cbn [join scan]. now rewrite numbered_question_attempt_nil.
  - set (tail := match lines with [] => [] | _ => nl :: join [nl] lines end).
    assert (Et : join [nl] (((d :: ds) ++ str ". " ++ q) :: lines)
                 = d :: (ds ++ str ". " ++ q) ++ tail).
    { subst tail. destruct lines; cbn [join app];
        rewrite <- ?app_assoc; cbn [app]; now rewrite ?app_nil_r. }
    rewrite Et. cbn [scan].
    pose proof (numbered_question_attempt p d ds q tail Hp Hd Hq
                  (numbered_lines_tail _ _ Hl)) as Ha.
    replace ((d :: ds) ++ str ". " ++ q ++ tail)
      with (d :: (ds ++ str ". " ++ q) ++ tail) in Ha
      by (cbn [app]; now rewrite <- !app_assoc).
    rewrite Ha. cbn [rest].
    replace (length (d :: (ds ++ str ". " ++ q) ++ tail) - length tail)
      with (S (length (ds ++ str ". " ++ q)))
      by (cbn [length]; rewrite !length_app; lia).
    cbn [map]. rewrite scan_skip. f_equal.
    destruct (one_line_question_facts q Hq) as (Hne & Hnl & _ & _).
    rewrite !char_before_app.
    destruct (char_before_off_newline q
                (char_before (char_before (Some d) ds) (str ". ")) Hne Hnl)
      as (c & -> & Hc).
    subst tail. destruct lines as [|l lines].
    + inversion Hl; subst. cbn [scan].
      now rewrite numbered_question_attempt_mid_line.
    + cbn [scan]. rewrite numbered_question_attempt_mid_line by exact Hc.
      now apply IH.
Qed.

(** The numbered-pattern pass already gives the questions of a numbered
    list of one-line questions back. *)
Lemma primary_pass_numbered qs :
  forallb one_line_question qs = true ->
  primary_pass (format_numbered qs) = qs.
Proof.
  intros H. unfold primary_pass, format_numbered, re_finditer.
  rewrite <- (map_map (group 1) strip),
    (numbered_scan _ _ (numbered_from_lines qs 0 H) None eq_refl).
  clear - H. induction qs as [|q qs IH]; [reflexivity|].
  cbn [forallb] in H. apply andb_true_iff in H. destruct H as [Hq H].
  destruct (one_line_question_facts q Hq) as (Hne & _ & Hs & He).
  cbn [map filter]. rewrite (strip_trimmed_id q Hs He), (IH H).
  destruct q; [contradiction | reflexivity].
Qed.

(** X1: Parsing the numbered list of one-line questions gives the questions
    back, in order. *)
Theorem numbered_list_round_trip qs :
  forallb one_line_question qs = true ->
  _parse_generated_questions (format_numbered qs) = qs.
Proof.
  intros H.
  pose proof (primary_pass_numbered qs H) as P.
  unfold _parse_generated_questions. rewrite P.
  destruct qs; [vm_compute | ]; reflexivity.
Qed.

(** C4: on a well-formed numbered list, the lines [1. q1], [2. q2], ... of
    one-line questions joined by newlines, the numbered-pattern pass of
    [_parse_generated_questions] extracts exactly the de-prefixed question
    texts, in order, and they are what the function returns, as many as
    there are lines; the fallback pass is not what produces them.  On
    ["1. A\n2. B\n3. C"] this is ["A"], ["B"], ["C"], of length 3. *)
Theorem parse_numbered_questions (qs : list text) :
  forallb one_line_question qs = true ->
  primary_pass (format_numbered qs) = qs
  /\ _parse_generated_questions (format_numbered qs)
     = primary_pass (format_numbered qs)
  /\ _parse_generated_questions (format_numbered qs) = qs
  /\ length (_parse_generated_questions (format_numbered qs)) = length qs.
Proof.
  intros H.
  pose proof (primary_pass_numbered qs H) as P.
  assert (E : _parse_generated_questions (format_numbered qs) = qs).
  { unfold _parse_generated_questions. rewrite P.
    destruct qs; [vm_compute | ]; reflexivity. }
  rewrite P, E. auto.
Qed.

Lemma parse_numbered_questions_witness :
  forallb one_line_question [str "A"; str "B"; str "C"] = true
  /\ format_numbered [str "A"; str "B"; str "C"] = sample_numbered_questions
  /\ primary_pass sample_numbered_questions = [str "A"; str "B"; str "C"]
  /\ _parse_generated_questions sample_numbered_questions
     = primary_pass sample_numbered_questions
  /\ _parse_generated_questions sample_numbered_questions
     = [str "A"; str "B"; str "C"]
  /\ length (_parse_generated_questions sample_numbered_questions) = 3.
Proof.
  split; [reflexivity|]. split; [reflexivity|].
  change sample_numbered_questions
    with (format_numbered [str "A"; str "B"; str "C"]).
  apply (parse_numbered_questions [str "A"; str "B"; str "C"]).
  reflexivity.
Defined.

(** ** Numbered questions *)

Lemma primary_pass_trimmed (question_text : text) :
  Forall trimmed (primary_pass question_text).
Proof.
  unfold primary_pass. apply filter_strip_trimmed.
  induction (re_finditer re_numbered_question question_text) as [|m l IH];
    simpl; constructor; [now eexists | exact IH].
Qed.

Lemma fallback_line_strip_images (line0 : text) :
  Forall (fun q => exists x, q = strip x) (fallback_line line0).
Proof.
  unfold fallback_line.
  destruct (re_match re_numbered_line (strip line0)).
  - constructor; [now eexists | constructor].
  - destruct (nonempty (strip line0)); repeat constructor. now eexists.
Qed.

Lemma fallback_pass_trimmed (question_text : text) :
  Forall trimmed (fallback_pass question_text).
Proof.
  unfold fallback_pass. apply filter_strip_trimmed.
  induction (split_on nl question_text) as [|line lines IH]; simpl.
  - constructor.
  - apply Forall_app. split; [apply fallback_line_strip_images | exact IH].
Qed.

(** C10: whatever the input text, every element of the list returned by
    [_parse_generated_questions] is a non-empty string without leading or
    trailing whitespace, in the numbered-pattern pass as in the line-splitting
    fallback pass. *)
Theorem parsed_questions_trimmed (question_text : text) :
  Forall trimmed (_parse_generated_questions question_text)
  /\ Forall trimmed (primary_pass question_text)
  /\ Forall trimmed (fallback_pass question_text).
Proof.
  split; [|split].
  - unfold _parse_generated_questions.
    destruct (primary_pass question_text) eqn:E.
    + apply fallback_pass_trimmed.
    + rewrite <- E. apply primary_pass_trimmed.
  - apply primary_pass_trimmed.
  - apply fallback_pass_trimmed.
Qed.

(** Without numbering the fallback pass keeps every non-empty line,
    stripped. *)
Example unnumbered_lines_fall_back :
  primary_pass sample_unnumbered_questions = []
  /\ _parse_generated_questions sample_unnumbered_questions
     = [str "Tell me about your last project.";
        str "What would you improve?"].
Proof. split; vm_compute; reflexivity. Qed.

(** ** Holistic evaluation *)

(** C2: with an empty question list, whatever the transcript, the JD and the
    resume, [evaluate_candidate_responses_holistically] returns the zero
    sentinel (overall score 0, no individual evaluation) and leaves the log of
    requests as it found it: the completion service is not called. *)
Theorem evaluate_without_questions (azure_openai_client : client)
  (deployment_name conversation_transcript jd_text resume_text : text)
  (log : list request) :
  exists r,
    evaluate_candidate_responses_holistically azure_openai_client
      deployment_name [] conversation_transcript jd_text resume_text log
      = (inl r, log)
    /\ overall_interview_score r = 0%Z
    /\ individual_evaluations r = [].
Proof.
  eexists. split; [reflexivity|]. split; reflexivity.
Qed.

(** A reply in the mandated format is read block by block. *)
Example mandated_evaluation_reply :
  parse_evaluation sample_evaluation_reply
  = inl (EvaluationResult
           [IndividualEvaluation (str "What is X?") (str "He said Y.") 7%Z
              (str "Good.");
            IndividualEvaluation (str "What is Z?")
              (str "No clear response found") 0%Z (str "Missing.")]
           55%Z (str "Fine overall.")).
Proof. vm_compute. reflexivity. Qed.

(** A score of 4301 digits makes the evaluation raise. *)
Example long_evaluation_score_raises :
  evaluate_candidate_responses_holistically
    (replying sample_long_evaluation_score) [] [str "What is X?"] [] [] [] []
  = (inr (HTTPException HTTP_500_INTERNAL_SERVER_ERROR
            (str "Error during holistic response evaluation: Exceeds the limit (4300 digits) for integer string conversion: value has 4301 digits; use sys.set_int_max_str_digits() to increase the limit")),
     [evaluation_request [] [str "What is X?"] [] [] []]).
Proof. vm_compute. reflexivity. Qed.

(** With at least one question the service is called exactly once. *)
Lemma evaluate_with_questions_calls_once (azure_openai_client : client)
  (deployment_name q : text) (qs : list text)
  (conversation_transcript jd_text resume_text : text) (log : list request) :
  snd (evaluate_candidate_responses_holistically azure_openai_client
         deployment_name (q :: qs) conversation_transcript jd_text resume_text
         log)
  = log ++ [evaluation_request deployment_name (q :: qs)
              conversation_transcript jd_text resume_text].
Proof.
  unfold evaluate_candidate_responses_holistically, try_except, bind, create,
    lift, raise.
  destruct (azure_openai_client _); simpl.
  - destruct (parse_evaluation _); reflexivity.
  - reflexivity.
Qed.

(** ** Coverage sections *)

(** C8: on a reply with the three sections of the mandated format, one
    bullet each, [parse_section] does not stop at the next all-caps header:
    the section of the covered questions also returns the bullets of the two
    sections after it, where the extraction the specification describes
    returns the one bullet of the section. *)
Theorem parse_section_runs_past_next_header :
  parse_section (str "COVERED_GENERATED_QUESTIONS") sample_coverage_reply
    = [str "Q1"; str "Q2"; str "Q3"]
  /\ spec_list_section (str "COVERED_GENERATED_QUESTIONS")
       sample_coverage_reply = [str "Q1"]
  /\ parse_section (str "UNCOVERED_GENERATED_QUESTIONS") sample_coverage_reply
    = [str "Q2"; str "Q3"]
  /\ spec_list_section (str "UNCOVERED_GENERATED_QUESTIONS")
       sample_coverage_reply = [str "Q2"].
Proof. repeat split; vm_compute; reflexivity. Qed.

(** ** Session resets *)

Module SessionFacts.
Import Session.

Lemma hash_eqb_true (a b : option text) : hash_eqb a b = true -> a = b.
Proof.
  destruct a as [x|], b as [y|]; simpl; try discriminate; try reflexivity.
  revert y. induction x as [|c x IH]; intros [|d y]; simpl;
    try discriminate; try reflexivity.
  intros H. apply andb_true_iff in H. destruct H as [Hc Hx].
  apply Ascii.eqb_eq in Hc. subst d.
  specialize (IH y Hx). now inversion IH.
Qed.

Lemma text_eqb_refl (x : text) : text_eqb x x = true.
Proof.
  induction x as [|c x IH]; simpl; [reflexivity|].
  now rewrite Ascii.eqb_refl, IH.
Qed.

Lemma hash_eqb_refl (a : option text) : hash_eqb a a = true.
Proof. destruct a; simpl; [apply text_eqb_refl | reflexivity]. Qed.

Lemma hash_eqb_false (a b : option text) : a <> b -> hash_eqb a b = false.
Proof.
  intros H. destruct (hash_eqb a b) eqn:E; [|reflexivity].
  apply hash_eqb_true in E. contradiction.
Qed.

(** C7: a rerun that sees a new resume hash resets every stage result, the
    AI-detection result included; a rerun that sees the same resume hash and a
    new JD hash resets the scoring, coverage and evaluation results and the
    conversation history, and leaves the AI-detection result as it was. *)
Theorem file_change_resets (json : Type) (st : session_state json)
  (resume_hash jd_hash transcript_hash : option text) :
  let st' := fst (handle_file_changes resume_hash jd_hash transcript_hash st) in
  (resume_hash <> st.(last_shared_resume_hash) ->
     st'.(jd_analysis_results) = None
     /\ st'.(ai_detection_results) = None
     /\ st'.(interview_analysis_results) = None
     /\ st'.(candidate_evaluation_results) = None
     /\ st'.(conversation_history) = [])
  /\ (resume_hash = st.(last_shared_resume_hash) ->
      jd_hash <> st.(last_jd_hash) ->
        st'.(jd_analysis_results) = None
        /\ st'.(interview_analysis_results) = None
        /\ st'.(candidate_evaluation_results) = None
        /\ st'.(conversation_history) = []
        /\ st'.(ai_detection_results) = st.(ai_detection_results)).
Proof.
  intros st'. subst st'. unfold handle_file_changes. split.
  - intros Hr. rewrite (hash_eqb_false _ _ Hr). simpl. repeat split.
  - intros Hr Hj. rewrite Hr, hash_eqb_refl, (hash_eqb_false _ _ Hj). simpl.
    repeat split.
Qed.

Lemma file_change_resets_witness :
  (fst (handle_file_changes (Some (str "r2")) (Some (str "j1")) None
          busy_session)).(ai_detection_results) = None
  /\ (fst (handle_file_changes (Some (str "r1")) (Some (str "j2")) None
             busy_session)).(ai_detection_results) = Some 2
  /\ (fst (handle_file_changes (Some (str "r1")) (Some (str "j2")) None
             busy_session)).(jd_analysis_results) = None.
Proof.
  pose proof (file_change_resets nat busy_session (Some (str "r2"))
                (Some (str "j1")) None) as H2.
  pose proof (file_change_resets nat busy_session (Some (str "r1"))
                (Some (str "j2")) None) as H1.
  cbv zeta in H1, H2.
  destruct H2 as [H2 _]. destruct H1 as [_ H1].
  split; [|split].
  - apply H2. discriminate.
  - rewrite (proj2 (proj2 (proj2 (proj2 (H1 eq_refl ltac:(discriminate)))))).
    reflexivity.
  - apply (H1 eq_refl). discriminate.
Defined.

End SessionFacts.

Module SessionFinalFacts.
Import SessionFinal.

(** X23: The single-file front end resets in the same way: everything on a new
    resume, everything but the AI-detection result on a new JD alone. *)
Lemma final_file_change_resets (json : Type) (st : session_state json)
  (resume_hash jd_hash transcript_hash : option text) :
  let st' := fst (handle_file_changes resume_hash jd_hash transcript_hash st) in
  (resume_hash <> st.(last_shared_resume_hash) ->
     st'.(jd_analysis_results) = None
     /\ st'.(ai_detection_results) = None
     /\ st'.(interview_analysis_results) = None
     /\ st'.(candidate_evaluation_results) = None
     /\ st'.(conversation_history) = [])
  /\ (resume_hash = st.(last_shared_resume_hash) ->
      jd_hash <> st.(last_jd_hash) ->
        st'.(jd_analysis_results) = None
        /\ st'.(interview_analysis_results) = None
        /\ st'.(candidate_evaluation_results) = None
        /\ st'.(conversation_history) = []
        /\ st'.(ai_detection_results) = st.(ai_detection_results)).
Proof.
  intros st'. subst st'. unfold handle_file_changes. split.
  - intros Hr. rewrite (SessionFacts.hash_eqb_false _ _ Hr). cbn [negb].
    cbn [on_resume_change last_jd_hash].
    destruct (negb (Session.hash_eqb jd_hash (last_jd_hash st)));
      cbn [on_jd_change last_conversation_transcript_hash];
      destruct (negb (Session.hash_eqb transcript_hash _));
      simpl; repeat split.
  - intros Hr Hj.
    rewrite Hr, SessionFacts.hash_eqb_refl. cbn [negb].
    rewrite (SessionFacts.hash_eqb_false _ _ Hj).
    cbn [negb on_jd_change last_conversation_transcript_hash].
    destruct (negb (Session.hash_eqb transcript_hash _));
      simpl; repeat split.
Qed.

End SessionFinalFacts.


(** * Further properties *)

(** ** Numbered lists *)

(** The round trip on a list of twelve questions. *)
Lemma numbered_list_round_trip_witness :
  forallb one_line_question sample_twelve_questions = true
  /\ _parse_generated_questions (format_numbered sample_twelve_questions)
     = sample_twelve_questions.
Proof.
  split; [vm_compute; reflexivity|].
  apply numbered_list_round_trip. vm_compute. reflexivity.
Defined.

(** ** Every function sends one request and wraps the failure *)

(** X2: whatever the service does, each of the five functions sends exactly
    one request (the evaluation when it has a question to evaluate): there is
    no retry. When the service fails with message [e], what leaves the
    function is an [HTTPException] of status 500 whose detail is the prefix of
    the function followed by [e]. *)
Theorem one_request_and_http_500 (c : client)
  (d r j t e q : text) (qs : list text) (ms : list message)
  (log : list request) :
  (snd (score_resume_against_jd c d r j log) = log ++ [scoring_request d r j]
   /\ snd (answer_follow_up_question c d ms log)
      = log ++ [Request d ms 1000]
   /\ snd (generate_interview_questions c d r j log)
      = log ++ [questions_request d r j]
   /\ snd (analyze_interview_questions c d q t log)
      = log ++ [coverage_request d q t]
   /\ snd (evaluate_candidate_responses_holistically c d (q :: qs) t j r log)
      = log ++ [evaluation_request d (q :: qs) t j r])
  /\ (fst (score_resume_against_jd (failing e) d r j log)
      = inr (HTTPException 500 (str "Error during AI scoring: " ++ e))
      /\ fst (answer_follow_up_question (failing e) d ms log)
         = inr (HTTPException 500
                  (str "Sorry, I couldn't answer that question due to an AI processing error: "
                   ++ e))
      /\ fst (generate_interview_questions (failing e) d r j log)
         = inr (HTTPException 500
                  (str "Sorry, I couldn't generate interview questions due to an AI processing error: "
                   ++ e))
      /\ fst (analyze_interview_questions (failing e) d q t log)
         = inr (HTTPException 500
                  (str "Error during interview question analysis: " ++ e))
      /\ fst (evaluate_candidate_responses_holistically (failing e) d
                (q :: qs) t j r log)
         = inr (HTTPException 500
                  (str "Error during holistic response evaluation: " ++ e))).
Proof.
  split; [|repeat split].
  unfold score_resume_against_jd, answer_follow_up_question,
    generate_interview_questions, analyze_interview_questions,
    evaluate_candidate_responses_holistically, try_except, bind, create, lift,
    raise, ret, questions_request, coverage_request.
  repeat split.
  - destruct (c (scoring_request d r j)); cbn [fst snd];
      [destruct (parse_scoring _)|]; reflexivity.
  - destruct (c (Request d ms 1000)); reflexivity.
  - destruct (c _); reflexivity.
  - destruct (c _); reflexivity.
  - destruct (c (evaluation_request d (q :: qs) t j r)); cbn [fst snd];
      [destruct (parse_evaluation _)|]; reflexivity.
Qed.


(** ** Scoring and evaluation return on replies within the limit of [int] *)

(** X3: whenever the service answers the scoring request with a text none
    of whose runs of digits is longer than the 4300 that [int] accepts,
    [score_resume_against_jd] returns a result and does not raise: the raw
    text is the answer, the overall score and every criteria score is a
    non-negative integer, every criteria key is a stripped label. *)
Theorem scoring_returns_within_limit (c : client)
  (deployment_name resume_text jd_text content : text)
  (log : list request) :
  c (scoring_request deployment_name resume_text jd_text)
    = Completion content ->
  digit_runs_within_limit content = true ->
  exists res,
    score_resume_against_jd c deployment_name resume_text jd_text log
    = (inl res, log ++ [scoring_request deployment_name resume_text jd_text])
    /\ analysis_raw res = content
    /\ (0 <= overall_score res)%Z
    /\ Forall (fun v => (0 <= v)%Z) (dict_values (criteria_scores res))
    /\ Forall (fun k => criteria_key k = true)
         (dict_keys (criteria_scores res)).
Proof.
  intros Hc Hlim.
  destruct (parse_overall_score_total content Hlim) as (v & Ev & Hv).
  destruct (parse_criteria_scores_total content Hlim) as (d & Ed & Hk & Hd).
  eexists. split.
  - unfold score_resume_against_jd, try_except, bind, create, lift,
      parse_scoring.
    rewrite Hc, Ev, Ed. reflexivity.
  - cbn [analysis_raw overall_score criteria_scores]. auto.
Qed.

Lemma scoring_returns_within_limit_witness :
  scoring_only_service sample_score_above_range (scoring_request [] [] [])
    = Completion sample_score_above_range
  /\ digit_runs_within_limit sample_score_above_range = true
  /\ exists res,
       score_resume_against_jd (scoring_only_service sample_score_above_range)
         [] [] [] []
       = (inl res, [] ++ [scoring_request [] [] []])
       /\ analysis_raw res = sample_score_above_range
       /\ (0 <= overall_score res)%Z
       /\ Forall (fun v => (0 <= v)%Z) (dict_values (criteria_scores res))
       /\ Forall (fun k => criteria_key k = true)
            (dict_keys (criteria_scores res)).
Proof.
  split; [reflexivity|]. split; [vm_compute; reflexivity|].
  apply (scoring_returns_within_limit
           (scoring_only_service sample_score_above_range) [] [] []
           sample_score_above_range []);
    [reflexivity | vm_compute; reflexivity].
Defined.

Lemma matches_group_free r st st' :
  matches r st st' -> group_free r = true -> caps st' = caps st.
Proof.
  intros H. induction H; cbn [group_free]; intros G;
    try reflexivity; try discriminate.
  - apply andb_true_iff in G. destruct G as [Ga Gb].
    now rewrite (IHmatches2 Gb), (IHmatches1 Ga).
  - apply andb_true_iff in G. destruct G as [Ga _]. auto.
  - apply andb_true_iff in G. destruct G as [_ Gb]. auto.
  - cbn [group_free] in *. now rewrite (IHmatches2 G), (IHmatches1 G).
  - cbn [caps]. auto.
Qed.

Lemma matches_plain_group i a st st' :
  group_free a = true -> matches (Group i a) st st' ->
  exists s, caps st' = (i, s) :: caps st.
Proof.
  intros G H. apply matches_Group in H. destruct H as (st1 & H & _ & Hc).
  rewrite Hc, (matches_group_free _ _ _ H G). now eexists.
Qed.

Lemma eval_overall_score_capture m :
  match_of re_eval_overall_score m ->
  group 1 m <> [] /\ forallb isdigit (group 1 m) = true.
Proof.
  intros (p & s & H). unfold re_eval_overall_score in H. cbn [Seq] in H.
  apply matches_Cat in H. destruct H as (st1 & H1 & H).
  apply matches_Cat in H. destruct H as (st2 & H2 & H).
  apply matches_Cat in H. destruct H as (st3 & H3 & H4).
  apply matches_digits_group in H3. destruct H3 as (ds & Hc & Hne & Hd).
  apply matches_Lit in H4. destruct H4 as [_ H4].
  unfold group. rewrite H4, Hc. simpl. auto.
Qed.

Lemma eval_block_capture m :
  match_of re_eval_block m ->
  group 3 m <> [] /\ forallb isdigit (group 3 m) = true.
Proof.
  intros (p & s & H). unfold re_eval_block in H. cbn [Seq OneOf] in H.
  apply matches_Cat in H. destruct H as (s1 & _ & H).
  apply matches_Cat in H. destruct H as (s2 & _ & H).
  apply matches_Cat in H. destruct H as (s3 & _ & H).
  apply matches_Cat in H. destruct H as (s4 & _ & H).
  apply matches_Cat in H. destruct H as (s5 & _ & H).
  apply matches_Cat in H. destruct H as (s6 & _ & H).
  apply matches_Cat in H. destruct H as (s7 & _ & H).
  apply matches_Cat in H. destruct H as (s8 & H8 & H).
  apply matches_Cat in H. destruct H as (s9 & H9 & H).
  apply matches_Cat in H. destruct H as (s10 & H10 & H).
  apply matches_Cat in H. destruct H as (s11 & H11 & H).
  apply matches_Cat in H. destruct H as (s12 & H12 & H13).
  apply matches_digits_group in H8. destruct H8 as (ds & Hc8 & Hne & Hd).
  apply matches_Lit in H9. destruct H9 as [_ Hc9].
  apply matches_Chr in H10. destruct H10 as (_ & _ & _ & Hc10).
  apply matches_Lit in H11. destruct H11 as [_ Hc11].
  apply matches_plain_group in H12; [|reflexivity].
  destruct H12 as (s4' & Hc12).
  apply matches_group_free in H13; [|reflexivity].
  unfold group. rewrite H13, Hc12, Hc11, Hc10, Hc9, Hc8. simpl. auto.
Qed.

Lemma blocks_loop_total content blocks :
  digit_runs_within_limit content = true ->
  Forall (match_in re_eval_block content) blocks ->
  exists evaluations,
    blocks_loop blocks = inl evaluations
    /\ Forall (fun ev => (0 <= score ev)%Z) evaluations
    /\ length evaluations = length blocks.
Proof.
  intros Hlim.
  induction 1 as [|m blocks Hm _ (evs & E & Hs & Hl)]; cbn [blocks_loop].
  - exists []. repeat split. constructor.
  - destruct (eval_block_capture m (match_in_match_of _ _ _ Hm))
      as [Hne Hd].
    rewrite (int_of_digits _ Hne Hd
               (captured_digits_short _ _ _ 3 Hm Hlim Hd)), E.
    eexists. split; [reflexivity|].
    split; [|simpl; now rewrite Hl].
    constructor; [|exact Hs]. cbn [score]. now apply digits_value_nonneg.
Qed.

Lemma parse_evaluation_total content :
  digit_runs_within_limit content = true ->
  exists res,
    parse_evaluation content = inl res
    /\ (0 <= overall_interview_score res)%Z
    /\ Forall (fun ev => (0 <= score ev)%Z) (individual_evaluations res)
    /\ length (individual_evaluations res)
       = length (re_finditer re_eval_block content).
Proof.
  intros Hlim.
  destruct (blocks_loop_total content _ Hlim
              (re_finditer_in re_eval_block content))
    as (evs & E & Hs & Hl).
  unfold parse_evaluation. rewrite E.
  destruct (re_search re_eval_overall_score content) as [m|] eqn:Em.
  - apply re_search_in in Em.
    destruct (eval_overall_score_capture m (match_in_match_of _ _ _ Em))
      as [Hne Hd].
    rewrite (int_of_digits _ Hne Hd
               (captured_digits_short _ _ _ 1 Em Hlim Hd)).
    eexists. split; [reflexivity|].
    cbn [overall_interview_score individual_evaluations].
    split; [now apply digits_value_nonneg | auto].
  - eexists. split; [reflexivity|].
    cbn [overall_interview_score individual_evaluations].
    split; [lia | auto].
Qed.

(** X4: with at least one question, whenever the service answers the
    evaluation request with a text none of whose runs of digits is longer
    than the 4300 that [int] accepts, the evaluation returns a result and
    does not raise: the overall score and the score of every block are
    non-negative integers, and there is one evaluation per block of the
    stripped answer that the block pattern matches. *)
Theorem evaluation_returns_within_limit (c : client)
  (deployment_name q : text) (qs : list text)
  (conversation_transcript jd_text resume_text content : text)
  (log : list request) :
  c (evaluation_request deployment_name (q :: qs) conversation_transcript
       jd_text resume_text) = Completion content ->
  digit_runs_within_limit content = true ->
  exists res,
    evaluate_candidate_responses_holistically c deployment_name (q :: qs)
      conversation_transcript jd_text resume_text log
    = (inl res,
       log ++ [evaluation_request deployment_name (q :: qs)
                 conversation_transcript jd_text resume_text])
    /\ (0 <= overall_interview_score res)%Z
    /\ Forall (fun ev => (0 <= score ev)%Z) (individual_evaluations res)
    /\ length (individual_evaluations res)
       = length (re_finditer re_eval_block (strip content)).
Proof.
  intros Hc Hlim.
  destruct (parse_evaluation_total (strip content)
              (digit_runs_within_limit_strip _ Hlim)) as (res & E & H).
  exists res. split; [|exact H].
  unfold evaluate_candidate_responses_holistically, try_except, bind, create,
    lift.
  rewrite Hc, E. reflexivity.
Qed.

Lemma evaluation_returns_within_limit_witness :
  replying sample_evaluation_reply
    (evaluation_request [] [str "What is X?"; str "What is Z?"] [] [] [])
    = Completion sample_evaluation_reply
  /\ digit_runs_within_limit sample_evaluation_reply = true
  /\ exists res,
       evaluate_candidate_responses_holistically
         (replying sample_evaluation_reply) []
         [str "What is X?"; str "What is Z?"] [] [] [] []
       = (inl res,
          [] ++ [evaluation_request [] [str "What is X?"; str "What is Z?"]
                   [] [] []])
       /\ (0 <= overall_interview_score res)%Z
       /\ Forall (fun ev => (0 <= score ev)%Z) (individual_evaluations res)
       /\ length (individual_evaluations res)
          = length (re_finditer re_eval_block (strip sample_evaluation_reply)).
Proof.
  split; [reflexivity|]. split; [vm_compute; reflexivity|].
  apply (evaluation_returns_within_limit (replying sample_evaluation_reply)
           [] (str "What is X?") [str "What is Z?"] [] [] []
           sample_evaluation_reply []);
    [reflexivity | vm_compute; reflexivity].
Defined.


(** ** What [parse_section] returns *)

Lemma spaces_have_no_nonspace s :
  forallb isspace s = true -> existsb nonspace s = false.
Proof.
  induction s as [|c s IH]; cbn [forallb existsb]; [reflexivity|].
  intros H. apply andb_true_iff in H. destruct H as [Hc H].
  unfold nonspace at 1. now rewrite Hc, (IH H).
Qed.

Lemma strip_keeps_nonspace s :
  existsb nonspace s = true -> strip s <> [].
Proof.
  intros H E. destruct (strip_decomp s) as (sp & sp' & Es & H1 & H2).
  rewrite E in Es. cbn [app] in Es. rewrite Es, existsb_app in H.
  rewrite (spaces_have_no_nonspace _ H1), (spaces_have_no_nonspace _ H2) in H.
  discriminate.
Qed.

Lemma no_trailing_space_has_nonspace s :
  s <> [] -> ends_with_space s = false -> existsb nonspace s = true.
Proof.
  intros Hne He. unfold ends_with_space in He.
  destruct (rev s) as [|c t] eqn:Er.
  - apply (f_equal (@rev ascii)) in Er. rewrite rev_involutive in Er.
    contradiction.
  - cbn [starts_with_space] in He. apply existsb_exists. exists c.
    split; [|unfold nonspace; now rewrite He].
    apply in_rev. rewrite Er. now left.
Qed.

(** What follows the first two characters of a line whose stripped form
    starts with the bullet marker is not blank. *)
Lemma bullet_line_rest line :
  startswith bullet_marker (strip line) = true ->
  existsb nonspace (skipn 2 line) = true.
Proof.
  intros Hs.
  destruct (strip_decomp line) as (sp & sp' & E & _ & _).
  pose proof (rstrip_no_trailing_space (lstrip line)) as He.
  fold (strip line) in He.
  unfold bullet_marker in Hs.
  destruct (strip line) as [|a [|b r]];
    cbn [str String.list_ascii_of_string startswith] in Hs;
    [discriminate | now rewrite andb_false_r in Hs |].
  apply andb_true_iff in Hs. destruct Hs as [Ha Hs].
  apply andb_true_iff in Hs. destruct Hs as [Hb _].
  apply Ascii.eqb_eq in Ha, Hb. subst a b.
  assert (Hr : existsb nonspace r = true).
  { destruct r as [|c r]; [discriminate He|].
    apply no_trailing_space_has_nonspace; [discriminate|].
    unfold ends_with_space in *. cbn [rev] in *.
    destruct (rev r ++ [c]) eqn:Er; [now destruct (rev r)|].
    cbn [app starts_with_space] in *. exact He. }
  rewrite E. destruct sp as [|x [|y sp]]; cbn [app skipn];
    rewrite ?existsb_app; cbn [existsb]; rewrite ?existsb_app, Hr;
    rewrite ?orb_true_r; reflexivity.
Qed.

Lemma section_lines_trimmed lines : Forall trimmed (section_lines lines).
Proof.
  induction lines as [|line lines IH]; cbn [section_lines]; [constructor|].
  destruct (startswith bullet_marker (strip line)) eqn:Hs; [|exact IH].
  constructor; [|exact IH].
  apply strip_trimmed.
  pose proof (strip_keeps_nonspace _ (bullet_line_rest _ Hs)) as Hne.
  destruct (strip (skipn 2 line)); [contradiction | reflexivity].
Qed.

(** X5: whenever the service answers the coverage request, whatever the text
    of the answer, [analyze_interview_questions] returns a result: each of the
    three lists holds only non-empty questions without whitespace at either
    end, the raw text is the stripped answer, and the count is the number of
    questions parsed from the text that was passed in. *)
Theorem coverage_returns_trimmed_questions (c : client)
  (deployment_name ai_generated_questions_text conversation_transcript
     content : text) (log : list request) :
  c (coverage_request deployment_name ai_generated_questions_text
       conversation_transcript) = Completion content ->
  exists res,
    analyze_interview_questions c deployment_name ai_generated_questions_text
      conversation_transcript log
    = (inl res,
       log ++ [coverage_request deployment_name ai_generated_questions_text
                 conversation_transcript])
    /\ coverage_raw res = strip content
    /\ Forall trimmed (covered_generated_questions res)
    /\ Forall trimmed (uncovered_generated_questions res)
    /\ Forall trimmed (interviewer_own_questions res)
    /\ original_ai_generated_count res
       = length (_parse_generated_questions ai_generated_questions_text).
Proof.
  intros Hc. eexists. split.
  - unfold analyze_interview_questions, try_except, bind, create, ret.
    unfold coverage_request in Hc. rewrite Hc. reflexivity.
  - cbn [coverage_raw covered_generated_questions
         uncovered_generated_questions interviewer_own_questions
         original_ai_generated_count].
    repeat split; unfold parse_section;
      destruct (re_search _ _); try constructor; apply section_lines_trimmed.
Qed.

Lemma coverage_returns_trimmed_questions_witness :
  replying sample_coverage_reply
    (coverage_request [] sample_numbered_questions []) 
    = Completion sample_coverage_reply
  /\ exists res,
       analyze_interview_questions (replying sample_coverage_reply) []
         sample_numbered_questions [] []
       = (inl res, [] ++ [coverage_request [] sample_numbered_questions []])
       /\ coverage_raw res = strip sample_coverage_reply
       /\ Forall trimmed (covered_generated_questions res)
       /\ Forall trimmed (uncovered_generated_questions res)
       /\ Forall trimmed (interviewer_own_questions res)
       /\ original_ai_generated_count res
          = length (_parse_generated_questions sample_numbered_questions).
Proof.
  split; [reflexivity|].
  apply (coverage_returns_trimmed_questions (replying sample_coverage_reply)
           [] sample_numbered_questions [] sample_coverage_reply []).
  reflexivity.
Defined.


(** ** The last section of a reply is read as written *)

Lemma split_on_app_sep l rest0 :
  forallb (fun c => negb (is_char nl c)) l = true ->
  split_on nl (l ++ nl :: rest0) = l :: split_on nl rest0.
Proof.
  induction l as [|c l IH]; intros H; cbn [app split_on].
  - now rewrite Ascii.eqb_refl.
  - cbn [forallb] in H. apply andb_true_iff in H. destruct H as [Hc H].
    apply negb_true_iff in Hc. unfold is_char in Hc.
    rewrite Ascii.eqb_sym, Hc, (IH H). reflexivity.
Qed.

Lemma split_on_no_sep l :
  forallb (fun c => negb (is_char nl c)) l = true -> split_on nl l = [l].
Proof.
  induction l as [|c l IH]; intros H; cbn [split_on]; [reflexivity|].
  cbn [forallb] in H. apply andb_true_iff in H. destruct H as [Hc H].
  apply negb_true_iff in Hc. unfold is_char in Hc.
  rewrite Ascii.eqb_sym, Hc, (IH H). reflexivity.
Qed.

(** Splitting the lines that were joined gives the lines back. *)
Lemma split_join_lines ls : forall l,
  Forall (fun x => forallb (fun c => negb (is_char nl c)) x = true)
    (l :: ls) ->
  split_on nl (join [nl] (l :: ls)) = l :: ls.
Proof.
  induction ls as [|l2 ls IH]; intros l H; inversion H as [|? ? Hl Hls]; subst.
  - cbn [join]. now apply split_on_no_sep.
  - change (join [nl] (l :: l2 :: ls)) with (l ++ nl :: join [nl] (l2 :: ls)).
    rewrite (split_on_app_sep _ _ Hl), (IH l2 Hls). reflexivity.
Qed.

Lemma ends_with_space_app x y :
  y <> [] -> ends_with_space (x ++ y) = ends_with_space y.
Proof.
  intros Hy. unfold ends_with_space. rewrite rev_app_distr.
  destruct (rev y) eqn:E; [|reflexivity].
  apply (f_equal (@rev ascii)) in E. rewrite rev_involutive in E.
  contradiction.
Qed.

Lemma bullet_line_facts b :
  one_line_question b = true ->
  forallb (fun c => negb (is_char nl c)) (bullet_marker ++ b) = true
  /\ ends_with_space (bullet_marker ++ b) = false
  /\ strip b = b.
Proof.
  intros H. destruct (one_line_question_facts b H) as (Hne & Hnl & Hs & He).
  split; [|split].
  - unfold bullet_marker. cbn [str String.list_ascii_of_string app forallb].
    now rewrite Hnl.
  - now rewrite ends_with_space_app.
  - now apply strip_trimmed_id.
Qed.

Lemma section_lines_of_bullets bs :
  forallb one_line_question bs = true ->
  section_lines (bullet_lines bs) = bs.
Proof.
  induction bs as [|b bs IH]; intros H; [reflexivity|].
  cbn [forallb] in H. apply andb_true_iff in H. destruct H as [Hb H].
  destruct (bullet_line_facts b Hb) as (_ & He & Hs).
  cbn [bullet_lines map section_lines]. fold (bullet_lines bs).
  rewrite (strip_trimmed_id (bullet_marker ++ b) eq_refl He).
  unfold bullet_marker.
  cbn [str String.list_ascii_of_string app startswith skipn].
  rewrite !Ascii.eqb_refl. cbn [andb]. now rewrite Hs, (IH H).
Qed.

Lemma joined_bullets_end bs : forall b,
  forallb one_line_question (b :: bs) = true ->
  ends_with_space (join [nl] (bullet_lines (b :: bs))) = false.
Proof.
  induction bs as [|b2 bs IH]; intros b H; cbn [forallb] in H;
    apply andb_true_iff in H; destruct H as [Hb H].
  - cbn [bullet_lines map join]. now destruct (bullet_line_facts b Hb).
  - change (join [nl] (bullet_lines (b :: b2 :: bs)))
      with ((bullet_marker ++ b) ++ nl :: join [nl] (bullet_lines (b2 :: bs))).
    rewrite ends_with_space_app by discriminate.
    change (nl :: join [nl] (bullet_lines (b2 :: bs)))
      with ([nl] ++ join [nl] (bullet_lines (b2 :: bs))).
    rewrite ends_with_space_app; [now apply IH|].
    cbn [bullet_lines map]. destruct bs; discriminate.
Qed.

Lemma joined_bullets_start b bs :
  exists t, join [nl] (bullet_lines (b :: bs)) = "-"%char :: t.
Proof.
  destruct bs; cbn [bullet_lines map join]; unfold bullet_marker;
    cbn [str String.list_ascii_of_string app]; now eexists.
Qed.

(** The match of a section pattern at the header when the bullets follow it
    directly: the group is everything after the header line. *)
Lemma section_attempt section_name p t :
  exists pv',
    attempt (re_section section_name) false p
      (section_name ++ [colon] ++ [nl] ++ "-"%char :: t)
    = Some (MState pv' [] [(1, "-"%char :: t)]).
Proof.
  destruct (bullet_block_to_end
              (OneOf [Seq [newline; Plus true (Chr header_char);
                           Chr (is_char ":"%char)];
                      Seq [newline; Eos];
                      EolM])
              (fun st' => Some st') (Some nl) t []
              (fun st => eq_refl) (fun pv' cs' => eq_refl)) as (pv' & E).
  exists pv'. unfold attempt, re_section, ws, newline. cbn [Seq andb].
  rewrite run_Cat, run_Lit_app, run_Cat. cbn [app].
  rewrite run_Chr_cons. change (is_char ":" colon) with true. cbv iota.
  rewrite run_Cat, run_Star. cbn [rest length star_loop].
  rewrite run_Chr_cons. change (isspace nl) with true. cbv iota.
  cbn [rest length].
  assert (L : (S (length t) <? S (S (length t))) = true)
    by (apply Nat.ltb_lt; lia).
  rewrite L, run_Chr_cons. change (isspace "-") with false. cbv iota.
  rewrite run_Cat, !run_Chr_cons.
  change (is_char nl "-") with false. change (is_char nl nl) with true.
  cbv iota. exact E.
Qed.

(** X6: when the section is the last thing of the reply, written as the prompt
    asks (header, colon, newline, one [- ] line per item), and nothing before
    it matches the section pattern, [parse_section] returns exactly the items,
    in order. *)
Theorem last_section_round_trip (section_name pre : text) (bs : list text) :
  bs <> [] ->
  forallb one_line_question bs = true ->
  matches_inside (re_section section_name) None pre
    (section_text section_name bs) = false ->
  parse_section section_name (pre ++ section_text section_name bs) = bs.
Proof.
  intros Hne Hbs Hpre. destruct bs as [|b bs]; [contradiction|].
  destruct (joined_bullets_start b bs) as (t & Et).
  unfold parse_section, re_search.
  rewrite (search_from_skip _ _ _ _ Hpre). unfold section_text. rewrite Et.
  destruct (section_attempt section_name (char_before None pre) t)
    as (pv' & Ea).
  rewrite (search_from_hit _ _ _ _ Ea). unfold group.
  cbn [caps lookup_cap Nat.eqb]. rewrite <- Et.
  rewrite strip_trimmed_id;
    [| rewrite Et; reflexivity | now apply joined_bullets_end].
  cbn [bullet_lines map]. fold (bullet_lines bs).
  rewrite split_join_lines.
  - now apply (section_lines_of_bullets (b :: bs)).
  - change (Forall
              (fun x => forallb (fun c => negb (is_char nl c)) x = true)
              (bullet_lines (b :: bs))).
    clear - Hbs. induction (b :: bs) as [|x xs IH]; [constructor|].
    cbn [forallb] in Hbs. apply andb_true_iff in Hbs.
    destruct Hbs as [Hx Hxs]. constructor; [|now apply IH].
    now destruct (bullet_line_facts x Hx).
Qed.

Lemma last_section_round_trip_witness :
  sample_own_questions <> []
  /\ forallb one_line_question sample_own_questions = true
  /\ matches_inside (re_section (str "INTERVIEWER_OWN_QUESTIONS")) None
       sample_coverage_preamble
       (section_text (str "INTERVIEWER_OWN_QUESTIONS") sample_own_questions)
     = false
  /\ parse_section (str "INTERVIEWER_OWN_QUESTIONS")
       (sample_coverage_preamble
        ++ section_text (str "INTERVIEWER_OWN_QUESTIONS") sample_own_questions)
     = sample_own_questions.
Proof.
  split; [discriminate|]. split; [vm_compute; reflexivity|].
  split; [vm_compute; reflexivity|].
  apply last_section_round_trip;
    [discriminate | vm_compute; reflexivity | vm_compute; reflexivity].
Defined.


(** ** Hard requirements *)

Lemma split_on_nonempty sep s : split_on sep s <> [].
Proof.
  destruct s as [|c s]; cbn [split_on]; [discriminate|].
  destruct (Ascii.eqb c sep); [discriminate|].
  destruct (split_on sep s); discriminate.
Qed.

(** [sep.join(s.split(sep))] is [s]. *)
Lemma join_split sep s : join [sep] (split_on sep s) = s.
Proof.
  induction s as [|c s IH]; [reflexivity|]. cbn [split_on].
  pose proof (split_on_nonempty sep s) as Hne.
  destruct (Ascii.eqb c sep) eqn:Ec.
  - apply Ascii.eqb_eq in Ec. subst c.
    destruct (split_on sep s) as [|p ps]; [contradiction|].
    cbn [join app] in *. now rewrite IH.
  - destruct (split_on sep s) as [|p ps]; [contradiction|].
    destruct ps; cbn [join app] in *; now rewrite <- IH.
Qed.

Lemma split_on_first_sep sep k v :
  forallb (fun c => negb (Ascii.eqb c sep)) k = true ->
  split_on sep (k ++ sep :: v) = k :: split_on sep v.
Proof.
  induction k as [|c k IH]; intros H; cbn [app split_on].
  - now rewrite Ascii.eqb_refl.
  - cbn [forallb] in H. apply andb_true_iff in H. destruct H as [Hc H].
    apply negb_true_iff in Hc. now rewrite Hc, (IH H).
Qed.

Lemma split_on_without_sep sep k :
  forallb (fun c => negb (Ascii.eqb c sep)) k = true -> split_on sep k = [k].
Proof.
  induction k as [|c k IH]; intros H; cbn [split_on]; [reflexivity|].
  cbn [forallb] in H. apply andb_true_iff in H. destruct H as [Hc H].
  apply negb_true_iff in Hc. now rewrite Hc, (IH H).
Qed.

Lemma requirement_line_step k v more d0 :
  no_colon k = true ->
  hard_requirements_loop (requirement_line (k, v) :: more) d0
  = hard_requirements_loop more (store_requirement d0 (k, v)).
Proof.
  intros Hk. cbn [hard_requirements_loop].
  assert (E : split_on colon (requirement_line (k, v))
              = k :: split_on colon v)
    by (apply (split_on_first_sep colon k v Hk)).
  set (parts := split_on colon (requirement_line (k, v))) in *.
  clearbody parts. subst parts.
  pose proof (split_on_nonempty colon v) as Hne.
  pose proof (join_split colon v) as J.
  destruct (split_on colon v) as [|p ps]; [contradiction|].
  cbn [length Nat.leb hd tl]. unfold store_requirement. cbn [fst snd].
  now rewrite J.
Qed.

(** X8: in the loop over the lines of the requirements block, a line
    [key:value] whose key holds no colon is stored under the stripped key with
    the stripped value, colons of the value included, and a line without colon
    is skipped. *)
Theorem requirement_lines_are_stored (kvs : list (text * text))
  (plain : text) (d : dict text) :
  forallb (fun kv => no_colon (fst kv)) kvs = true ->
  no_colon plain = true ->
  hard_requirements_loop (map requirement_line kvs) d
    = fold_left store_requirement kvs d
  /\ hard_requirements_loop (plain :: map requirement_line kvs) d
     = fold_left store_requirement kvs d.
Proof.
  intros Hk Hp.
  assert (G : forall d0, hard_requirements_loop (map requirement_line kvs) d0
                         = fold_left store_requirement kvs d0).
  { clear Hp. induction kvs as [|[k v] kvs IH]; intros d0; [reflexivity|].
    cbn [forallb fst] in Hk. apply andb_true_iff in Hk.
    destruct Hk as [Hk Hks].
    cbn [map fold_left]. rewrite (requirement_line_step k v _ d0 Hk).
    apply (IH Hks). }
  split; [apply G|].
  cbn [hard_requirements_loop].
  pose proof (split_on_without_sep colon plain Hp) as E.
  set (parts := split_on colon plain) in *. clearbody parts. subst parts.
  cbn [length Nat.leb]. apply G.
Qed.

Lemma requirement_lines_are_stored_witness :
  forallb (fun kv => no_colon (fst kv)) sample_requirements = true
  /\ no_colon (str "(none of the above)") = true
  /\ hard_requirements_loop
       (str "(none of the above)" :: map requirement_line sample_requirements)
       []
     = [(str "Location Match", str "Not Specified in JD");
        (str "Full-time Availability", str "No");
        (str "Working hours", str "09:00 to 17:30")].
Proof.
  split; [vm_compute; reflexivity|]. split; [vm_compute; reflexivity|].
  rewrite (proj2 (requirement_lines_are_stored sample_requirements
                    (str "(none of the above)") [] eq_refl eq_refl)).
  vm_compute. reflexivity.
Defined.


(** ** The block of hard requirements *)

Lemma run_any_char pv c t cs k :
  run (Alt dot newline) (MState pv (c :: t) cs) k = k (MState (Some c) t cs).
Proof.
  unfold dot, newline, is_char. cbn [run rest caps].
  rewrite (Ascii.eqb_sym nl c).
  destruct (Ascii.eqb c nl); cbn [negb]; [reflexivity|].
  now destruct (k _).
Qed.

(** The lazy repetition [(?:.|\n)*?] stops at the first position where the
    rest of the pattern succeeds. *)
Lemma star_lazy_any xs Y k m : forall pv cs n,
  length xs < n ->
  fails_along k pv xs Y cs ->
  k (MState (char_before pv xs) Y cs) = Some m ->
  star_loop (run (Alt dot newline)) false k n (MState pv (xs ++ Y) cs)
  = Some m.
Proof.
  induction xs as [|x xs IH]; intros pv cs n Hn Hf Hk;
    (destruct n as [|n]; [simpl in Hn; lia|]); cbn [star_loop app].
  - cbn [char_before] in Hk. now rewrite Hk.
  - cbn [fails_along app] in Hf. destruct Hf as [Hf0 Hf]. rewrite Hf0.
    rewrite run_any_char. cbn [rest].
    assert (L : (length (xs ++ Y) <? length (x :: xs ++ Y)) = true)
      by (apply Nat.ltb_lt; simpl; lia).
    rewrite L. apply IH; [simpl in Hn; lia | exact Hf | exact Hk].
Qed.

(** A greedy repetition of a character class gives back its last character
    when the rest of the pattern fails after the whole run and succeeds one
    character earlier. *)
Lemma star_greedy_back_one p xs x Y k m : forall pv cs n,
  forallb p xs = true -> p x = true ->
  match Y with y :: _ => p y = false | [] => True end ->
  length xs + 1 < n ->
  k (MState (Some x) Y cs) = None ->
  k (MState (char_before pv xs) (x :: Y) cs) = Some m ->
  star_loop (run (Chr p)) true k n (MState pv (xs ++ x :: Y) cs) = Some m.
Proof.
  induction xs as [|y xs IH]; intros pv cs n Hxs Hx HY Hn Hk0 Hk;
    (destruct n as [|n]; [simpl in Hn; lia|]); cbn [star_loop app].
  - rewrite run_Chr_cons, Hx. cbn [rest].
    assert (L : (length Y <? length (x :: Y)) = true)
      by (apply Nat.ltb_lt; simpl; lia).
    rewrite L.
    assert (E : star_loop (run (Chr p)) true k n (MState (Some x) Y cs)
                = None).
    { destruct n as [|n]; cbn [star_loop]; [exact Hk0|].
      destruct Y as [|y Y].
      - rewrite run_Chr_nil. exact Hk0.
      - rewrite run_Chr_cons, HY. exact Hk0. }
    rewrite E. exact Hk.
  - cbn [forallb] in Hxs. apply andb_true_iff in Hxs.
    destruct Hxs as [Hy Hxs]. rewrite run_Chr_cons, Hy. cbn [rest].
    assert (L : (length (xs ++ x :: Y) <? length (y :: xs ++ x :: Y)) = true)
      by (apply Nat.ltb_lt; simpl; lia).
    rewrite L, (IH (Some y) cs n Hxs Hx HY); [reflexivity | | exact Hk0 |].
    + simpl in Hn. lia.
    + exact Hk.
Qed.

Lemma startswith_app_inv p : forall s,
  startswith p s = true -> exists more, s = p ++ more.
Proof.
  induction p as [|a p IH]; intros s H; [now exists s|].
  destruct s as [|b s]; [discriminate|]. cbn [startswith] in H.
  apply andb_true_iff in H. destruct H as [Hab H].
  apply Ascii.eqb_eq in Hab. subst b.
  destruct (IH s H) as (more & ->). now exists more.
Qed.

(** Inside the block the lookahead [(?=\nSTRENGTHS:|\Z)] fails wherever the
    header line does not start. *)
Lemma block_lookahead_fails st0 kf tail cs : forall body pv,
  header_before strengths_header_ahead body tail = false ->
  fails_along
    (fun st' =>
       run (Look (Alt (Seq [newline; lit "STRENGTHS:"]) Eos))
         (set_cap 1 st0 st') kf)
    pv body tail cs.
Proof.
  induction body as [|x body IH]; intros pv H; cbn [fails_along];
    [exact I|].
  cbn [header_before] in H. apply orb_false_iff in H. destruct H as [H0 H].
  split; [|now apply IH].
  change (Seq [newline; lit "STRENGTHS:"]) with (Lit strengths_header_ahead).
  cbn [run]. rewrite run_Lit_mismatch; [|exact H0].
  unfold set_cap. cbn [rest at_end app]. reflexivity.
Qed.

Lemma block_lookahead_holds st kf tail :
  rest st = tail -> ends_block tail = true ->
  run (Look (Alt (Seq [newline; lit "STRENGTHS:"]) Eos)) st kf
  = kf (MState (prev st) (rest st) (caps st)).
Proof.
  intros Hr He.
  change (Seq [newline; lit "STRENGTHS:"]) with (Lit strengths_header_ahead).
  destruct st as [pv r cs]. cbn [rest] in Hr. subst r.
  destruct tail as [|c tail].
  - cbn [run]. rewrite run_Lit_mismatch; [|reflexivity]. reflexivity.
  - cbn [ends_block] in He. apply startswith_app_inv in He.
    destruct He as (more & E). rewrite E. cbn [run].
    rewrite run_Lit_app. reflexivity.
Qed.

(** At the header, the group of [re_hard_requirements] is the text between
    the newline after the header and the line of the next [STRENGTHS:]
    header, or the end of the reply. *)
Lemma hard_requirements_attempt p sp body tail :
  forallb isspace sp = true ->
  body <> [] -> starts_with_space body = false ->
  header_before strengths_header_ahead body tail = false ->
  ends_block tail = true ->
  exists m,
    attempt re_hard_requirements false p
      (str "HARD_REQUIREMENTS_MATCH:" ++ sp ++ nl :: body ++ tail) = Some m
    /\ group 1 m = body.
Proof.
  intros Hsp Hne Hb Hh He. destruct body as [|c body]; [contradiction|].
  cbn [starts_with_space] in Hb.
  assert (Hc : is_char nl c = false).
  { unfold is_char. destruct (Ascii.eqb nl c) eqn:E; [|reflexivity].
    apply Ascii.eqb_eq in E. subst c. discriminate. }
  set (cs0 := @nil (nat * text)).
  set (pv1 := char_before (char_before p (str "HARD_REQUIREMENTS_MATCH:")) sp).
  set (st0 := MState (Some nl) ((c :: body) ++ tail) cs0).
  set (m := MState (char_before (Some nl) (c :: body)) tail
              ((1, c :: body) :: cs0)).
  exists m. split; [|reflexivity].
  unfold attempt, re_hard_requirements, lit. cbn [Seq andb].
  rewrite run_Cat, run_Lit_app, run_Cat, run_Star. cbn [rest].
  apply (star_greedy_back_one isspace sp nl ((c :: body) ++ tail));
    [exact Hsp | reflexivity | exact Hb | rewrite length_app; simpl; lia | |].
  - rewrite run_Cat. cbn [app]. unfold newline at 1.
    rewrite run_Chr_cons, Hc. reflexivity.
  - fold pv1. rewrite run_Cat. unfold newline at 1.
    rewrite run_Chr_cons. change (is_char nl nl) with true. cbv iota.
    fold cs0. fold st0. rewrite run_Cat, run_Group, run_Star.
    unfold st0 at 2 3. cbn [rest].
    apply (star_lazy_any (c :: body) tail); [rewrite length_app; simpl; lia | |].
    + apply block_lookahead_fails. exact Hh.
    + unfold set_cap. cbn [prev rest caps].
      erewrite block_lookahead_holds; [|reflexivity | exact He].
      cbn [prev rest caps].
      rewrite (consumed_app st0 _ (c :: body)); [|reflexivity].
      reflexivity.
Qed.

Lemma requirement_lines_fold kvs : forall d,
  forallb (fun kv => no_colon (fst kv)) kvs = true ->
  hard_requirements_loop (map requirement_line kvs) d
  = fold_left store_requirement kvs d.
Proof.
  induction kvs as [|[k v] kvs IH]; intros d Hk; [reflexivity|].
  cbn [forallb fst] in Hk. apply andb_true_iff in Hk.
  destruct Hk as [Hk Hks].
  cbn [map fold_left]. rewrite (requirement_line_step k v _ d Hk).
  apply (IH _ Hks).
Qed.

Lemma lstrip_spaces_app sp t :
  forallb isspace sp = true -> lstrip (sp ++ t) = lstrip t.
Proof.
  induction sp as [|c sp IH]; intros H; [reflexivity|].
  cbn [forallb] in H. apply andb_true_iff in H. destruct H as [Hc H].
  cbn [app lstrip]. rewrite Hc. now apply IH.
Qed.

(** Whitespace after a trimmed text is stripped, and nothing else. *)
Lemma strip_trailing_spaces q gap :
  trimmed q -> forallb isspace gap = true -> strip (q ++ gap) = q.
Proof.
  intros (Hne & Hs & He) Hg. unfold strip, rstrip.
  assert (L : forall t, starts_with_space t = false -> lstrip t = t).
  { intros [|c t] H; [reflexivity|]. simpl in *. now rewrite H. }
  assert (Hs' : starts_with_space (q ++ gap) = false)
    by (destruct q; [contradiction | exact Hs]).
  rewrite (L _ Hs'), rev_app_distr, lstrip_spaces_app
    by (now rewrite forallb_rev).
  rewrite (L (rev q) He). apply rev_involutive.
Qed.

(** X9: when the reply holds the requirements as the prompt asks (the header,
    a newline, one line [key: value] per requirement, then whitespace such
    as the blank line of the prompt's format, then the [STRENGTHS:] line or
    the end of the reply) and none of its runs of digits is longer than the
    4300 that [int] accepts, scoring returns them all: each line is stored
    under its stripped key with its stripped value, in the order of the
    lines, a repeated key taking the value of its last line at the place of
    its first. *)
Theorem hard_requirements_round_trip
  (deployment_name resume_text jd_text pre sp gap tail : text)
  (kvs : list (text * text)) :
  digit_runs_within_limit
    (pre ++ str "HARD_REQUIREMENTS_MATCH:" ++ sp ++ nl
     :: (requirements_block kvs ++ gap) ++ tail) = true ->
  header_before (str "HARD_REQUIREMENTS_MATCH:") pre
    (str "HARD_REQUIREMENTS_MATCH:" ++ sp ++ nl
     :: (requirements_block kvs ++ gap) ++ tail) = false ->
  forallb isspace sp = true ->
  forallb (fun kv => no_colon (fst kv) && one_line (fst kv)
                     && one_line (snd kv)) kvs = true ->
  trimmed (requirements_block kvs) ->
  forallb isspace gap = true ->
  header_before strengths_header_ahead (requirements_block kvs ++ gap) tail
    = false ->
  ends_block tail = true ->
  exists res,
    score_resume_against_jd (replying
      (pre ++ str "HARD_REQUIREMENTS_MATCH:" ++ sp ++ nl
       :: (requirements_block kvs ++ gap) ++ tail))
      deployment_name resume_text jd_text []
    = (inl res, [scoring_request deployment_name resume_text jd_text])
    /\ hard_requirements_match res = fold_left store_requirement kvs [].
Proof.
  intros Hlim Hpre Hsp Hkvs Htr Hgap Hh Ht.
  destruct (score_reply_total deployment_name resume_text jd_text
              (pre ++ str "HARD_REQUIREMENTS_MATCH:" ++ sp ++ nl
               :: (requirements_block kvs ++ gap) ++ tail) Hlim)
    as (v & d & E & _).
  eexists. split; [exact E|]. cbn [hard_requirements_match].
  unfold parse_hard_requirements, re_search.
  rewrite search_from_skip;
    [|unfold re_hard_requirements, lit; cbn [Seq];
      now apply header_absent_no_match].
  pose proof Htr as (Hne & Hs & He).
  assert (Hne' : requirements_block kvs ++ gap <> []).
  { intros C. apply app_eq_nil in C. now destruct C. }
  assert (Hs' : starts_with_space (requirements_block kvs ++ gap) = false)
    by (destruct (requirements_block kvs); [contradiction | exact Hs]).
  destruct (hard_requirements_attempt (char_before None pre) sp
              (requirements_block kvs ++ gap) tail Hsp Hne' Hs' Hh Ht)
    as (m & Em & Eg).
  rewrite (search_from_hit _ _ _ _ Em), Eg.
  rewrite (strip_trailing_spaces _ _ Htr Hgap).
  destruct kvs as [|kv kvs]; [now contradiction Hne|].
  unfold requirements_block. cbn [map].
  rewrite split_join_lines.
  - apply (requirement_lines_fold (kv :: kvs)).
    clear - Hkvs. induction (kv :: kvs) as [|x xs IH]; [reflexivity|].
    cbn [forallb] in *. apply andb_true_iff in Hkvs.
    destruct Hkvs as [Hx Hxs]. rewrite (IH Hxs), andb_true_r.
    apply andb_true_iff in Hx. destruct Hx as [Hx _].
    apply andb_true_iff in Hx. now destruct Hx.
  - change (Forall (fun x => one_line x = true)
              (map requirement_line (kv :: kvs))).
    clear - Hkvs. induction (kv :: kvs) as [|x xs IH]; [constructor|].
    cbn [forallb map] in *. apply andb_true_iff in Hkvs.
    destruct Hkvs as [Hx Hxs]. constructor; [|now apply IH].
    apply andb_true_iff in Hx. destruct Hx as [Hx Hv].
    apply andb_true_iff in Hx. destruct Hx as [_ Hk].
    unfold requirement_line, one_line in *. rewrite !forallb_app, Hk, Hv.
    reflexivity.
Qed.

(** The instance is a reply in the format of the prompt: a blank line
    separates the last requirement from the [STRENGTHS:] header. *)
Lemma hard_requirements_round_trip_witness :
  sample_scores_head ++ str "HARD_REQUIREMENTS_MATCH:" ++ [] ++ nl
    :: (requirements_block sample_requirements ++ [nl])
       ++ sample_requirements_tail
  = sample_spaced_requirements
  /\ exists res,
       score_resume_against_jd (replying sample_spaced_requirements)
         [] [] [] []
       = (inl res, [scoring_request [] [] []])
       /\ hard_requirements_match res
          = [(str "Location Match", str "Not Specified in JD");
             (str "Full-time Availability", str "No");
             (str "Working hours", str "09:00 to 17:30")].
Proof.
  split; [vm_compute; reflexivity|].
  apply (hard_requirements_round_trip [] [] [] sample_scores_head [] [nl]
           sample_requirements_tail sample_requirements).
  - vm_compute. reflexivity.
  - vm_compute. reflexivity.
  - reflexivity.
  - vm_compute. reflexivity.
  - repeat split; [discriminate | vm_compute; reflexivity ..].
  - reflexivity.
  - vm_compute. reflexivity.
  - vm_compute. reflexivity.
Defined.


(** ** AI detection *)

Module AiDetectionFacts.
Import AiDetection.

Lemma digit_not_space c : isdigit c = true -> isspace c = false.
Proof.
  destruct c as [[] [] [] [] [] [] [] []]; intros H;
    try reflexivity; discriminate H.
Qed.

Lemma strip_digits ds : forallb isdigit ds = true -> strip ds = ds.
Proof.
  intros H. apply strip_trimmed_id.
  - destruct ds as [|c ds]; [reflexivity|]. cbn [forallb] in H.
    apply andb_true_iff in H. now apply digit_not_space.
  - unfold ends_with_space. rewrite <- forallb_rev in H.
    destruct (rev ds) as [|c t]; [reflexivity|]. cbn [forallb] in H.
    apply andb_true_iff in H. now apply digit_not_space.
Qed.

Lemma labelled_score_capture L m :
  match_of (Cat (Lit L) (Group 1 (Plus true digit))) m ->
  group 1 m <> [] /\ forallb isdigit (group 1 m) = true.
Proof.
  intros (p & s & H). apply matches_Cat in H. destruct H as (st1 & H1 & H2).
  apply matches_digits_group in H2. destruct H2 as (ds & Ec & Hne & Hd).
  unfold group. rewrite Ec. cbn [lookup_cap Nat.eqb]. now split.
Qed.

Lemma score_of_search L content :
  digit_runs_within_limit content = true ->
  exists v,
    score_of (re_search (Cat (Lit L) (Group 1 (Plus true digit))) content)
    = inl v /\ score_or_na v.
Proof.
  intros Hlim. unfold score_of.
  destruct (re_search _ content) as [m|] eqn:E.
  - apply re_search_in in E.
    destruct (labelled_score_capture L m (match_in_match_of _ _ _ E))
      as [Hne Hd].
    rewrite (strip_digits _ Hd),
      (int_of_digits _ Hne Hd (captured_digits_short _ _ _ 1 E Hlim Hd)).
    eexists. split; [reflexivity|]. right. eexists. split; [reflexivity|].
    now apply digits_value_nonneg.
  - eexists. split; [reflexivity|]. now left.
Qed.

Lemma forallb_strip p s : forallb p s = true -> forallb p (strip s) = true.
Proof.
  intros H. destruct (strip_decomp s) as (sp & sp' & E & _).
  rewrite E, !forallb_app in H. apply andb_true_iff in H.
  destruct H as [_ H]. apply andb_true_iff in H. now destruct H.
Qed.

Lemma classification_capture m :
  match_of re_classification m -> one_line (group 1 m) = true.
Proof.
  intros (p & s & H). unfold re_classification, lit in H. cbn [Seq] in H.
  apply matches_Cat in H. destruct H as (st1 & H1 & H2).
  apply matches_Group in H2. destruct H2 as (st2 & H2 & Hr & Ec).
  apply matches_chr_star in H2. destruct H2 as (xs & Hx & Hp & _).
  unfold group. rewrite Ec. cbn [lookup_cap Nat.eqb].
  rewrite (consumed_app _ _ xs Hx). unfold one_line, is_char.
  rewrite <- Hp. clear. induction xs as [|a xs IH]; [reflexivity|].
  cbn [forallb]. now rewrite IH, Ascii.eqb_sym.
Qed.

Lemma classification_of_shape content :
  one_trimmed_line (classification_of (re_search re_classification content)).
Proof.
  unfold classification_of.
  destruct (re_search re_classification content) as [m|] eqn:E.
  - apply re_search_sound, classification_capture in E. repeat split.
    + now apply forallb_strip.
    + apply strip_no_leading_space.
    + apply rstrip_no_trailing_space.
  - repeat split.
Qed.

Lemma parse_detection_total content :
  digit_runs_within_limit content = true ->
  exists d,
    parse_detection content = inl d
    /\ explanation d = None
    /\ one_trimmed_line (classification d)
    /\ score_or_na (overall_confidence_score d)
    /\ score_or_na (formatting_consistency_score d)
    /\ score_or_na (language_use_score d)
    /\ score_or_na (detail_depth_score d)
    /\ score_or_na (error_detection_score d).
Proof.
  intros Hlim.
  unfold parse_detection, re_overall_score, re_fc_score, re_lu_score,
    re_dd_score, re_ed_score, lit. cbn [Seq].
  destruct (score_of_search (str "Overall Confidence Score: ") content Hlim)
    as (v1 & -> & H1).
  destruct (score_of_search (str "Formatting Consistency Score: ") content
              Hlim) as (v2 & -> & H2).
  destruct (score_of_search (str "Language Use Score: ") content Hlim)
    as (v3 & -> & H3).
  destruct (score_of_search (str "Detail Depth Score: ") content Hlim)
    as (v4 & -> & H4).
  destruct (score_of_search (str "Error Detection Score: ") content Hlim)
    as (v5 & -> & H5).
  eexists. split; [reflexivity|].
  cbn [explanation classification overall_confidence_score
       formatting_consistency_score language_use_score detail_depth_score
       error_detection_score].
  repeat split; try assumption; apply classification_of_shape.
Qed.

Lemma nonempty_true (s : text) : s <> [] -> nonempty s = true.
Proof. destruct s; [contradiction | reflexivity]. Qed.

(** X11: The guards: without a client the function raises 500 and with an
    empty resume text 400, before any request and without printing; whatever
    else happens, an exception that leaves the function is an [HTTPException]
    of status 500, and the first request has been sent. *)
Theorem detection_guards (c : client)
  (deployment_name resume_text : text) (include_explanation : bool)
  (log : list request) :
  detect_ai_resume None deployment_name resume_text include_explanation log
  = (inr (HTTPException 500
            (str "Azure OpenAI client not initialized. Check server logs for details.")),
     log, [])
  /\ detect_ai_resume (Some c) deployment_name [] include_explanation log
     = (inr (HTTPException 400
               (str "No text extracted from resume. The file might be empty or unreadable.")),
        log, [])
  /\ (resume_text <> [] ->
      exists out more lines,
        detect_ai_resume (Some c) deployment_name resume_text
          include_explanation log
        = (out, log ++ initial_request deployment_name resume_text :: more,
           lines)
        /\ match out with
           | inl _ => lines = []
           | inr (HTTPException code _) => code = 500 /\ length lines = 1
           | inr (Error _) => False
           end).
Proof.
  split; [reflexivity|]. split; [reflexivity|]. intros Hr.
  unfold detect_ai_resume. rewrite (nonempty_true _ Hr). cbn [negb].
  unfold detect_body, bind, create, lift, raise, ret.
  destruct (c (initial_request deployment_name resume_text)) as [t|e].
  - destruct (nonempty t).
    + destruct (parse_detection t) as [d|e].
      * destruct include_explanation.
        -- destruct (c (explanation_request deployment_name d resume_text)).
           ++ eexists _, [_], _. rewrite <- app_assoc. cbn [app].
              split; [reflexivity|]. reflexivity.
           ++ eexists _, [_], _. rewrite <- app_assoc. cbn [app].
              split; [reflexivity|]. now split.
        -- eexists _, [], _. split; [reflexivity|]. reflexivity.
      * eexists _, [], _. split; [reflexivity|]. now split.
    + eexists _, [], _. split; [reflexivity|]. now split.
  - eexists _, [], _. split; [reflexivity|]. now split.
Qed.

Lemma detection_guards_witness :
  exists out more lines,
    detect_ai_resume (Some (failing (str "timeout"))) [] (str "cv") true []
    = (out, [] ++ initial_request [] (str "cv") :: more, lines)
    /\ match out with
       | inl _ => lines = []
       | inr (HTTPException code _) => code = 500 /\ length lines = 1
       | inr (Error _) => False
       end.
Proof.
  apply (detection_guards (failing (str "timeout")) [] (str "cv") true []).
  discriminate.
Defined.

(** X12: Whenever the service answers the first request with some text none
    of whose runs of digits is longer than the 4300 that [int] accepts, the
    detection without explanation returns: one request, nothing printed,
    status [success], no explanation, a classification that is one stripped
    line, and scores that are each ["N/A"] or an integer that is not
    negative. *)
Theorem detection_returns_within_limit (c : client)
  (deployment_name resume_text content : text) (log : list request) :
  resume_text <> [] -> content <> [] ->
  digit_runs_within_limit content = true ->
  c (initial_request deployment_name resume_text) = Completion content ->
  exists d,
    detect_ai_resume (Some c) deployment_name resume_text false log
    = (inl (DetectionResult (str "success") d),
       log ++ [initial_request deployment_name resume_text], [])
    /\ explanation d = None
    /\ one_trimmed_line (classification d)
    /\ score_or_na (overall_confidence_score d)
    /\ score_or_na (formatting_consistency_score d)
    /\ score_or_na (language_use_score d)
    /\ score_or_na (detail_depth_score d)
    /\ score_or_na (error_detection_score d).
Proof.
  intros Hr Hc Hlim E.
  destruct (parse_detection_total content Hlim) as (d & Ed & H).
  exists d. split; [|exact H].
  unfold detect_ai_resume. rewrite (nonempty_true _ Hr). cbn [negb].
  unfold detect_body, bind, create, lift, raise, ret.
  rewrite E, (nonempty_true _ Hc), Ed. reflexivity.
Qed.

Lemma detection_returns_within_limit_witness :
  exists d,
    detect_ai_resume
      (Some (detection_service (Completion sample_detection_reply)
               (ServiceError (str "unavailable"))))
      [] (str "cv") false []
    = (inl (DetectionResult (str "success") d),
       [] ++ [initial_request [] (str "cv")], [])
    /\ explanation d = None
    /\ one_trimmed_line (classification d)
    /\ score_or_na (overall_confidence_score d)
    /\ score_or_na (formatting_consistency_score d)
    /\ score_or_na (language_use_score d)
    /\ score_or_na (detail_depth_score d)
    /\ score_or_na (error_detection_score d).
Proof.
  apply (detection_returns_within_limit
           (detection_service (Completion sample_detection_reply)
              (ServiceError (str "unavailable")))
           [] (str "cv") sample_detection_reply []);
    [discriminate | discriminate | vm_compute; reflexivity | reflexivity].
Defined.

(** X13: When the first reply holds no run of digits longer than the 4300
    that [int] accepts, asking for the explanation leaves the six fields as
    they are and costs a second request, built from them: its reply is the
    explanation, or a fixed text when the reply has no content. When the
    second request fails, the fields already read are lost: the function
    raises 500. *)
Theorem detection_with_explanation (c : client)
  (deployment_name resume_text content : text) (log : list request) :
  resume_text <> [] -> content <> [] ->
  digit_runs_within_limit content = true ->
  c (initial_request deployment_name resume_text) = Completion content ->
  exists d,
    detect_ai_resume (Some c) deployment_name resume_text false log
    = (inl (DetectionResult (str "success") d),
       log ++ [initial_request deployment_name resume_text], [])
    /\ (forall t,
          c (explanation_request deployment_name d resume_text)
            = Completion t ->
          detect_ai_resume (Some c) deployment_name resume_text true log
          = (inl (DetectionResult (str "success")
                    (with_explanation
                       (if nonempty t then t
                        else str "Could not generate detailed explanation.")
                       d)),
             log ++ [initial_request deployment_name resume_text;
                     explanation_request deployment_name d resume_text],
             []))
    /\ (forall e,
          c (explanation_request deployment_name d resume_text)
            = ServiceError e ->
          detect_ai_resume (Some c) deployment_name resume_text true log
          = (inr (HTTPException 500
                    (str "An unexpected error occurred during AI detection processing or AI analysis: "
                     ++ e)),
             log ++ [initial_request deployment_name resume_text;
                     explanation_request deployment_name d resume_text],
             [Printed (str "An unexpected error occurred during AI detection: "
                       ++ e)])).
Proof.
  intros Hr Hc Hlim E.
  destruct (parse_detection_total content Hlim) as (d & Ed & _).
  exists d. unfold detect_ai_resume. rewrite (nonempty_true _ Hr).
  cbn [negb]. unfold detect_body, bind, create, lift, raise, ret.
  rewrite E, (nonempty_true _ Hc), Ed.
  split; [reflexivity|].
  split; intros x Ex; rewrite Ex, <- app_assoc; reflexivity.
Qed.

Lemma detection_with_explanation_witness :
  exists d,
    detect_ai_resume
      (Some (detection_service (Completion sample_detection_reply)
               (Completion [])))
      [] (str "cv") false []
    = (inl (DetectionResult (str "success") d),
       [] ++ [initial_request [] (str "cv")], [])
    /\ detect_ai_resume
         (Some (detection_service (Completion sample_detection_reply)
                  (Completion [])))
         [] (str "cv") true []
       = (inl (DetectionResult (str "success")
                 (with_explanation
                    (str "Could not generate detailed explanation.") d)),
          [] ++ [initial_request [] (str "cv");
                 explanation_request [] d (str "cv")],
          []).
Proof.
  destruct (detection_with_explanation
              (detection_service (Completion sample_detection_reply)
                 (Completion []))
              [] (str "cv") sample_detection_reply []
              ltac:(discriminate) ltac:(discriminate)
              ltac:(vm_compute; reflexivity) eq_refl)
    as (d & E0 & E1 & _).
  exists d. split; [exact E0|]. exact (E1 [] eq_refl).
Defined.

(** X14: When the first request fails, or its reply has no content, nothing is
    returned: the function raises 500 after one request and prints one line;
    the detail and the line carry the message of the failure. *)
Theorem detection_first_request_fails (c : client)
  (deployment_name resume_text : text) (include_explanation : bool)
  (log : list request) :
  resume_text <> [] ->
  (forall e,
     c (initial_request deployment_name resume_text) = ServiceError e ->
     detect_ai_resume (Some c) deployment_name resume_text
       include_explanation log
     = (inr (HTTPException 500
               (str "An unexpected error occurred during AI detection processing or AI analysis: "
                ++ e)),
        log ++ [initial_request deployment_name resume_text],
        [Printed (str "An unexpected error occurred during AI detection: "
                  ++ e)]))
  /\ (c (initial_request deployment_name resume_text) = Completion [] ->
      exists cause,
        detect_ai_resume (Some c) deployment_name resume_text
          include_explanation log
        = (inr (HTTPException 500
                  (str "An unexpected error occurred during AI detection processing or AI analysis: "
                   ++ cause)),
           log ++ [initial_request deployment_name resume_text],
           [Printed (str "An unexpected error occurred during AI detection: "
                     ++ cause)])
        /\ occurs (str "No concise analysis content received from AI.")
             cause = true).
Proof.
  intros Hr. unfold detect_ai_resume. rewrite (nonempty_true _ Hr).
  cbn [negb]. unfold detect_body, bind, create, lift, raise, ret.
  split.
  - intros e E. rewrite E. reflexivity.
  - intros E. rewrite E. cbn [nonempty]. eexists. split; [reflexivity|].
    vm_compute. reflexivity.
Qed.

Lemma detection_first_request_fails_witness :
  detect_ai_resume (Some (failing (str "timeout"))) [] (str "cv") true []
  = (inr (HTTPException 500
            (str "An unexpected error occurred during AI detection processing or AI analysis: "
             ++ str "timeout")),
     [] ++ [initial_request [] (str "cv")],
     [Printed (str "An unexpected error occurred during AI detection: "
               ++ str "timeout")]).
Proof.
  apply (detection_first_request_fails (failing (str "timeout")) []
           (str "cv") true [] ltac:(discriminate)).
  reflexivity.
Defined.

Lemma parse_detection_fields content d :
  parse_detection content = inl d ->
  classification d = classification_of (re_search re_classification content)
  /\ forall f,
       score_of (re_search (Cat (Lit (score_label f))
                              (Group 1 (Plus true digit))) content)
       = inl (score_field f d).
Proof.
  unfold parse_detection, re_overall_score, re_fc_score, re_lu_score,
    re_dd_score, re_ed_score, lit. cbn [Seq].
  destruct (score_of (re_search
              (Cat (Lit (str "Overall Confidence Score: ")) _) content))
    as [v1|] eqn:E1; [|discriminate].
  destruct (score_of (re_search
              (Cat (Lit (str "Formatting Consistency Score: ")) _) content))
    as [v2|] eqn:E2; [|discriminate].
  destruct (score_of (re_search
              (Cat (Lit (str "Language Use Score: ")) _) content))
    as [v3|] eqn:E3; [|discriminate].
  destruct (score_of (re_search
              (Cat (Lit (str "Detail Depth Score: ")) _) content))
    as [v4|] eqn:E4; [|discriminate].
  destruct (score_of (re_search
              (Cat (Lit (str "Error Detection Score: ")) _) content))
    as [v5|] eqn:E5; [|discriminate].
  intros H. inversion H; subst d. clear H.
  split; [reflexivity|]. intros []; assumption.
Qed.

Lemma labelled_score_attempt L p ds post :
  ds <> [] -> forallb isdigit ds = true -> starts_with_digit post = false ->
  attempt (Cat (Lit L) (Group 1 (Plus true digit))) false p (L ++ ds ++ post)
  = Some (MState (char_before (char_before p L) ds) post [(1, ds)]).
Proof.
  intros Hne Hds Hp. destruct ds as [|d ds]; [contradiction|].
  cbn [forallb] in Hds. apply andb_true_iff in Hds. destruct Hds as [Hd Hds].
  unfold attempt, digit, Plus.
  rewrite run_Cat, run_Lit_app, run_Group, run_Cat. cbn [app].
  rewrite run_Chr_cons, Hd, run_Star. cbn [rest].
  apply star_greedy_run; [exact Hds | | rewrite length_app; lia |].
  { destruct post; [exact I | exact Hp]. }
  unfold set_cap. cbn [prev rest caps andb].
  rewrite (consumed_app _ _ (d :: ds)); reflexivity.
Qed.

Lemma classification_attempt p line more :
  one_line line = true -> at_newline more = true ->
  attempt re_classification false p (str "Classification: " ++ line ++ more)
  = Some (MState (char_before (char_before p (str "Classification: ")) line)
            more [(1, line)]).
Proof.
  intros Hl Hm. unfold attempt, re_classification, lit, dot. cbn [Seq].
  rewrite run_Cat, run_Lit_app, run_Group, run_Star. cbn [rest].
  apply star_greedy_run.
  - unfold one_line, is_char in Hl. rewrite <- Hl. clear.
    induction line as [|a l IH]; [reflexivity|].
    cbn [forallb]. now rewrite IH, Ascii.eqb_sym.
  - destruct more as [|c more]; [exact I|]. cbn [at_newline] in Hm.
    unfold is_char in Hm. rewrite Ascii.eqb_sym in Hm. now rewrite Hm.
  - rewrite length_app. lia.
  - unfold set_cap. cbn [prev rest caps andb].
    rewrite (consumed_app _ _ line); reflexivity.
Qed.

(** X15: A score declared in the reply is read: when the reply holds the label
    of a score followed by digits, the label starts nowhere before, and no
    run of digits of the reply is longer than the 4300 that [int] accepts,
    the field of that score is the value of the digits, whatever else the
    reply holds. *)
Theorem detection_reads_declared_score (c : client) (f : detection_score)
  (deployment_name resume_text pre ds post : text) (log : list request) :
  resume_text <> [] ->
  ds <> [] -> forallb isdigit ds = true -> starts_with_digit post = false ->
  digit_runs_within_limit (pre ++ score_label f ++ ds ++ post) = true ->
  header_before (score_label f) pre (score_label f ++ ds ++ post) = false ->
  c (initial_request deployment_name resume_text)
    = Completion (pre ++ score_label f ++ ds ++ post) ->
  exists d,
    detect_ai_resume (Some c) deployment_name resume_text false log
    = (inl (DetectionResult (str "success") d),
       log ++ [initial_request deployment_name resume_text], [])
    /\ score_field f d = IntVal (digits_value ds).
Proof.
  intros Hr Hne Hds Hp Hlim Hpre E.
  destruct (parse_detection_total (pre ++ score_label f ++ ds ++ post) Hlim)
    as (d & Ed & _).
  exists d. split.
  - unfold detect_ai_resume. rewrite (nonempty_true _ Hr). cbn [negb].
    unfold detect_body, bind, create, lift, raise, ret. rewrite E.
    rewrite nonempty_true, Ed; [reflexivity|].
    destruct pre; [destruct f|]; discriminate.
  - destruct (parse_detection_fields _ _ Ed) as [_ Hf]. specialize (Hf f).
    unfold re_search in Hf.
    rewrite search_from_skip in Hf;
      [|now apply header_absent_no_match].
    rewrite (search_from_hit _ _ _ _
               (labelled_score_attempt (score_label f) _ ds post Hne Hds Hp))
      in Hf.
    unfold score_of, group in Hf. cbn [caps lookup_cap Nat.eqb] in Hf.
    rewrite (strip_digits _ Hds) in Hf.
    destruct (int_or_raise ds) as [n|] eqn:Ei; [|discriminate].
    apply int_or_raise_value in Ei. subst n. now inversion Hf.
Qed.

Lemma detection_reads_declared_score_witness :
  exists d,
    detect_ai_resume
      (Some (replying (str "Classification: AI-Generated
" ++ score_label DetailDepth ++ str "007" ++ str "%
Error Detection Score: none")))
      [] (str "cv") false []
    = (inl (DetectionResult (str "success") d),
       [] ++ [initial_request [] (str "cv")], [])
    /\ score_field DetailDepth d = IntVal 7.
Proof.
  apply (detection_reads_declared_score
           (replying (str "Classification: AI-Generated
" ++ score_label DetailDepth ++ str "007" ++ str "%
Error Detection Score: none"))
           DetailDepth [] (str "cv") (str "Classification: AI-Generated
") (str "007") (str "%
Error Detection Score: none") []);
    [discriminate | discriminate | reflexivity | reflexivity
     | vm_compute; reflexivity | vm_compute; reflexivity | reflexivity].
Defined.

(** X16: When no run of digits of the reply is longer than the 4300 that
    [int] accepts, the detection returns and the classification is the rest
    of the line after the first [Classification: ], stripped. *)
Theorem detection_reads_classification (c : client)
  (deployment_name resume_text pre line more : text) (log : list request) :
  resume_text <> [] ->
  one_line line = true -> at_newline more = true ->
  digit_runs_within_limit (pre ++ str "Classification: " ++ line ++ more)
    = true ->
  header_before (str "Classification: ") pre
    (str "Classification: " ++ line ++ more) = false ->
  c (initial_request deployment_name resume_text)
    = Completion (pre ++ str "Classification: " ++ line ++ more) ->
  exists d,
    detect_ai_resume (Some c) deployment_name resume_text false log
    = (inl (DetectionResult (str "success") d),
       log ++ [initial_request deployment_name resume_text], [])
    /\ classification d = strip line.
Proof.
  intros Hr Hl Hm Hlim Hpre E.
  destruct (parse_detection_total
              (pre ++ str "Classification: " ++ line ++ more) Hlim)
    as (d & Ed & _).
  exists d. split.
  - unfold detect_ai_resume. rewrite (nonempty_true _ Hr). cbn [negb].
    unfold detect_body, bind, create, lift, raise, ret. rewrite E.
    rewrite nonempty_true, Ed; [reflexivity|].
    destruct pre; discriminate.
  - destruct (parse_detection_fields _ _ Ed) as [Hc _]. rewrite Hc.
    unfold re_search. rewrite search_from_skip.
    + rewrite (search_from_hit _ _ _ _
                 (classification_attempt _ line more Hl Hm)).
      reflexivity.
    + unfold re_classification, lit. cbn [Seq].
      now apply header_absent_no_match.
Qed.

Lemma detection_reads_classification_witness :
  exists d,
    detect_ai_resume
      (Some (replying (sample_detection_intro ++ str "Classification: "
                       ++ str " Human-Written  " ++ sample_detection_rest)))
      [] (str "cv") false []
    = (inl (DetectionResult (str "success") d),
       [] ++ [initial_request [] (str "cv")], [])
    /\ classification d = str "Human-Written".
Proof.
  apply (detection_reads_classification
           (replying (sample_detection_intro ++ str "Classification: "
                      ++ str " Human-Written  " ++ sample_detection_rest))
           [] (str "cv") sample_detection_intro (str " Human-Written  ")
           sample_detection_rest []);
    [discriminate | reflexivity | reflexivity | vm_compute; reflexivity
     | vm_compute; reflexivity | reflexivity].
Defined.

(** A score of 4301 digits makes the detection raise, after one request
    and one printed line. *)
Example long_detection_score_raises :
  exists detail line,
    detect_ai_resume (Some (replying sample_long_detection_score)) []
      (str "cv") false []
    = (inr (HTTPException 500 detail), [initial_request [] (str "cv")],
       [Printed line])
    /\ occurs (str "Exceeds the limit (4300 digits)") detail = true.
Proof.
  eexists _, _. split; vm_compute; reflexivity.
Qed.

End AiDetectionFacts.


(** ** The endpoints *)

Module ApiFacts.
Import AiDetection Api.

(** X17: The full analysis asks for the score first and for the questions only
    when the score was returned: a failure of the scoring request, or a
    scoring reply whose parsing raises, ends the analysis after one request
    with the 500 of the scoring; when the scoring reply holds no run of
    digits longer than the 4300 that [int] accepts, the questions are asked
    for, and a failure of that request ends the analysis after two requests,
    the score then being dropped; an upload that cannot be read ends it
    before any request. On success the texts extracted come back with the
    results. *)
Theorem full_analysis_sequence (c : client)
  (deployment resume_text jd_text : text) (log : list request) :
  (forall e x,
     api_full_analysis c deployment (inr e) x log = (inr e, log)
     /\ api_full_analysis c deployment (inl resume_text) (inr e) log
        = (inr e, log)
     /\ api_analyze_interview_questions c deployment (inr e) x log
        = (inr e, log)
     /\ api_analyze_interview_questions c deployment (inl resume_text)
          (inr e) log = (inr e, log))
  /\ (forall e,
        c (scoring_request deployment resume_text jd_text) = ServiceError e ->
        api_full_analysis c deployment (inl resume_text) (inl jd_text) log
        = (inr (HTTPException 500 (str "Error during AI scoring: " ++ e)),
           log ++ [scoring_request deployment resume_text jd_text]))
  /\ (forall content e,
        c (scoring_request deployment resume_text jd_text)
          = Completion content ->
        parse_scoring content = inr e ->
        api_full_analysis c deployment (inl resume_text) (inl jd_text) log
        = (inr (HTTPException 500
                  (str "Error during AI scoring: " ++ exn_str e)),
           log ++ [scoring_request deployment resume_text jd_text]))
  /\ (forall content,
        c (scoring_request deployment resume_text jd_text)
          = Completion content ->
        digit_runs_within_limit content = true ->
        (forall e,
           c (questions_request deployment resume_text jd_text)
             = ServiceError e ->
           api_full_analysis c deployment (inl resume_text) (inl jd_text) log
           = (inr (HTTPException 500
                     (str "Sorry, I couldn't generate interview questions due to an AI processing error: "
                      ++ e)),
              log ++ [scoring_request deployment resume_text jd_text;
                      questions_request deployment resume_text jd_text]))
        /\ (forall questions,
              c (questions_request deployment resume_text jd_text)
                = Completion questions ->
              exists res,
                api_full_analysis c deployment (inl resume_text)
                  (inl jd_text) log
                = (inl (FullAnalysis res (strip questions) resume_text
                          jd_text),
                   log ++ [scoring_request deployment resume_text jd_text;
                           questions_request deployment resume_text jd_text])
                /\ analysis_raw res = content)).
Proof.
  split; [|split; [|split]].
  - intros e x. repeat split.
  - intros e E. unfold api_full_analysis, score_resume_against_jd,
      try_except, bind, create, lift, raise, ret. rewrite E. reflexivity.
  - intros content e E Ep. unfold api_full_analysis, score_resume_against_jd,
      try_except, bind, create, lift, raise, ret. rewrite E, Ep. reflexivity.
  - intros content E Hlim.
    destruct (parse_overall_score_total content Hlim) as (v & Ev & _).
    destruct (parse_criteria_scores_total content Hlim) as (d & Ed & _).
    unfold api_full_analysis, score_resume_against_jd,
      generate_interview_questions, try_except, bind, create, lift, raise,
      ret, parse_scoring. fold (questions_request deployment resume_text
                                  jd_text).
    rewrite E, Ev, Ed. cbn [fst snd]. split.
    + intros e Eq. rewrite Eq, <- app_assoc. reflexivity.
    + intros q Eq. rewrite Eq, <- app_assoc. eexists.
      split; reflexivity.
Qed.

Lemma full_analysis_sequence_witness :
  digit_runs_within_limit sample_score_above_range = true
  /\ api_full_analysis (scoring_only_service sample_score_above_range) []
       (inl (str "cv")) (inl (str "jd")) []
     = (inr (HTTPException 500
               (str "Sorry, I couldn't generate interview questions due to an AI processing error: "
                ++ str "unavailable")),
        [] ++ [scoring_request [] (str "cv") (str "jd");
               questions_request [] (str "cv") (str "jd")]).
Proof.
  split; [vm_compute; reflexivity|].
  destruct (full_analysis_sequence
              (scoring_only_service sample_score_above_range) []
              (str "cv") (str "jd") []) as (_ & _ & _ & H).
  destruct (H sample_score_above_range eq_refl
              ltac:(vm_compute; reflexivity)) as [H1 _].
  exact (H1 (str "unavailable") eq_refl).
Defined.

(** X18: The detection endpoint never answers 400: whatever is raised below
    it, the unsupported file type and the empty resume text included, leaves
    it as an [HTTPException] of status 500. In those two cases no request was
    sent. *)
Theorem detection_endpoint_hides_400 (oc : option client) (c : client)
  (deployment content_type : text) (pdf_text decoded : text + exn)
  (include_explanation : bool) (log : list request) :
  match fst (fst (detect_ai_resume_endpoint oc deployment content_type
                    pdf_text decoded include_explanation log)) with
  | inl _ => True
  | inr (HTTPException code _) => code = 500
  | inr (Error _) => False
  end
  /\ (text_eqb content_type (str "application/pdf") = false ->
      text_eqb content_type (str "text/plain") = false ->
      exists detail lines,
        detect_ai_resume_endpoint (Some c) deployment content_type pdf_text
          decoded include_explanation log
        = (inr (HTTPException 500 detail), log, lines)
        /\ occurs (str "Unsupported resume file type.") detail = true)
  /\ (exists detail lines,
        detect_ai_resume_endpoint (Some c) deployment (str "text/plain")
          pdf_text (inl []) include_explanation log
        = (inr (HTTPException 500 detail), log, lines)
        /\ occurs (str "No text extracted from resume.") detail = true).
Proof.
  split; [|split].
  - unfold detect_ai_resume_endpoint. destruct oc as [c0|]; [|reflexivity].
    destruct (if text_eqb content_type (str "application/pdf") then pdf_text
              else if text_eqb content_type (str "text/plain") then decoded
              else _) as [r|e]; [|reflexivity].
    destruct (detect_ai_resume (Some c0) deployment r include_explanation log)
      as [[[res|e] l] o]; reflexivity.
  - intros H1 H2. unfold detect_ai_resume_endpoint. rewrite H1, H2.
    eexists _, _. split; [reflexivity|]. vm_compute. reflexivity.
  - unfold detect_ai_resume_endpoint. eexists _, _.
    split; [reflexivity|]. vm_compute. reflexivity.
Qed.

Lemma detection_endpoint_hides_400_witness :
  exists detail lines,
    detect_ai_resume_endpoint (Some (replying [])) [] (str "image/png")
      (inl (str "cv")) (inl (str "cv")) true []
    = (inr (HTTPException 500 detail), [], lines)
    /\ occurs (str "Unsupported resume file type.") detail = true.
Proof.
  destruct (detection_endpoint_hides_400 None (replying []) []
              (str "image/png") (inl (str "cv")) (inl (str "cv")) true [])
    as (_ & H & _).
  apply H; reflexivity.
Defined.

End ApiFacts.


(** ** Reruns of the front ends *)

Module SessionRuns.
Import Session.

(** X19: A rerun that sees the known resume and JD and a new transcript clears
    the coverage and evaluation results and the conversation, and nothing
    else: the scoring result, the detection result and both extracted texts
    stay. A rerun that sees the three known files changes nothing and shows no
    notice. *)
Theorem transcript_change_keeps_scoring (json : Type)
  (st : session_state json) (transcript_hash : option text) :
  let unchanged :=
    handle_file_changes st.(last_shared_resume_hash) st.(last_jd_hash)
      st.(last_conversation_transcript_hash) st in
  let st' :=
    fst (handle_file_changes st.(last_shared_resume_hash) st.(last_jd_hash)
           transcript_hash st) in
  unchanged = (st, [])
  /\ (transcript_hash <> st.(last_conversation_transcript_hash) ->
      st'.(interview_analysis_results) = None
      /\ st'.(candidate_evaluation_results) = None
      /\ st'.(conversation_history) = []
      /\ st'.(jd_analysis_results) = st.(jd_analysis_results)
      /\ st'.(ai_detection_results) = st.(ai_detection_results)
      /\ st'.(job_description_text) = st.(job_description_text)
      /\ st'.(candidate_resume_text) = st.(candidate_resume_text)
      /\ st'.(last_conversation_transcript_hash) = transcript_hash).
Proof.
  cbv zeta. unfold handle_file_changes.
  rewrite !SessionFacts.hash_eqb_refl. cbn [negb]. split; [reflexivity|].
  intros H. rewrite (SessionFacts.hash_eqb_false _ _ H). cbn [negb fst].
  repeat split.
Qed.

Lemma transcript_change_keeps_scoring_witness :
  let st' :=
    fst (handle_file_changes (Some (str "r1")) (Some (str "j1"))
           (Some (str "t1")) busy_session) in
  st'.(interview_analysis_results) = None
  /\ st'.(jd_analysis_results) = Some 1
  /\ st'.(ai_detection_results) = Some 2.
Proof.
  destruct (transcript_change_keeps_scoring nat busy_session
              (Some (str "t1"))) as [_ H].
  destruct (H ltac:(discriminate)) as (H1 & _ & _ & H4 & H5 & _).
  cbv zeta. split; [exact H1 | split; [exact H4 | exact H5]].
Defined.

Lemma rerun_fixed (json : Type) (st : session_state json)
  (r j t : option text) :
  hash_eqb r st.(last_shared_resume_hash) = true ->
  hash_eqb j st.(last_jd_hash) = true ->
  hash_eqb t st.(last_conversation_transcript_hash) = true ->
  handle_file_changes r j t st = (st, []).
Proof.
  intros Hr Hj Ht. unfold handle_file_changes. now rewrite Hr, Hj, Ht.
Qed.

(** X20: With the same three uploads, the handling of file changes of [app.py]
    settles within three reruns: after them a rerun changes nothing and shows
    no notice, and the hashes remembered are those of the uploads. *)
Theorem reruns_settle (json : Type) (st : session_state json)
  (resume_hash jd_hash transcript_hash : option text) :
  let step := rerun resume_hash jd_hash transcript_hash in
  let st3 := step (step (step st)) in
  handle_file_changes resume_hash jd_hash transcript_hash st3 = (st3, [])
  /\ st3.(last_shared_resume_hash) = resume_hash
  /\ st3.(last_jd_hash) = jd_hash
  /\ st3.(last_conversation_transcript_hash) = transcript_hash.
Proof.
  cbv zeta.
  assert (G : forall s : session_state json,
            hash_eqb resume_hash s.(last_shared_resume_hash) = true ->
            hash_eqb jd_hash s.(last_jd_hash) = true ->
            hash_eqb transcript_hash s.(last_conversation_transcript_hash)
              = true ->
            handle_file_changes resume_hash jd_hash transcript_hash s
              = (s, [])
            /\ s.(last_shared_resume_hash) = resume_hash
            /\ s.(last_jd_hash) = jd_hash
            /\ s.(last_conversation_transcript_hash) = transcript_hash).
  { intros s Hr Hj Ht. split; [now apply rerun_fixed|].
    apply SessionFacts.hash_eqb_true in Hr, Hj, Ht. auto. }
  set (next := fun h : option text * option text * option text =>
                 let '(lr, lj, lt) := h in
                 if negb (hash_eqb resume_hash lr)
                 then (resume_hash, None, None)
                 else if negb (hash_eqb jd_hash lj) then (lr, jd_hash, lt)
                 else if negb (hash_eqb transcript_hash lt)
                 then (lr, lj, transcript_hash)
                 else (lr, lj, lt)).
  set (hashes := fun s : session_state json =>
                   (s.(last_shared_resume_hash), s.(last_jd_hash),
                    s.(last_conversation_transcript_hash))).
  assert (N : forall s,
            hashes (rerun resume_hash jd_hash transcript_hash s)
            = next (hashes s)).
  { intros s. unfold hashes, next, rerun, handle_file_changes.
    destruct (negb (hash_eqb resume_hash _)); [reflexivity|].
    destruct (negb (hash_eqb jd_hash _)); [reflexivity|].
    destruct (negb (hash_eqb transcript_hash _)); reflexivity. }
  assert (T : forall h,
            let '(lr, lj, lt) := next (next (next h)) in
            hash_eqb resume_hash lr = true /\ hash_eqb jd_hash lj = true
            /\ hash_eqb transcript_hash lt = true).
  { intros [[a b] c]. unfold next.
    destruct (hash_eqb resume_hash a) eqn:Ea; cbn [negb];
      rewrite ?SessionFacts.hash_eqb_refl, ?Ea; cbn [negb].
    - destruct (hash_eqb jd_hash b) eqn:Eb; cbn [negb];
        rewrite ?Ea, ?SessionFacts.hash_eqb_refl, ?Eb; cbn [negb].
      + destruct (hash_eqb transcript_hash c) eqn:Ec; cbn [negb];
          rewrite ?Ea, ?Eb, ?SessionFacts.hash_eqb_refl, ?Ec; cbn [negb];
          rewrite ?Ea, ?Eb, ?SessionFacts.hash_eqb_refl, ?Ec; cbn [negb];
          rewrite ?Ea, ?Eb, ?SessionFacts.hash_eqb_refl, ?Ec; auto.
      + destruct (hash_eqb transcript_hash c) eqn:Ec; cbn [negb];
          rewrite ?Ea, ?Eb, ?SessionFacts.hash_eqb_refl, ?Ec; cbn [negb];
          rewrite ?Ea, ?Eb, ?SessionFacts.hash_eqb_refl, ?Ec; cbn [negb];
          rewrite ?Ea, ?Eb, ?SessionFacts.hash_eqb_refl, ?Ec; auto.
    - destruct (hash_eqb jd_hash None) eqn:Eb; cbn [negb];
        rewrite ?Ea, ?SessionFacts.hash_eqb_refl, ?Eb; cbn [negb];
        destruct (hash_eqb transcript_hash None) eqn:Ec; cbn [negb];
        rewrite ?Ea, ?Eb, ?SessionFacts.hash_eqb_refl, ?Ec; cbn [negb];
        rewrite ?Ea, ?Eb, ?SessionFacts.hash_eqb_refl, ?Ec; cbn [negb];
        auto. }
  specialize (T (hashes st)). rewrite <- !N in T. unfold hashes in T.
  destruct T as (T1 & T2 & T3). now apply G.
Qed.

(** X21: The resets keep what the Q&A tab relies on: whenever both extracted
    texts are there, so is the result of the scoring. *)
Theorem resets_keep_qa_guard (json : Type) (st : session_state json)
  (resume_hash jd_hash transcript_hash : option text) :
  (qa_ready st = true -> is_not_none st.(jd_analysis_results) = true) ->
  qa_ready (rerun resume_hash jd_hash transcript_hash st) = true ->
  is_not_none
    (rerun resume_hash jd_hash transcript_hash st).(jd_analysis_results)
  = true.
Proof.
  intros Hst. unfold rerun, handle_file_changes, qa_ready in *.
  destruct (negb (hash_eqb resume_hash _)); [discriminate|].
  destruct (negb (hash_eqb jd_hash _)); [discriminate|].
  destruct (negb (hash_eqb transcript_hash _)); exact Hst.
Qed.

Lemma resets_keep_qa_guard_witness :
  is_not_none
    (rerun (Some (str "r1")) (Some (str "j1")) (Some (str "t1"))
       busy_session).(jd_analysis_results)
  = true.
Proof.
  apply (resets_keep_qa_guard nat busy_session (Some (str "r1"))
           (Some (str "j1")) (Some (str "t1")));
    reflexivity.
Defined.

End SessionRuns.

Module SessionFinalRuns.
Import SessionFinal.

(** X22: In the single-file front end one rerun is enough: the three checks
    are independent, each remembers the hash it saw, and a second rerun with
    the same uploads changes nothing and shows no notice. *)
Theorem final_rerun_settles (json : Type) (st : session_state json)
  (resume_hash jd_hash transcript_hash : option text) :
  let st1 :=
    fst (handle_file_changes resume_hash jd_hash transcript_hash st) in
  handle_file_changes resume_hash jd_hash transcript_hash st1 = (st1, [])
  /\ st1.(last_shared_resume_hash) = resume_hash
  /\ st1.(last_jd_hash) = jd_hash
  /\ st1.(last_conversation_transcript_hash) = transcript_hash.
Proof.
  cbv zeta.
  assert (G : forall s : session_state json,
            s.(last_shared_resume_hash) = resume_hash ->
            s.(last_jd_hash) = jd_hash ->
            s.(last_conversation_transcript_hash) = transcript_hash ->
            handle_file_changes resume_hash jd_hash transcript_hash s
              = (s, [])
            /\ s.(last_shared_resume_hash) = resume_hash
            /\ s.(last_jd_hash) = jd_hash
            /\ s.(last_conversation_transcript_hash) = transcript_hash).
  { intros s Hr Hj Ht. split; [|auto]. unfold handle_file_changes.
    rewrite Hr, SessionFacts.hash_eqb_refl. cbn [negb].
    rewrite Hj, SessionFacts.hash_eqb_refl. cbn [negb].
    rewrite Ht, SessionFacts.hash_eqb_refl. reflexivity. }
  apply G; unfold handle_file_changes;
    destruct (Session.hash_eqb resume_hash (last_shared_resume_hash st))
      eqn:Er;
    destruct (Session.hash_eqb jd_hash (last_jd_hash st)) eqn:Ej;
    destruct (Session.hash_eqb transcript_hash
                (last_conversation_transcript_hash st)) eqn:Et;
    repeat (cbn [negb fst on_jd_change on_resume_change on_transcript_change
                 last_shared_resume_hash last_jd_hash
                 last_conversation_transcript_hash];
            rewrite ?Er, ?Ej, ?Et);
    try reflexivity;
    symmetry; now apply SessionFacts.hash_eqb_true.
Qed.

Lemma final_file_change_resets_witness :
  (fst (handle_file_changes (Some (str "r2")) (Some (str "j1")) None
          busy_final_session)).(ai_detection_results) = None
  /\ (fst (handle_file_changes (Some (str "r1")) (Some (str "j2")) None
             busy_final_session)).(ai_detection_results) = Some 2
  /\ (fst (handle_file_changes (Some (str "r1")) (Some (str "j2")) None
             busy_final_session)).(jd_analysis_results) = None.
Proof.
  pose proof (SessionFinalFacts.final_file_change_resets nat
                busy_final_session (Some (str "r2")) (Some (str "j1")) None)
    as H2.
  pose proof (SessionFinalFacts.final_file_change_resets nat
                busy_final_session (Some (str "r1")) (Some (str "j2")) None)
    as H1.
  cbv zeta in H1, H2.
  destruct H2 as [H2 _]. destruct H1 as [_ H1].
  split; [|split].
  - apply H2. discriminate.
  - rewrite (proj2 (proj2 (proj2 (proj2 (H1 eq_refl ltac:(discriminate)))))).
    reflexivity.
  - apply (H1 eq_refl). discriminate.
Defined.

End SessionFinalRuns.


(** ** Eligibility *)

Module EligibilityFacts.
Import Eligibility.

Lemma text_eqb_eq a : forall b, text_eqb a b = true -> a = b.
Proof.
  induction a as [|x a IH]; intros [|y b] H; try discriminate;
    [reflexivity|].
  cbn [text_eqb] in H. apply andb_true_iff in H. destruct H as [Hx H].
  apply Ascii.eqb_eq in Hx. subst y. now rewrite (IH b H).
Qed.

Lemma dict_get_in (k v : text) (d : dict text) :
  dict_get k d = Some v -> exists k', In (k', v) d.
Proof.
  induction d as [|[k0 v0] d IH]; [discriminate|]. cbn [dict_get].
  destruct (text_eqb k0 k).
  - intros H. inversion H; subst. exists k0. now left.
  - intros H. destruct (IH H) as (k' & Hin). exists k'. now right.
Qed.

Lemma hard_req_loop_false items : forall reasons,
  fst (hard_req_loop items false reasons) = false.
Proof.
  induction items as [|[k v] items IH]; intros reasons; [reflexivity|].
  cbn [hard_req_loop]. destruct (text_eqb v (str "No")); apply IH.
Qed.

Lemma hard_req_loop_no items : forall b reasons,
  fst (hard_req_loop items b reasons) = false ->
  b = false \/ exists k, In (k, str "No") items.
Proof.
  induction items as [|[k v] items IH]; intros b reasons H.
  - now left.
  - cbn [hard_req_loop] in H. destruct (text_eqb v (str "No")) eqn:E.
    + right. exists k. left. apply text_eqb_eq in E. now subst v.
    + destruct (IH _ _ H) as [Hb | (k' & Hin)]; [now left|].
      right. exists k'. now right.
Qed.

Lemma qa_hard_loop_false items : forall reasons,
  fst (qa_hard_loop items false reasons) = false.
Proof.
  induction items as [|[k v] items IH]; intros reasons; [reflexivity|].
  cbn [qa_hard_loop]. destruct (text_eqb v (str "No")); apply IH.
Qed.

Lemma qa_hard_loop_no items k : forall b reasons,
  In (k, str "No") items -> fst (qa_hard_loop items b reasons) = false.
Proof.
  induction items as [|[k0 v0] items IH]; intros b reasons Hin;
    [contradiction|].
  cbn [qa_hard_loop]. destruct Hin as [E | Hin].
  - inversion E; subst. cbn [text_eqb]. apply qa_hard_loop_false.
  - destruct (text_eqb v0 (str "No")); now apply IH.
Qed.

(** X24: The verdict of the Q&A tab is at least as strict as that of the
    analysis tab on the hard requirements: when the analysis tab finds the
    candidate not eligible although the overall score is not below 60, the
    verdict given to the Q&A holds NOT ELIGIBLE too. *)
Theorem analysis_verdict_implies_qa_verdict (hard_requirements : dict text)
  (overall_score : option Z) :
  match overall_score with
  | Some n => (60 <= n)%Z
  | None => True
  end ->
  fst (analysis_eligibility hard_requirements overall_score) = false ->
  fst (qa_eligibility hard_requirements) = false.
Proof.
  intros Hs H. unfold analysis_eligibility in H.
  assert (H' : fst match hard_requirements with
                   | [] => (true, [])
                   | _ => hard_req_loop (hard_req_items hard_requirements)
                            true []
                   end = false).
  { destruct (match hard_requirements with [] => _ | _ => _ end)
      as [b rs].
    destruct overall_score as [n|]; [|exact H].
    destruct (n <? 60)%Z eqn:E; [apply Z.ltb_lt in E; lia | exact H]. }
  clear H. destruct hard_requirements as [|kv d]; [discriminate|].
  apply hard_req_loop_no in H'. destruct H' as [H' | (k & Hin)];
    [discriminate|].
  unfold hard_req_items, dict_get_or in Hin.
  assert (G : forall key,
            match dict_get key (kv :: d) with
            | Some v => v
            | None => str "N/A"
            end = str "No" ->
            fst (qa_eligibility (kv :: d)) = false).
  { intros key E. destruct (dict_get key (kv :: d)) as [v|] eqn:Eg;
      [|discriminate]. subst v.
    destruct (dict_get_in _ _ _ Eg) as (k' & Hk').
    now apply (qa_hard_loop_no _ k'). }
  destruct Hin as [E | [E | [E | [E | []]]]]; inversion E as [[Ek Ev]];
    now apply (G _ Ev).
Qed.

Lemma analysis_verdict_implies_qa_verdict_witness :
  fst (qa_eligibility
         (fold_left store_requirement
            (mandated_requirements (str " Yes") (str " No") (str " Yes")
               (str " N/A")) []))
  = false.
Proof.
  apply (analysis_verdict_implies_qa_verdict
           (fold_left store_requirement
              (mandated_requirements (str " Yes") (str " No") (str " Yes")
                 (str " N/A")) [])
           (Some 87%Z));
    [vm_compute; discriminate | vm_compute; reflexivity].
Defined.

(** X25: The fourth requirement of a reply that follows the prompt never
    reaches the analysis tab: its line is stored under the key with the
    parenthesis, the tab looks up the key without it and shows ["N/A"],
    whatever the value. So a ["No"] there leaves the candidate ELIGIBLE on the
    analysis tab while the verdict given to the Q&A is NOT ELIGIBLE. *)
Theorem fourth_requirement_is_not_shown
  (location availability experience other : text) :
  let stored :=
    fold_left store_requirement
      (mandated_requirements location availability experience other) [] in
  hard_req_items stored
  = [(str "Location Match", strip location);
     (str "Full-time Availability", strip availability);
     (str "Minimum Experience Met", strip experience);
     (str "Other Specific Requirements Met", str "N/A")]
  /\ (strip other = str "No" ->
      fst (qa_eligibility stored) = false
      /\ (text_eqb (strip location) (str "No") = false ->
          text_eqb (strip availability) (str "No") = false ->
          text_eqb (strip experience) (str "No") = false ->
          analysis_eligibility stored (Some 100%Z) = (true, []))).
Proof.
  cbv zeta.
  assert (E : fold_left store_requirement
                (mandated_requirements location availability experience
                   other) []
              = [(str "Location Match", strip location);
                 (str "Full-time Availability", strip availability);
                 (str "Minimum Experience Met", strip experience);
                 (str "Other Specific Requirements Met (e.g., Certifications, Specific Tools, etc.)",
                  strip other)]).
  { unfold mandated_requirements, store_requirement.
    cbn [fold_left fst snd].
    change (strip (str "Location Match")) with (str "Location Match").
    change (strip (str "Full-time Availability"))
      with (str "Full-time Availability").
    change (strip (str "Minimum Experience Met"))
      with (str "Minimum Experience Met").
    change (strip (str "Other Specific Requirements Met (e.g., Certifications, Specific Tools, etc.)"))
      with (str "Other Specific Requirements Met (e.g., Certifications, Specific Tools, etc.)").
    reflexivity. }
  rewrite E. split; [reflexivity|]. intros Ho. split.
  - apply (qa_hard_loop_no _
             (str "Other Specific Requirements Met (e.g., Certifications, Specific Tools, etc.)")).
    rewrite Ho. right. right. right. now left.
  - intros H1 H2 H3. unfold analysis_eligibility.
    change (hard_req_items _)
      with [(str "Location Match", strip location);
            (str "Full-time Availability", strip availability);
            (str "Minimum Experience Met", strip experience);
            (str "Other Specific Requirements Met", str "N/A")].
    cbn [hard_req_loop]. rewrite H1, H2, H3. reflexivity.
Qed.

Lemma fourth_requirement_is_not_shown_witness :
  fst (qa_eligibility
         (fold_left store_requirement
            (mandated_requirements (str " Yes") (str " Yes")
               (str " Not Specified in JD") (str " No")) []))
  = false
  /\ analysis_eligibility
       (fold_left store_requirement
          (mandated_requirements (str " Yes") (str " Yes")
             (str " Not Specified in JD") (str " No")) [])
       (Some 100%Z)
     = (true, []).
Proof.
  destruct (fourth_requirement_is_not_shown (str " Yes") (str " Yes")
              (str " Not Specified in JD") (str " No")) as [_ H].
  destruct (H eq_refl) as [H1 H2]. split; [exact H1|].
  apply H2; reflexivity.
Defined.

End EligibilityFacts.


(** ** Hashing an upload *)

Module FileHashFacts.
Import FileHash.

Section Hasher.

Variable hasher : Type.
Variable sha256 : hasher.
Variable update : hasher -> bytes -> hasher.
Variable hexdigest : hasher -> text.

(** Feeding a hash object piece by piece is feeding it the whole. *)
Hypothesis update_app : forall h a b,
  update (update h a) b = update h (a ++ b).

Lemma firstn_then_rest (n : nat) (l : bytes) :
  l = firstn n l ++ skipn (length (firstn n l)) l.
Proof.
  rewrite length_firstn. destruct (Nat.le_ge_cases n (length l)) as [H|H].
  - rewrite Nat.min_l by lia. symmetry. apply firstn_skipn.
  - rewrite Nat.min_r by lia. rewrite skipn_all, firstn_all2 by lia.
    now rewrite app_nil_r.
Qed.

Lemma buffer_size_positive : 0 < DEFAULT_BUFFER_SIZE.
Proof. unfold DEFAULT_BUFFER_SIZE. lia. Qed.

Lemma read_loop_reads_all content : forall fuel h buf pos,
  buf <> [] ->
  pos <= length content ->
  length (skipn pos content) < fuel ->
  read_loop update fuel h buf (UploadedFile content pos)
  = Some (update h (buf ++ skipn pos content),
          UploadedFile content (length content)).
Proof.
  induction fuel as [|fuel IH]; intros h buf pos Hb Hp Hf; [lia|].
  destruct buf as [|b buf]; [contradiction|].
  cbn [read_loop]. unfold read. cbn [file_content position].
  destruct (firstn DEFAULT_BUFFER_SIZE (skipn pos content)) as [|c cs] eqn:E.
  - assert (Hs : skipn pos content = []).
    { destruct (skipn pos content) as [|x xs]; [reflexivity|].
      pose proof buffer_size_positive as Hpos.
      destruct DEFAULT_BUFFER_SIZE; [lia | discriminate]. }
    rewrite Hs, app_nil_r. cbn [length]. rewrite Nat.add_0_r.
    destruct fuel; cbn [read_loop].
    + assert (Hl : pos = length content).
      { apply (f_equal (@length Byte.byte)) in Hs.
        rewrite length_skipn in Hs. cbn [length] in Hs. lia. }
      now rewrite Hl.
    + assert (Hl : pos = length content).
      { apply (f_equal (@length Byte.byte)) in Hs.
        rewrite length_skipn in Hs. cbn [length] in Hs. lia. }
      now rewrite Hl.
  - assert (Hlen : length (c :: cs) <= length (skipn pos content)).
    { rewrite <- E, length_firstn. lia. }
    assert (Hsk : skipn pos content
                  = (c :: cs) ++ skipn (pos + length (c :: cs)) content).
    { pose proof (firstn_then_rest DEFAULT_BUFFER_SIZE (skipn pos content))
        as H.
      rewrite E, skipn_skipn, Nat.add_comm in H. exact H. }
    rewrite length_skipn in Hlen.
    rewrite (IH (update h (b :: buf)) (c :: cs) (pos + length (c :: cs)));
      [| discriminate | lia |].
    + rewrite update_app, Hsk. reflexivity.
    + rewrite length_skipn. rewrite length_skipn in Hf.
      cbn [length] in *. lia.
Qed.

(** X26: Whatever was read from the upload before, [get_file_hash] gives the
    digest of its whole content (of a new hash object when the upload is
    empty), fed in pieces of the buffer size, and leaves the upload at its
    start; without an upload it gives [None]. One iteration more than the
    content has bytes is always enough. *)
Theorem file_hash_covers_whole_content (f : uploaded_file) (fuel : nat) :
  length f.(file_content) < fuel ->
  get_file_hash sha256 update hexdigest fuel (Some f)
  = Some (Some (hexdigest match f.(file_content) with
                          | [] => sha256
                          | _ => update sha256 f.(file_content)
                          end),
          Some (UploadedFile f.(file_content) 0))
  /\ get_file_hash sha256 update hexdigest fuel None
     = Some (None, None).
Proof.
  intros Hf. split; [|reflexivity].
  destruct f as [content pos]. cbn [file_content] in *.
  unfold get_file_hash, seek, read. cbn [file_content position skipn].
  cbn [Nat.add].
  destruct (firstn DEFAULT_BUFFER_SIZE content) as [|c cs] eqn:E.
  - destruct content as [|x xs].
    + destruct fuel; reflexivity.
    + pose proof buffer_size_positive as Hpos.
      destruct DEFAULT_BUFFER_SIZE; [lia | discriminate].
  - assert (Hlen : length (c :: cs) <= length content).
    { rewrite <- E, length_firstn. lia. }
    assert (Hsk : content = (c :: cs) ++ skipn (length (c :: cs)) content).
    { pose proof (firstn_then_rest DEFAULT_BUFFER_SIZE content) as H.
      rewrite E in H. exact H. }
    rewrite (read_loop_reads_all content fuel sha256 (c :: cs)
               (length (c :: cs)));
      [| discriminate | exact Hlen | rewrite length_skipn; lia].
    rewrite <- Hsk. destruct content; [discriminate | reflexivity].
Qed.

End Hasher.

Lemma file_hash_covers_whole_content_witness :
  get_file_hash [] (fun h b => h ++ b) (fun h => str_of_nat (length h))
    4 (Some sample_upload)
  = Some (Some (str "3"),
          Some (UploadedFile [Byte.x61; Byte.x62; Byte.x63] 0)).
Proof.
  apply (file_hash_covers_whole_content bytes [] (fun h b => h ++ b)
           (fun h => str_of_nat (length h))
           (fun h a b => eq_sym (app_assoc h a b)) sample_upload 4).
  cbn. lia.
Defined.

End FileHashFacts.

(** ** The span of a section, on the sample reply *)

Lemma section_capture_runs_to_end_witness :
  match re_search (re_section (str "COVERED_GENERATED_QUESTIONS"))
          sample_coverage_reply with
  | Some m =>
      rest m = []
      /\ exists before t,
           sample_coverage_reply = before ++ group 1 m
           /\ group 1 m = "-"%char :: t
  | None => False
  end.
Proof.
  destruct (re_search (re_section (str "COVERED_GENERATED_QUESTIONS"))
              sample_coverage_reply) as [m|] eqn:E.
  - exact (section_capture_runs_to_end _ _ _ E).
  - vm_compute in E. discriminate E.
Defined.


(** ** The blocks of an evaluation *)

Lemma run_Alt a b st k :
  run (Alt a b) st k
  = match run a st k with
    | Some m => Some m
    | None => run b st k
    end.
Proof. reflexivity. Qed.

Lemma run_Look a st k :
  run (Look a) st k
  = match run a st (fun st' => Some st') with
    | Some st' => k (MState (prev st) (rest st) (caps st'))
    | None => None
    end.
Proof. reflexivity. Qed.

Lemma run_Eol st k :
  run Eol st k = if at_end_or_last_newline st then k st else None.
Proof. reflexivity. Qed.

Lemma attempt_Lit_mismatch needle r b p s :
  startswith needle s = false ->
  attempt (Cat (Lit needle) r) b p s = None.
Proof.
  intros H. unfold attempt. rewrite run_Cat.
  now apply run_Lit_mismatch.
Qed.

Lemma scan_miss r p c t :
  attempt r false p (c :: t) = None ->
  scan r p (c :: t) 0 = scan r (Some c) t 0.
Proof. intros H. cbn [scan]. now rewrite H. Qed.

Lemma scan_no_header needle r : forall s p,
  occurs needle s = false -> scan (Cat (Lit needle) r) p s 0 = [].
Proof.
  induction s as [|c s IH]; intros p H; cbn [occurs] in H;
    apply orb_false_iff in H; destruct H as [H0 H].
  - cbn [scan]. now rewrite attempt_Lit_mismatch.
  - rewrite scan_miss by now apply attempt_Lit_mismatch. now apply IH.
Qed.

Lemma scan_skip_no_header needle r tail : forall pre p,
  header_before needle pre tail = false ->
  scan (Cat (Lit needle) r) p (pre ++ tail) 0
  = scan (Cat (Lit needle) r) (char_before p pre) tail 0.
Proof.
  induction pre as [|c pre IH]; intros p H; [reflexivity|].
  cbn [header_before] in H. apply orb_false_iff in H. destruct H as [H0 H].
  cbn [app char_before].
  rewrite scan_miss by now apply attempt_Lit_mismatch. now apply IH.
Qed.

Lemma startswith_across_newline H : forall u Y,
  one_line H = true -> startswith H (u ++ nl :: Y) = true ->
  startswith H u = true.
Proof.
  induction H as [|a H IH]; intros u Y Hl Hs; [reflexivity|].
  cbn [one_line forallb] in Hl. apply andb_true_iff in Hl.
  destruct Hl as [Ha Hl]. apply negb_true_iff in Ha. unfold is_char in Ha.
  destruct u as [|b u]; cbn [app startswith] in *.
  - apply andb_true_iff in Hs. destruct Hs as [Hs _].
    rewrite Ascii.eqb_sym in Ha. congruence.
  - apply andb_true_iff in Hs. destruct Hs as [Hb Hs].
    rewrite Hb. now apply (IH u Y).
Qed.

(** Inside a rationale the lookahead that ends a block fails. *)
Lemma rationale_lookahead_fails st0 kf Y cs : forall r pv,
  one_line r = true ->
  occurs overall_performance_header r = false ->
  fails_along
    (fun st' =>
       run (Look (OneOf [Seq [newline; lit "---"; newline];
                         lit "--- OVERALL INTERVIEW PERFORMANCE ---";
                         Eol]))
         (set_cap 4 st0 st') kf)
    pv r (nl :: Y) cs.
Proof.
  induction r as [|x r IH]; intros pv Hl Ho; cbn [fails_along]; [exact I|].
  cbn [one_line forallb] in Hl. apply andb_true_iff in Hl.
  destruct Hl as [Hx Hl]. apply negb_true_iff in Hx.
  cbn [occurs] in Ho. apply orb_false_iff in Ho. destruct Ho as [Ho0 Ho].
  split; [|now apply IH].
  unfold set_cap. cbn [prev rest caps app OneOf Seq].
  assert (E1 : forall st k,
            rest st = x :: r ++ nl :: Y ->
            run (Cat newline (Cat (lit "---") newline)) st k = None).
  { intros [pv0 r0 cs0] k E. cbn [rest] in E. subst r0.
    rewrite run_Cat. unfold newline at 1. rewrite run_Chr_cons.
    now rewrite Hx. }
  assert (E2 : forall st k,
            rest st = x :: r ++ nl :: Y ->
            run (lit "--- OVERALL INTERVIEW PERFORMANCE ---") st k = None).
  { intros st k E. apply run_Lit_mismatch. rewrite E.
    destruct (startswith (str "--- OVERALL INTERVIEW PERFORMANCE ---")
                (x :: r ++ nl :: Y)) eqn:Es; [|reflexivity].
    apply (startswith_across_newline _ (x :: r) Y) in Es;
      [|reflexivity].
    unfold overall_performance_header in Ho0. congruence. }
  rewrite run_Look, run_Alt, E1, run_Alt, E2, run_Eol by reflexivity.
  cbn [at_end_or_last_newline rest]. destruct r; reflexivity.
Qed.

Lemma evaluation_block_text q s ds r X :
  evaluation_block (WrittenBlock q s ds r) ++ block_separator ++ X
  = str "Question: " ++ q ++ nl :: str "Response Summary: " ++ s
    ++ nl :: str "Score: " ++ ds ++ str "/10" ++ nl :: str "Rationale: "
    ++ r ++ nl :: str "---" ++ nl :: X.
Proof.
  unfold evaluation_block, block_separator.
  cbn [asked summarised score_digits reasoned].
  repeat (rewrite <- app_assoc; cbn [app]). reflexivity.
Qed.

(** Inside a one-line text, a continuation that starts with a newline
    fails. *)
Lemma newline_first_fails_along (f : mstate -> mstate) (a : regex)
  (kf : mstate -> option mstate) Y cs :
  (forall st, rest (f st) = rest st) ->
  forall xs pv,
  one_line xs = true ->
  fails_along (fun st' => run (Cat newline a) (f st') kf) pv xs Y cs.
Proof.
  intros Hf. induction xs as [|x xs IH]; intros pv Hl; cbn [fails_along];
    [exact I|].
  cbn [one_line forallb] in Hl. apply andb_true_iff in Hl.
  destruct Hl as [Hx Hl]. apply negb_true_iff in Hx.
  split; [|now apply IH].
  specialize (Hf (MState pv ((x :: xs) ++ Y) cs)).
  destruct (f (MState pv ((x :: xs) ++ Y) cs)) as [pv0 r0 cs0].
  cbn [rest app] in Hf. subst r0.
  rewrite run_Cat. unfold newline at 1. rewrite run_Chr_cons.
  now rewrite Hx.
Qed.

(** The match of the block pattern at a block that is followed by its
    separator: the four groups are the four parts of the block. *)
Lemma eval_block_attempt p b X :
  block_ok b = true ->
  exists pv',
    attempt re_eval_block false p (evaluation_block b ++ block_separator ++ X)
    = Some (MState pv' (block_separator ++ X)
              [(4, b.(reasoned)); (3, b.(score_digits));
               (2, b.(summarised)); (1, b.(asked))]).
Proof.
  destruct b as [q s ds r]. unfold block_ok. cbn [asked summarised
    score_digits reasoned]. intros H.
  apply andb_true_iff in H. destruct H as [H Ho].
  apply andb_true_iff in H. destruct H as [H Hds].
  apply andb_true_iff in H. destruct H as [H Hne].
  apply andb_true_iff in H. destruct H as [H Hr].
  apply andb_true_iff in H. destruct H as [Hq Hs].
  apply negb_true_iff in Ho.
  destruct (one_line_question_facts q Hq) as (_ & Hq1 & _ & _).
  destruct (one_line_question_facts s Hs) as (_ & Hs1 & _ & _).
  destruct (one_line_question_facts r Hr) as (_ & Hr1 & _ & _).
  destruct ds as [|d ds]; [discriminate|].
  cbn [forallb] in Hds. apply andb_true_iff in Hds. destruct Hds as [Hd Hds].
  rewrite evaluation_block_text.
  eexists. unfold attempt, re_eval_block, lit, dot_all, digit, Plus.
  cbn [Seq andb].
  rewrite run_Cat, run_Lit_app, run_Cat, run_Group, run_Star. cbn [rest].
  apply (star_lazy_run (fun _ => true) q).
  - now apply forallb_forall.
  - rewrite length_app. lia.
  - apply (newline_first_fails_along (set_cap 1 _)); [reflexivity|].
    exact Hq1.
  - unfold set_cap. cbn [prev rest caps].
    rewrite (consumed_app _ _ q) by reflexivity.
    rewrite run_Cat. unfold newline at 1. rewrite run_Chr_cons.
    change (is_char nl nl) with true. cbv iota.
    rewrite run_Cat, run_Lit_app, run_Cat, run_Group, run_Star. cbn [rest].
    apply (star_lazy_run (fun _ => true) s).
    + now apply forallb_forall.
    + rewrite length_app. lia.
    + apply (newline_first_fails_along (set_cap 2 _)); [reflexivity|].
      exact Hs1.
    + unfold set_cap. cbn [prev rest caps].
      rewrite (consumed_app _ _ s) by reflexivity.
      rewrite run_Cat. unfold newline at 1. rewrite run_Chr_cons.
      change (is_char nl nl) with true. cbv iota.
      rewrite run_Cat, run_Lit_app, run_Cat, run_Group, run_Cat.
      cbn [app]. rewrite run_Chr_cons, Hd, run_Star. cbn [rest].
      apply star_greedy_run;
        [exact Hds | reflexivity | rewrite length_app; lia |].
      unfold set_cap. cbn [prev rest caps].
      rewrite (consumed_app _ _ (d :: ds)) by reflexivity.
      rewrite run_Cat, run_Lit_app, run_Cat. unfold newline at 1.
      rewrite run_Chr_cons. change (is_char nl nl) with true. cbv iota.
      rewrite run_Cat, run_Lit_app, run_Cat, run_Group, run_Star.
      cbn [rest].
      apply (star_lazy_run (fun _ => true) r).
      * now apply forallb_forall.
      * rewrite length_app. lia.
      * apply rationale_lookahead_fails; assumption.
      * unfold set_cap. cbn [prev rest caps].
        rewrite (consumed_app _ _ r) by reflexivity.
        cbn [OneOf]. rewrite run_Look, run_Alt, run_Cat.
        unfold newline at 1. rewrite run_Chr_cons.
        change (is_char nl nl) with true. cbv iota.
        rewrite run_Cat, run_Lit_app. unfold newline.
        rewrite run_Chr_cons. change (is_char nl nl) with true. cbv iota.
        cbn [prev rest caps]. reflexivity.
Qed.

Lemma scan_hit_skip r p xs s' m :
  xs <> [] ->
  attempt r false p (xs ++ s') = Some m -> rest m = s' ->
  scan r p (xs ++ s') 0 = m :: scan r (char_before p xs) s' 0.
Proof.
  intros Hne Ha Hr. destruct xs as [|c xs]; [contradiction|].
  cbn [app] in *. cbn [scan]. rewrite Ha, Hr.
  replace (length (c :: xs ++ s') - length s') with (S (length xs))
    by (cbn [length]; rewrite length_app; lia).
  now rewrite scan_skip.
Qed.

(** Scanning the blocks of an evaluation finds one match per block, whose
    groups are the parts of the block. *)
Lemma eval_blocks_scan tail :
  occurs (str "Question: ") tail = false ->
  forall bs p,
  forallb block_ok bs = true ->
  map caps (scan re_eval_block p (evaluation_blocks bs ++ tail) 0)
  = map (fun b => [(4, b.(reasoned)); (3, b.(score_digits));
                   (2, b.(summarised)); (1, b.(asked))]) bs.
Proof.
  intros Ht. induction bs as [|b bs IH]; intros p Hb.
  - cbn [evaluation_blocks flat_map app map].
    unfold re_eval_block, lit. cbn [Seq].
    now rewrite scan_no_header.
  - cbn [forallb] in Hb. apply andb_true_iff in Hb. destruct Hb as [Hb Hbs].
    cbn [evaluation_blocks flat_map]. fold (evaluation_blocks bs).
    rewrite <- !app_assoc.
    destruct (eval_block_attempt p b (evaluation_blocks bs ++ tail) Hb)
      as (pv' & Ea).
    assert (Hne : evaluation_block b <> []).
    { unfold evaluation_block. intros E.
      destruct (app_eq_nil _ _ E) as [E0 _]. discriminate E0. }
    rewrite (scan_hit_skip _ _ _ _ _ Hne Ea eq_refl).
    cbn [map caps]. f_equal.
    unfold block_separator.
    cbn [str String.list_ascii_of_string app].
    unfold re_eval_block, lit. cbn [Seq].
    rewrite !scan_miss by (apply attempt_Lit_mismatch; reflexivity).
    apply (IH _ Hbs).
Qed.

(** The digits that the block pattern captures in a text whose runs of
    digits are within the limit of [int]. *)
Lemma eval_block_digits_short content :
  digit_runs_within_limit content = true ->
  Forall (fun m => length (group 3 m) <= max_str_digits)
    (re_finditer re_eval_block content).
Proof.
  intros Hlim. eapply Forall_impl; [|apply re_finditer_in].
  intros m Hm. cbv beta.
  destruct (eval_block_capture m (match_in_match_of _ _ _ Hm)) as [_ Hd].
  now apply (captured_digits_short _ _ _ 3 Hm).
Qed.

Lemma blocks_loop_of_caps : forall ms bs,
  map caps ms
  = map (fun b => [(4, b.(reasoned)); (3, b.(score_digits));
                   (2, b.(summarised)); (1, b.(asked))]) bs ->
  forallb block_ok bs = true ->
  Forall (fun m => length (group 3 m) <= max_str_digits) ms ->
  blocks_loop ms = inl (map evaluation_of bs).
Proof.
  induction ms as [|m ms IH]; intros [|b bs] E Hb Hlen; try discriminate;
    [reflexivity|].
  cbn [map] in E. inversion E as [[Ec Em]]. clear E.
  cbn [forallb] in Hb. apply andb_true_iff in Hb. destruct Hb as [Hb Hbs].
  inversion Hlen as [|m0 ms0 Hl Hls]; subst m0 ms0.
  unfold group in Hl. rewrite Ec in Hl. cbn [lookup_cap Nat.eqb] in Hl.
  cbn [blocks_loop]. unfold group. rewrite Ec.
  cbn [lookup_cap Nat.eqb]. rewrite (IH bs Em Hbs Hls).
  unfold block_ok in Hb.
  apply andb_true_iff in Hb. destruct Hb as [Hb _].
  apply andb_true_iff in Hb. destruct Hb as [Hb Hds].
  apply andb_true_iff in Hb. destruct Hb as [Hb Hne].
  apply andb_true_iff in Hb. destruct Hb as [Hb Hr].
  apply andb_true_iff in Hb. destruct Hb as [Hq Hs].
  destruct (one_line_question_facts _ Hq) as (_ & _ & Hq1 & Hq2).
  destruct (one_line_question_facts _ Hs) as (_ & _ & Hs1 & Hs2).
  destruct (one_line_question_facts _ Hr) as (_ & _ & Hr1 & Hr2).
  rewrite int_of_digits;
    [| now destruct (score_digits b) | exact Hds | exact Hl].
  rewrite !strip_trimmed_id by assumption. reflexivity.
Qed.

Lemma parse_evaluation_blocks content evs :
  digit_runs_within_limit content = true ->
  blocks_loop (re_finditer re_eval_block content) = inl evs ->
  exists res,
    parse_evaluation content = inl res
    /\ individual_evaluations res = evs.
Proof.
  intros Hlim E. unfold parse_evaluation. rewrite E.
  destruct (re_search re_eval_overall_score content) as [m|] eqn:Em.
  - apply re_search_in in Em.
    destruct (eval_overall_score_capture m (match_in_match_of _ _ _ Em))
      as [Hne Hd].
    rewrite (int_of_digits _ Hne Hd
               (captured_digits_short _ _ _ 1 Em Hlim Hd)).
    eexists. split; reflexivity.
  - eexists. split; reflexivity.
Qed.

(** X27: when the answer to the evaluation request holds, after a preamble
    without [Question: ], the blocks as the prompt asks for them (question,
    response summary, score and rationale on a line each, every block
    followed by a line [---]) and then a rest without [Question: ], and none
    of its runs of digits is longer than the 4300 that [int] accepts, the
    evaluation returns exactly one evaluation per block, in order, with the
    texts of the block and the value of its score. *)
Theorem evaluation_blocks_round_trip (c : client)
  (deployment_name q : text) (qs : list text)
  (conversation_transcript jd_text resume_text pre tail : text)
  (bs : list written_block) (log : list request) :
  c (evaluation_request deployment_name (q :: qs) conversation_transcript
       jd_text resume_text)
    = Completion (pre ++ evaluation_blocks bs ++ tail) ->
  digit_runs_within_limit (pre ++ evaluation_blocks bs ++ tail) = true ->
  starts_with_space (pre ++ evaluation_blocks bs ++ tail) = false ->
  ends_with_space (pre ++ evaluation_blocks bs ++ tail) = false ->
  forallb block_ok bs = true ->
  header_before (str "Question: ") pre (evaluation_blocks bs ++ tail)
    = false ->
  occurs (str "Question: ") tail = false ->
  exists res,
    evaluate_candidate_responses_holistically c deployment_name (q :: qs)
      conversation_transcript jd_text resume_text log
    = (inl res,
       log ++ [evaluation_request deployment_name (q :: qs)
                 conversation_transcript jd_text resume_text])
    /\ individual_evaluations res = map evaluation_of bs.
Proof.
  intros Hc Hlim Hs He Hb Hpre Ht.
  assert (E : blocks_loop
                (re_finditer re_eval_block
                   (pre ++ evaluation_blocks bs ++ tail))
              = inl (map evaluation_of bs)).
  { apply blocks_loop_of_caps;
      [|exact Hb | now apply eval_block_digits_short].
    unfold re_finditer.
    unfold re_eval_block at 1, lit. cbn [Seq].
    rewrite (scan_skip_no_header _ _ _ _ _ Hpre).
    apply (eval_blocks_scan tail Ht bs _ Hb). }
  destruct (parse_evaluation_blocks _ _ Hlim E) as (res & Ep & Ei).
  exists res. split; [|exact Ei].
  unfold evaluate_candidate_responses_holistically, try_except, bind, create,
    lift.
  rewrite Hc, (strip_trimmed_id _ Hs He), Ep. reflexivity.
Qed.

Lemma evaluation_blocks_round_trip_witness :
  exists res,
    evaluate_candidate_responses_holistically
      (replying (sample_evaluation_start ++ evaluation_blocks sample_blocks
                 ++ sample_evaluation_tail))
      [] [str "What is X?"] [] [] [] []
    = (inl res, [] ++ [evaluation_request [] [str "What is X?"] [] [] []])
    /\ individual_evaluations res
       = [IndividualEvaluation (str "What is X?")
            (str "He said Y: Question: none.") 7%Z (str "Good - really.");
          IndividualEvaluation (str "What is Z?")
            (str "No clear response found") 0%Z (str "Missing.")].
Proof.
  apply (evaluation_blocks_round_trip
           (replying (sample_evaluation_start
                      ++ evaluation_blocks sample_blocks
                      ++ sample_evaluation_tail))
           [] (str "What is X?") [] [] [] [] sample_evaluation_start
           sample_evaluation_tail sample_blocks []);
    [reflexivity | vm_compute; reflexivity ..].
Defined.


(** ** Questions without numbers *)

Lemma no_digit_has_no_digit s xs c ys :
  no_digit s = true -> s = xs ++ c :: ys -> isdigit c = false.
Proof.
  intros H E. subst s. unfold no_digit in H. rewrite forallb_app in H.
  apply andb_true_iff in H. destruct H as [_ H]. cbn [forallb] in H.
  apply andb_true_iff in H. destruct H as [H _].
  now apply negb_true_iff in H.
Qed.

Lemma numbered_question_needs_digit b p s :
  no_digit s = true -> attempt re_numbered_question b p s = None.
Proof.
  intros H. destruct (attempt re_numbered_question b p s) as [m|] eqn:E;
    [|reflexivity].
  apply attempt_sound in E. unfold re_numbered_question in E.
  cbn [Seq] in E.
  apply matches_Cat in E. destruct E as (s1 & H1 & E).
  apply matches_Cat in E. destruct E as (s2 & H2 & E).
  apply matches_Cat in E. destruct E as (s3 & H3 & _).
  inversion H1; subst. apply matches_chr_star in H2.
  destruct H2 as (xs & Hx & _). apply matches_chr_plus in H3.
  destruct H3 as (c & ys & Hy & Hc & _). cbn [rest] in Hx.
  rewrite Hy in Hx. cbn [app] in Hx.
  rewrite (no_digit_has_no_digit _ _ _ _ H Hx) in Hc. discriminate.
Qed.

Lemma numbered_line_needs_digit s :
  no_digit s = true -> re_match re_numbered_line s = None.
Proof.
  intros H. unfold re_match.
  destruct (attempt re_numbered_line false None s) as [m|] eqn:E;
    [|reflexivity].
  apply attempt_sound in E. unfold re_numbered_line in E. cbn [Seq] in E.
  apply matches_Cat in E. destruct E as (s1 & H1 & E).
  apply matches_Cat in E. destruct E as (s2 & H2 & _).
  inversion H1; subst. apply matches_chr_plus in H2.
  destruct H2 as (c & ys & Hy & Hc & _). cbn [rest app] in Hy.
  rewrite (no_digit_has_no_digit _ [] _ _ H Hy) in Hc. discriminate.
Qed.

Lemma scan_without_digit : forall s p busy,
  no_digit s = true -> scan re_numbered_question p s busy = [].
Proof.
  induction s as [|c s IH]; intros p busy H; cbn [scan].
  - destruct busy; [|reflexivity].
    now rewrite numbered_question_needs_digit.
  - assert (Hs : no_digit s = true).
    { unfold no_digit in *. cbn [forallb] in H.
      apply andb_true_iff in H. now destruct H. }
    destruct busy; [|now apply IH].
    rewrite numbered_question_needs_digit by exact H. now apply IH.
Qed.

Lemma split_on_no_digit sep : forall s,
  no_digit s = true -> Forall (fun l => no_digit l = true) (split_on sep s).
Proof.
  induction s as [|c s IH]; intros H; cbn [split_on].
  - constructor; [reflexivity | constructor].
  - unfold no_digit in H. cbn [forallb] in H. apply andb_true_iff in H.
    destruct H as [Hc H]. specialize (IH H).
    destruct (Ascii.eqb c sep).
    + constructor; [reflexivity | exact IH].
    + destruct (split_on sep s) as [|piece pieces].
      * constructor; [|constructor]. unfold no_digit. cbn [forallb].
        now rewrite Hc.
      * inversion IH; subst. constructor; [|assumption].
        unfold no_digit in *. cbn [forallb]. now rewrite Hc.
Qed.

Lemma fallback_lines_without_digit lines :
  Forall (fun l => no_digit l = true) lines ->
  filter nonempty (flat_map fallback_line lines)
  = filter nonempty (map strip lines).
Proof.
  induction 1 as [|l lines Hl _ IH]; [reflexivity|].
  cbn [flat_map map filter]. rewrite filter_app, IH. unfold fallback_line.
  rewrite numbered_line_needs_digit
    by (apply AiDetectionFacts.forallb_strip; exact Hl).
  destruct (nonempty (strip l)) eqn:E; cbn [filter app]; now rewrite ?E.
Qed.

(** X28: a text without any digit has no numbered question, so the fallback
    pass decides: the result is the list of its lines, stripped, the empty
    ones left out.  Every line counts as a question, whatever it says. *)
Theorem digit_free_text_falls_back (question_text : text) :
  no_digit question_text = true ->
  _parse_generated_questions question_text
  = filter nonempty (map strip (split_on nl question_text)).
Proof.
  intros H. unfold _parse_generated_questions, primary_pass, re_finditer.
  rewrite (scan_without_digit _ _ _ H). cbn [map filter].
  unfold fallback_pass. apply fallback_lines_without_digit.
  now apply split_on_no_digit.
Qed.

Lemma digit_free_text_falls_back_witness :
  _parse_generated_questions (str "Here are the questions:

 Why this role?
- Describe a hard bug.  ")
  = [str "Here are the questions:"; str "Why this role?";
     str "- Describe a hard bug."].
Proof.
  apply (digit_free_text_falls_back (str "Here are the questions:

 Why this role?
- Describe a hard bug.  ")).
  reflexivity.
Defined.


(** ** The filter of the criteria loop *)

Lemma upper_label_char c :
  label_char c = true -> Ascii.eqb (upper_char c) "_"%char = false.
Proof.
  destruct c as [[] [] [] [] [] [] [] []]; vm_compute; congruence.
Qed.

Lemma upper_label_no_underscore s :
  forallb label_char s = true ->
  forallb (fun c => negb (Ascii.eqb c "_"%char)) (upper s) = true.
Proof.
  unfold upper. induction s as [|c s IH]; intros H; [reflexivity|].
  cbn [forallb map] in *. apply andb_true_iff in H. destruct H as [Hc H].
  now rewrite (upper_label_char _ Hc), (IH H).
Qed.

Lemma label_is_not_overall_score l :
  forallb label_char l = true ->
  text_eqb (upper (strip l)) (str "OVERALL_SCORE") = false.
Proof.
  intros H. apply AiDetectionFacts.forallb_strip in H.
  apply upper_label_no_underscore in H.
  destruct (text_eqb _ _) eqn:E; [|reflexivity].
  apply EligibilityFacts.text_eqb_eq in E.
  rewrite E in H. discriminate H.
Qed.

(** The labels that the criteria pattern captures, whatever the text. *)
Lemma criteria_labels_captured content :
  Forall (fun ls => forallb label_char (fst ls) = true)
    (re_findall2 re_criteria_line content).
Proof.
  unfold re_findall2.
  pose proof (re_finditer_sound re_criteria_line content) as H.
  induction H as [|m l Hm _ IH]; cbn [map]; constructor; [|exact IH].
  destruct (criteria_line_capture m Hm) as ((body & c & El & Hb & Hc) & _).
  cbn [fst]. rewrite El, forallb_app, Hb. cbn [forallb].
  unfold label_char. now rewrite Hc.
Qed.

Lemma criteria_filter_is_dead lines :
  Forall (fun ls => forallb label_char (fst ls) = true) lines ->
  existsb is_overall_score_label lines = false.
Proof.
  induction 1 as [|ls lines Hl _ IH]; [reflexivity|].
  cbn [existsb]. rewrite IH. unfold is_overall_score_label.
  rewrite label_is_not_overall_score by exact Hl. reflexivity.
Qed.

Lemma criteria_loop_keeps_all lines :
  Forall (fun ls =>
            (exists body c, fst ls = body ++ [c]
                            /\ forallb label_char body = true
                            /\ is_letter c = true)
            /\ snd ls <> [] /\ forallb isdigit (snd ls) = true
            /\ length (snd ls) <= max_str_digits) lines ->
  forall d, criteria_loop lines d = inl (fold_left store_criterion lines d).
Proof.
  induction 1 as [|[label sc] lines Hl _ IH]; [reflexivity|].
  destruct Hl as ((body & c & El & Hb & Hc) & Hne & Hds & Hlen).
  cbn [fst snd] in El, Hne, Hds, Hlen.
  assert (L : text_eqb (upper (strip label)) (str "OVERALL_SCORE") = false).
  { apply label_is_not_overall_score.
    rewrite El, forallb_app, Hb. cbn [forallb]. unfold label_char.
    now rewrite Hc. }
  intros d. cbn [criteria_loop fold_left]. rewrite L. cbn [negb].
  rewrite (int_of_digits _ Hne Hds Hlen). apply IH.
Qed.

Lemma parse_criteria_scores_fold content :
  digit_runs_within_limit content = true ->
  parse_criteria_scores content
  = inl (fold_left store_criterion (re_findall2 re_criteria_line content) []).
Proof.
  intros Hlim. unfold parse_criteria_scores.
  apply criteria_loop_keeps_all. now apply criteria_lines_captured.
Qed.

(** X29: the test [cleaned_label.upper() != "OVERALL_SCORE"] of the criteria
    loop never filters a line out, whatever the reply: a label matched by
    the criteria pattern holds letters, whitespace and [/] only, so it is
    never the header of the overall score.  When, besides, no run of digits
    of the reply is longer than the 4300 that [int] accepts, scoring returns
    and [criteria_scores] holds an entry for every match of the pattern:
    stripped label to the value of the digits, a repeated label keeping its
    first place and taking its last value. *)
Theorem overall_score_filter_never_applies
  (deployment_name resume_text jd_text content : text) :
  existsb is_overall_score_label (re_findall2 re_criteria_line content)
    = false
  /\ (digit_runs_within_limit content = true ->
      exists res,
        score_resume_against_jd (replying content) deployment_name
          resume_text jd_text []
        = (inl res, [scoring_request deployment_name resume_text jd_text])
        /\ criteria_scores res
           = fold_left store_criterion
               (re_findall2 re_criteria_line content) []).
Proof.
  split.
  - apply criteria_filter_is_dead, criteria_labels_captured.
  - intros Hlim.
    destruct (score_reply_total deployment_name resume_text jd_text content
                Hlim) as (v & d & E & _ & Ed & _).
    eexists. split; [exact E|]. cbn [criteria_scores].
    rewrite (parse_criteria_scores_fold _ Hlim) in Ed. now inversion Ed.
Qed.

Lemma overall_score_filter_never_applies_witness :
  digit_runs_within_limit sample_unknown_label = true
  /\ exists res,
       score_resume_against_jd (replying sample_unknown_label) [] [] [] []
       = (inl res, [scoring_request [] [] []])
       /\ criteria_scores res
          = [(str "Technical Skills Match", 90%Z); (str "Leadership", 40%Z)].
Proof.
  split; [vm_compute; reflexivity|].
  destruct (proj2 (overall_score_filter_never_applies [] [] []
                     sample_unknown_label) ltac:(vm_compute; reflexivity))
    as (res & E & Ec).
  exists res. split; [exact E|]. rewrite Ec. vm_compute. reflexivity.
Defined.

(** ** The keys of the criteria scores *)

Lemma dict_set_key_in {V : Type} k (v : V) d :
  In k (dict_keys (dict_set k v d)).
Proof.
  unfold dict_keys.
  induction d as [|[k' v'] d IH]; cbn [dict_set]; [now left|].
  destruct (text_eqb k' k) eqn:E; cbn [map fst].
  - apply EligibilityFacts.text_eqb_eq in E. subst k'. now left.
  - right. exact IH.
Qed.

Lemma dict_set_key_kept {V : Type} k k' (v : V) d :
  In k' (dict_keys d) -> In k' (dict_keys (dict_set k v d)).
Proof.
  unfold dict_keys.
  induction d as [|[k0 v0] d IH]; intros H; [contradiction|].
  cbn [dict_set]. cbn [map fst In] in H.
  destruct (text_eqb k0 k); cbn [map fst In]; destruct H as [H|H]; auto.
Qed.

Lemma dict_set_key_from {V : Type} k k' (v : V) d :
  In k' (dict_keys (dict_set k v d)) -> k' = k \/ In k' (dict_keys d).
Proof.
  unfold dict_keys.
  induction d as [|[k0 v0] d IH]; cbn [dict_set].
  - cbn [map fst In]. intros [H|[]]. now left.
  - destruct (text_eqb k0 k); cbn [map fst In]; intros [H|H]; auto.
    destruct (IH H); auto.
Qed.

(** The keys stored by the criteria loop are the stripped labels of its
    lines, and the keys that were there before. *)
Lemma store_criteria_keys lines : forall d k,
  In k (dict_keys (fold_left store_criterion lines d))
  <-> In k (dict_keys d) \/ exists ls, In ls lines /\ k = strip (fst ls).
Proof.
  induction lines as [|ls lines IH]; intros d k; cbn [fold_left].
  - split; [now left | intros [H|(ls & [] & _)]; exact H].
  - rewrite IH. unfold store_criterion at 1. split.
    + intros [H|(ls' & Hin & E)].
      * apply dict_set_key_from in H. destruct H as [H|H]; [|now left].
        right. exists ls. split; [now left | exact H].
      * right. exists ls'. split; [now right | exact E].
    + intros [H|(ls' & [Hin|Hin] & E)].
      * left. now apply dict_set_key_kept.
      * left. subst ls' k. apply dict_set_key_in.
      * right. now exists ls'.
Qed.

(** C6 (amended): the pattern [<label>: <int>/100] is applied at every line
    start to any label made of letters, whitespace and [/] that ends with a
    letter, whether the label is one of the five of the prompt or not, and
    no line that it matches is ignored.  For a reply none of whose runs of
    digits is longer than the 4300 that [int] accepts, scoring returns a
    result whose keys of [criteria_scores] are exactly the stripped labels
    of the lines that the pattern matches, each of them shaped like a
    label. *)
Theorem criteria_keys_are_labels
  (deployment_name resume_text jd_text content : text) :
  digit_runs_within_limit content = true ->
  exists res,
    score_reply deployment_name resume_text jd_text content = Some res
    /\ Forall (fun k => criteria_key k = true)
         (dict_keys (criteria_scores res))
    /\ (forall k,
          In k (dict_keys (criteria_scores res))
          <-> exists label score,
                In (label, score) (re_findall2 re_criteria_line content)
                /\ k = strip label).
Proof.
  intros Hlim.
  destruct (score_reply_fields deployment_name resume_text jd_text content
              Hlim) as (v & d & E & _ & _ & Hk & _).
  destruct (score_reply_total deployment_name resume_text jd_text content
              Hlim) as (v' & d' & E' & _ & Ed & _).
  unfold score_reply, returned in E. rewrite E' in E. cbn [fst] in E.
  inversion E; subst v' d'. clear E.
  eexists. split; [unfold score_reply, returned; rewrite E'; reflexivity|].
  split; [exact Hk|]. cbn [criteria_scores].
  rewrite (parse_criteria_scores_fold _ Hlim) in Ed. inversion Ed; subst d.
  intros k. rewrite store_criteria_keys. split.
  - intros [[]|((label & sc) & Hin & Ek)]. now exists label, sc.
  - intros (label & sc & Hin & Ek). right. now exists (label, sc).
Qed.

Lemma criteria_keys_are_labels_witness :
  digit_runs_within_limit sample_unknown_label = true
  /\ exists res,
       score_reply [] [] [] sample_unknown_label = Some res
       /\ Forall (fun k => criteria_key k = true)
            (dict_keys (criteria_scores res))
       /\ (forall k,
             In k (dict_keys (criteria_scores res))
             <-> exists label score,
                   In (label, score)
                     (re_findall2 re_criteria_line sample_unknown_label)
                   /\ k = strip label).
Proof.
  split; [vm_compute; reflexivity|].
  apply (criteria_keys_are_labels [] [] [] sample_unknown_label).
  vm_compute. reflexivity.
Defined.

(** ** The overall fields of an evaluation *)

Lemma eval_overall_score_attempt p sp ds post :
  forallb isspace sp = true -> ds <> [] -> forallb isdigit ds = true ->
  exists pv',
    attempt re_eval_overall_score false p
      (str "Overall Score:" ++ sp ++ ds ++ str "/100" ++ post)
    = Some (MState pv' post [(1, ds)]).
Proof.
  intros Hsp Hne Hds. destruct ds as [|d ds]; [contradiction|].
  cbn [forallb] in Hds. apply andb_true_iff in Hds. destruct Hds as [Hd Hds].
  eexists. unfold attempt, re_eval_overall_score, lit, ws, digit, Plus.
  cbn [Seq].
  rewrite run_Cat, run_Lit_app, run_Cat, run_Star. cbn [rest].
  apply star_greedy_run; [exact Hsp | | rewrite length_app; lia |].
  { simpl. now apply isdigit_not_space. }
  rewrite run_Cat, run_Group, run_Cat. cbn [app].
  rewrite run_Chr_cons, Hd, run_Star. cbn [rest].
  apply star_greedy_run; [exact Hds | reflexivity | rewrite length_app; lia |].
  unfold set_cap. cbn [prev rest caps].
  rewrite run_Lit_app. cbn [andb].
  rewrite (consumed_app _ _ (d :: ds)); reflexivity.
Qed.

(** Inside a one-line summary the lookahead that ends it fails. *)
Lemma summary_lookahead_fails st0 kf Y cs : forall xs pv,
  one_line xs = true ->
  fails_along
    (fun st' =>
       run (Look (Alt (Seq [newline; lit "--- EVALUATION END ---"]) Eol))
         (set_cap 1 st0 st') kf)
    pv xs Y cs.
Proof.
  induction xs as [|x xs IH]; intros pv Hl; cbn [fails_along]; [exact I|].
  cbn [one_line forallb] in Hl. apply andb_true_iff in Hl.
  destruct Hl as [Hx Hl]. split; [|now apply IH].
  apply negb_true_iff in Hx.
  unfold set_cap. cbn [prev rest caps app Seq].
  rewrite run_Look, run_Alt, run_Cat. unfold newline at 1.
  rewrite run_Chr_cons, Hx, run_Eol.
  cbn [at_end_or_last_newline rest]. unfold is_char in Hx.
  rewrite Ascii.eqb_sym in Hx. rewrite Hx. now destruct (xs ++ Y).
Qed.

Lemma eval_overall_summary_attempt p sp summary fin :
  forallb isspace sp = true ->
  one_line_question summary = true ->
  ends_summary fin = true ->
  exists pv',
    attempt re_eval_overall_summary false p
      (str "Overall Summary:" ++ sp ++ summary ++ fin)
    = Some (MState pv' fin [(1, summary)]).
Proof.
  intros Hsp Hq Hf.
  destruct (one_line_question_facts _ Hq) as (Hne & Hl & Hs & _).
  eexists. unfold attempt, re_eval_overall_summary, lit, ws, dot_all.
  cbn [Seq].
  rewrite run_Cat, run_Lit_app, run_Cat, run_Star. cbn [rest].
  apply star_greedy_run; [exact Hsp | | rewrite length_app; lia |].
  { destruct summary; [contradiction | exact Hs]. }
  rewrite run_Cat, run_Group, run_Star. cbn [rest].
  apply (star_lazy_run (fun _ => true) summary).
  - now apply forallb_forall.
  - rewrite length_app. lia.
  - now apply summary_lookahead_fails.
  - unfold set_cap. cbn [prev rest caps].
    rewrite (consumed_app _ _ summary) by reflexivity.
    rewrite run_Look, run_Alt. cbn [Seq andb].
    destruct fin as [|c fin].
    + rewrite run_Cat. unfold newline at 1. rewrite run_Chr_nil, run_Eol.
      reflexivity.
    + cbn [ends_summary] in Hf. apply startswith_app_inv in Hf.
      destruct Hf as (more & ->). cbn [app].
      rewrite run_Cat. unfold newline at 1. rewrite run_Chr_cons.
      change (is_char nl nl) with true. cbv iota.
      rewrite run_Lit_app. reflexivity.
Qed.

(** X30: the overall score and the overall summary of an evaluation are read
    at the first [Overall Score:] and the first [Overall Summary:] of the
    stripped answer: with digits and [/100] after the first, a one-line
    summary after the second that is followed by the line
    [--- EVALUATION END ---] or ends the answer, and no run of digits longer
    than the 4300 that [int] accepts anywhere in the answer, the evaluation
    returns a result that holds the value of the digits and the summary. *)
Theorem evaluation_overall_round_trip (c : client)
  (deployment_name q : text) (qs : list text)
  (conversation_transcript jd_text resume_text : text)
  (pre sp ds mid sp' summary fin : text) (log : list request) :
  let scored := str "Overall Score:" ++ sp ++ ds ++ str "/100" ++ mid in
  let summarized := str "Overall Summary:" ++ sp' ++ summary ++ fin in
  let content := pre ++ scored ++ summarized in
  c (evaluation_request deployment_name (q :: qs) conversation_transcript
       jd_text resume_text) = Completion content ->
  digit_runs_within_limit content = true ->
  starts_with_space content = false -> ends_with_space content = false ->
  header_before (str "Overall Score:") pre (scored ++ summarized) = false ->
  header_before (str "Overall Summary:") (pre ++ scored) summarized
    = false ->
  forallb isspace sp = true -> ds <> [] -> forallb isdigit ds = true ->
  forallb isspace sp' = true -> one_line_question summary = true ->
  ends_summary fin = true ->
  exists res,
    evaluate_candidate_responses_holistically c deployment_name (q :: qs)
      conversation_transcript jd_text resume_text log
    = (inl res,
       log ++ [evaluation_request deployment_name (q :: qs)
                 conversation_transcript jd_text resume_text])
    /\ overall_interview_score res = digits_value ds
    /\ overall_interview_summary res = summary.
Proof.
  cbv zeta. intros Hc Hlim Hs He Hp1 Hp2 Hsp Hne Hds Hsp' Hq Hf.
  set (content := pre ++ (str "Overall Score:" ++ sp ++ ds ++ str "/100"
                          ++ mid)
                  ++ str "Overall Summary:" ++ sp' ++ summary ++ fin) in *.
  destruct (parse_evaluation_total content Hlim) as (res & E & _).
  exists res. split.
  - unfold evaluate_candidate_responses_holistically, try_except, bind,
      create, lift.
    rewrite Hc, (strip_trimmed_id _ Hs He), E. reflexivity.
  - unfold parse_evaluation in E.
    assert (E1 : exists m, re_search re_eval_overall_score content = Some m
                           /\ group 1 m = ds).
    { unfold re_search, content.
      rewrite search_from_skip;
        [|unfold re_eval_overall_score, lit; cbn [Seq];
          now apply header_absent_no_match].
      rewrite <- !app_assoc.
      destruct (eval_overall_score_attempt (char_before None pre) sp ds
                  (mid ++ str "Overall Summary:" ++ sp' ++ summary ++ fin)
                  Hsp Hne Hds) as (pv' & Ea).
      rewrite (search_from_hit _ _ _ _ Ea). eexists.
      split; reflexivity. }
    assert (E2 : exists m, re_search re_eval_overall_summary content
                           = Some m /\ group 1 m = summary).
    { unfold re_search, content. rewrite app_assoc.
      rewrite search_from_skip;
        [|unfold re_eval_overall_summary, lit; cbn [Seq];
          now apply header_absent_no_match].
      destruct (eval_overall_summary_attempt
                  (char_before None
                     (pre ++ str "Overall Score:" ++ sp ++ ds ++ str "/100"
                      ++ mid)) sp' summary fin Hsp' Hq Hf) as (pv' & Ea).
      rewrite (search_from_hit _ _ _ _ Ea). eexists.
      split; reflexivity. }
    destruct E1 as (m1 & E1 & G1). destruct E2 as (m2 & E2 & G2).
    rewrite E1, E2, G1, G2 in E.
    destruct (int_or_raise ds) as [n|] eqn:Ei; [|discriminate].
    apply int_or_raise_value in Ei. subst n.
    destruct (blocks_loop _); [|discriminate]. inversion E; subst res.
    cbn [overall_interview_score overall_interview_summary].
    destruct (one_line_question_facts _ Hq) as (_ & _ & H1 & H2).
    now rewrite strip_trimmed_id.
Qed.

Lemma evaluation_overall_round_trip_witness :
  exists res,
    evaluate_candidate_responses_holistically
      (replying (sample_evaluation_blocks_part
                 ++ (str "Overall Score:" ++ str " " ++ str "055"
                     ++ str "/100" ++ [nl])
                 ++ str "Overall Summary:" ++ str " " ++ str "Fine overall."
                 ++ sample_evaluation_end))
      [] [str "What is X?"] [] [] [] []
    = (inl res, [] ++ [evaluation_request [] [str "What is X?"] [] [] []])
    /\ overall_interview_score res = 55%Z
    /\ overall_interview_summary res = str "Fine overall.".
Proof.
  apply (evaluation_overall_round_trip
           (replying (sample_evaluation_blocks_part
                      ++ (str "Overall Score:" ++ str " " ++ str "055"
                          ++ str "/100" ++ [nl])
                      ++ str "Overall Summary:" ++ str " "
                      ++ str "Fine overall." ++ sample_evaluation_end))
           [] (str "What is X?") [] [] [] []
           sample_evaluation_blocks_part (str " ") (str "055") [nl] (str " ")
           (str "Fine overall.") sample_evaluation_end []);
    [reflexivity | vm_compute; reflexivity | vm_compute; reflexivity
     | vm_compute; reflexivity
     | vm_compute; reflexivity | vm_compute; reflexivity | reflexivity
     | discriminate | reflexivity | reflexivity | vm_compute; reflexivity
     | vm_compute; reflexivity].
Defined.
